(** * Session orchestration engine of the support multi-agent system

    A shallow embedding of the TypeScript sources
      - [src/mas/memory]        (MemoryStore),
      - [src/mas/tracing]       (Tracer),
      - [src/mas/resilience]    (withRetry, CircuitBreaker),
      - [src/mas/tools/client]  (ToolClient),
      - [src/meta/tool-mapper/tools] (the tool catalogue),
      - [src/meta/intent-extractor] (classifyMessage),
      - [src/mas/orchestrator]  (Orchestrator),
      - [src/mas/runtime]       (MASRuntime),
    followed by the properties established about them.

    Conventions of the embedding.
      - A JavaScript [number] that the code only counts or compares as a
        millisecond timestamp or an integer threshold is a [Z]; a [number]
        that the code adds, multiplies or divides as a fraction (routing
        scores, confidences, back-off delays) is an IEEE-754 binary64
        [float], as in JavaScript.
      - [Date.now()] and [new Date().toISOString()] are read from an explicit
        argument [now : Z].
      - A [Map<string, V>] is a [gmap string V]; an array is a [list].
      - A function that may [throw] returns a [Result]; a method of a
        singleton object takes the object's state and returns the new one.
      - Strings are [string]s of 8-bit characters; [toLowerCase] folds the
        ASCII letters, which is what JavaScript does on ASCII text. *)

From Stdlib Require Import ZArith Floats Uint63 Ascii String List Bool Lia.
From stdpp Require Import base option list gmap strings.
Import ListNotations.

Set Warnings "-inexact-float,-register-all".
Local Open Scope Z_scope.

(* ===================================================================== *)
(** * JavaScript values and strings *)
(* ===================================================================== *)

Module JS.

(** The outcome of a call that may [throw]. *)
Inductive Result (E A : Type) : Type :=
| Ok (a : A)
| Throw (e : E).
Arguments Ok {E A} a.
Arguments Throw {E A} e.

Definition bind {E A B} (r : Result E A) (k : A -> Result E B) : Result E B :=
  match r with
  | Ok a => k a
  | Throw e => Throw e
  end.

(** A JSON-like value, for the [unknown] and [Record<string, unknown>]
    payloads (tool parameters, tool data, escalation summaries). *)
Inductive Value : Type :=
| VUndefined
| VNull
| VBool (b : bool)
| VNumber (x : float)
| VString (s : string)
| VArray (items : list Value)
| VObject (fields : list (string * Value)).

(** [!!v] of JavaScript. *)
Definition truthy (v : Value) : bool :=
  match v with
  | VUndefined | VNull => false
  | VBool b => b
  | VNumber x => negb (PrimFloat.is_zero x || PrimFloat.is_nan x)
  | VString s => negb (String.eqb s "")
  | VArray _ | VObject _ => true
  end.

(** [v.key] on a value that is neither [null] nor [undefined]. *)
Fixpoint assoc (key : string) (fields : list (string * Value)) : Value :=
  match fields with
  | [] => VUndefined
  | (k, v) :: rest => if String.eqb k key then v else assoc key rest
  end.

Definition getField (key : string) (v : Value) : Value :=
  match v with
  | VObject fields => assoc key fields
  | _ => VUndefined
  end.

(** An integer as a [number]. *)
Definition ofZ (z : Z) : float := PrimFloat.of_uint63 (Uint63.of_Z z).

(** [Math.min(a, b)]. *)
Definition Math_min (a b : float) : float :=
  if PrimFloat.is_nan a || PrimFloat.is_nan b then PrimFloat.nan
  else if PrimFloat.ltb a b then a
  else if PrimFloat.ltb b a then b
  else if PrimFloat.is_zero a && PrimFloat.get_sign a then a
  else b.

(** ** Strings *)

Definition lowerChar (c : ascii) : ascii :=
  let n := nat_of_ascii c in
  if ((65 <=? n) && (n <=? 90))%nat then ascii_of_nat (n + 32) else c.

(** [s.toLowerCase()]. *)
Fixpoint toLowerCase (s : string) : string :=
  match s with
  | EmptyString => EmptyString
  | String c rest => String (lowerChar c) (toLowerCase rest)
  end.

(** [s.startsWith(p)]. *)
Fixpoint startsWith (s p : string) : bool :=
  match p, s with
  | EmptyString, _ => true
  | String _ _, EmptyString => false
  | String a p', String b s' => Ascii.eqb a b && startsWith s' p'
  end.

(** [s.includes(p)]. *)
Fixpoint includes (s p : string) : bool :=
  startsWith s p ||
  match s with
  | EmptyString => false
  | String _ rest => includes rest p
  end.

(** [s.split(c)] for a one-character separator. *)
Fixpoint split (sep : ascii) (s : string) : list string :=
  match s with
  | EmptyString => [EmptyString]
  | String c rest =>
      if Ascii.eqb c sep then EmptyString :: split sep rest
      else match split sep rest with
           | [] => [String c EmptyString]
           | w :: ws => String c w :: ws
           end
  end.

(** [s.replace(/_/g, '-')]. *)
Fixpoint replaceUnderscores (s : string) : string :=
  match s with
  | EmptyString => EmptyString
  | String c rest =>
      String (if Ascii.eqb c "_" then "-"%char else c) (replaceUnderscores rest)
  end.

(** [s.slice(0, n)]. *)
Definition slice0 (n : nat) (s : string) : string := String.substring 0 n s.

(** [l.slice(-n)]. *)
Definition lastN {A} (n : nat) (l : list A) : list A :=
  drop (length l - n)%nat l.

(** [l.includes(x)] on an array of strings. *)
Definition arrayIncludes (l : list string) (x : string) : bool :=
  existsb (String.eqb x) l.

(** [l.join(sep)]. *)
Definition join (sep : string) (l : list string) : string := String.concat sep l.

(** [String(n)] for an array index [n]: its decimal digits. *)
Fixpoint digits (fuel n : nat) (text : string) : string :=
  let text := String (ascii_of_nat (48 + n mod 10)) text in
  match fuel with
  | O => text
  | S fuel' => if (n <? 10)%nat then text else digits fuel' (n / 10) text
  end.

Definition indexText (n : nat) : string := digits n n "".

(** The indices of an array or of a string of the given length, as
    [Object.keys] lists them. *)
Definition indices (n : nat) : list string := map indexText (seq 0 n).

End JS.

Import JS.

(** What a [throw] carries. The code throws [MASError]s (with their
    [context.recoverable] and [context.retryable] flags), plain [Error]s,
    and in one place the value of a variable that may still be
    [undefined]. *)
Inductive Exn : Type :=
| MASError (code : string) (message : string) (recoverable retryable : bool)
| JsError (name : string) (message : string)
| Thrown (v : Value).

(** [error instanceof Error]: a [MASError] extends [Error]. *)
Definition isError (e : Exn) : bool :=
  match e with
  | MASError _ _ _ _ | JsError _ _ => true
  | Thrown _ => false
  end.

Definition exnMessage (e : Exn) : string :=
  match e with
  | MASError code message _ _ => "[" +:+ code +:+ "] " +:+ message
  | JsError _ message => message
  | Thrown _ => ""
  end.

(* ===================================================================== *)
(** * Resilience: retry with back-off, circuit breaker *)
(* ===================================================================== *)

Module Resilience.

(** ** Retry *)

Record RetryConfig : Type := {
  maxAttempts : Z;
  initialDelayMs : float;
  maxDelayMs : float;
  backoffMultiplier : float;
  retryOn : Exn -> bool
}.

Definition DEFAULT_RETRY_CONFIG : RetryConfig := {|
  maxAttempts := 3;
  initialDelayMs := 100%float;
  maxDelayMs := 5000%float;
  backoffMultiplier := 2%float;
  retryOn := fun error =>
    match error with
    | MASError _ _ _ retryable => retryable
    | _ => false
    end
|}.

(** [Partial<RetryConfig>]: the fields a caller overrides. *)
Record PartialRetryConfig : Type := {
  maxAttempts' : option Z;
  initialDelayMs' : option float;
  maxDelayMs' : option float;
  backoffMultiplier' : option float;
  retryOn' : option (Exn -> bool)
}.

Definition noRetryOverrides : PartialRetryConfig :=
  {| maxAttempts' := None; initialDelayMs' := None; maxDelayMs' := None;
     backoffMultiplier' := None; retryOn' := None |}.

(** [{ ...DEFAULT_RETRY_CONFIG, ...config }]. *)
Definition mergeRetryConfig (config : PartialRetryConfig) : RetryConfig := {|
  maxAttempts := default (maxAttempts DEFAULT_RETRY_CONFIG) (maxAttempts' config);
  initialDelayMs := default (initialDelayMs DEFAULT_RETRY_CONFIG) (initialDelayMs' config);
  maxDelayMs := default (maxDelayMs DEFAULT_RETRY_CONFIG) (maxDelayMs' config);
  backoffMultiplier :=
    default (backoffMultiplier DEFAULT_RETRY_CONFIG) (backoffMultiplier' config);
  retryOn := default (retryOn DEFAULT_RETRY_CONFIG) (retryOn' config)
|}.

(** What [withRetry] does besides returning: it calls [fn] and it sleeps. *)
Inductive RetryEvent : Type :=
| Called
| Slept (ms : float).

Section WithRetry.
Context {S T : Type}.
(** [fn] may read and change the state of the world it runs in. *)
Variable fn : S -> Result Exn T * S.
Variable cfg : RetryConfig.

(** The [for] loop of [withRetry]; [fuel] is the number of iterations left
    before [attempt <= cfg.maxAttempts] fails, at which point the loop is
    left and [lastError] is thrown. *)
Fixpoint retryLoop (fuel : nat) (attempt : Z) (delay : float) (lastError : Exn)
    (trace : list RetryEvent) (st : S) : Result Exn T * list RetryEvent * S :=
  match fuel with
  | O => (Throw lastError, trace, st)
  | Datatypes.S fuel' =>
      match fn st with
      | (Ok v, st') => (Ok v, trace ++ [Called], st')
      | (Throw error, st') =>
          if negb (retryOn cfg error) || (attempt =? maxAttempts cfg)
          then (Throw error, trace ++ [Called], st')
          else retryLoop fuel' (attempt + 1)
                 (Math_min (delay * backoffMultiplier cfg) (maxDelayMs cfg))
                 error (trace ++ [Called; Slept delay]) st'
      end
  end.

Definition withRetryCfg (st : S) : Result Exn T * list RetryEvent * S :=
  retryLoop (Z.to_nat (maxAttempts cfg)) 1 (initialDelayMs cfg)
    (Thrown VUndefined) [] st.

End WithRetry.

Definition withRetry {S T} (fn : S -> Result Exn T * S)
    (config : PartialRetryConfig) (st : S) : Result Exn T * list RetryEvent * S :=
  withRetryCfg fn (mergeRetryConfig config) st.

(** The calls and the sleeps of a trace. *)
Definition calls (trace : list RetryEvent) : nat :=
  length (List.filter (fun ev => match ev with Called => true | _ => false end) trace).

Fixpoint sleeps (trace : list RetryEvent) : list float :=
  match trace with
  | [] => []
  | Called :: rest => sleeps rest
  | Slept ms :: rest => ms :: sleeps rest
  end.

(** ** Circuit breaker *)

Inductive CircuitState : Type := CLOSED | OPEN | HALF_OPEN.

Record CircuitBreakerConfig : Type := {
  failureThreshold : Z;
  successThreshold : Z;
  resetTimeoutMs : Z;
  monitoringWindowMs : Z
}.

Definition DEFAULT_CIRCUIT_CONFIG : CircuitBreakerConfig := {|
  failureThreshold := 5;
  successThreshold := 2;
  resetTimeoutMs := 30000;
  monitoringWindowMs := 60000
|}.

Record CircuitStats : Type := {
  state : CircuitState;
  failures : Z;
  successes : Z;
  lastFailure : Z;
  lastStateChange : Z;
  recentFailures : list Z
}.

(** The [CircuitBreaker] object: its private [circuits] map and [config]. *)
Record CircuitBreaker : Type := {
  circuits : gmap string CircuitStats;
  config : CircuitBreakerConfig
}.

Definition newCircuitBreaker (config : CircuitBreakerConfig) : CircuitBreaker :=
  {| circuits := ∅; config := config |}.

Definition setCircuit (serviceId : string) (circuit : CircuitStats)
    (cb : CircuitBreaker) : CircuitBreaker :=
  {| circuits := <[serviceId := circuit]> (circuits cb); config := config cb |}.

(** [getCircuit]: the circuit of a service, created closed on first use. *)
Definition getCircuit (now : Z) (serviceId : string) (cb : CircuitBreaker)
    : CircuitStats * CircuitBreaker :=
  match circuits cb !! serviceId with
  | Some circuit => (circuit, cb)
  | None =>
      let circuit := {| state := CLOSED; failures := 0; successes := 0;
                        lastFailure := 0; lastStateChange := now;
                        recentFailures := [] |} in
      (circuit, setCircuit serviceId circuit cb)
  end.

Definition canExecute (now : Z) (serviceId : string) (cb : CircuitBreaker)
    : bool * CircuitBreaker :=
  let '(circuit, cb) := getCircuit now serviceId cb in
  match state circuit with
  | CLOSED => (true, cb)
  | OPEN =>
      if now - lastStateChange circuit >=? resetTimeoutMs (config cb)
      then (true,
            setCircuit serviceId
              {| state := HALF_OPEN; failures := failures circuit; successes := 0;
                 lastFailure := lastFailure circuit; lastStateChange := now;
                 recentFailures := recentFailures circuit |} cb)
      else (false, cb)
  | HALF_OPEN => (true, cb)
  end.

Definition recordSuccess (now : Z) (serviceId : string) (cb : CircuitBreaker)
    : CircuitBreaker :=
  let '(circuit, cb) := getCircuit now serviceId cb in
  match state circuit with
  | HALF_OPEN =>
      let successes1 := successes circuit + 1 in
      if successes1 >=? successThreshold (config cb)
      then setCircuit serviceId
             {| state := CLOSED; failures := 0; successes := successes1;
                lastFailure := lastFailure circuit; lastStateChange := now;
                recentFailures := recentFailures circuit |} cb
      else setCircuit serviceId
             {| state := HALF_OPEN; failures := failures circuit;
                successes := successes1; lastFailure := lastFailure circuit;
                lastStateChange := lastStateChange circuit;
                recentFailures := recentFailures circuit |} cb
  | _ => cb
  end.

Definition recordFailure (now : Z) (serviceId : string) (cb : CircuitBreaker)
    : CircuitBreaker :=
  let '(circuit, cb) := getCircuit now serviceId cb in
  let recent :=
    List.filter (fun t => now - t <? monitoringWindowMs (config cb)) (recentFailures circuit)
      ++ [now] in
  let failures1 := failures circuit + 1 in
  match state circuit with
  | HALF_OPEN =>
      setCircuit serviceId
        {| state := OPEN; failures := failures1; successes := successes circuit;
           lastFailure := now; lastStateChange := now; recentFailures := recent |} cb
  | CLOSED =>
      if Z.of_nat (length recent) >=? failureThreshold (config cb)
      then setCircuit serviceId
             {| state := OPEN; failures := failures1; successes := successes circuit;
                lastFailure := now; lastStateChange := now;
                recentFailures := recent |} cb
      else setCircuit serviceId
             {| state := CLOSED; failures := failures1; successes := successes circuit;
                lastFailure := now; lastStateChange := lastStateChange circuit;
                recentFailures := recent |} cb
  | OPEN =>
      setCircuit serviceId
        {| state := OPEN; failures := failures1; successes := successes circuit;
           lastFailure := now; lastStateChange := lastStateChange circuit;
           recentFailures := recent |} cb
  end.

(** The process-wide breaker of the tools:
    [new CircuitBreaker({ failureThreshold: 3, resetTimeoutMs: 15000 })]. *)
Definition toolCircuitConfig : CircuitBreakerConfig := {|
  failureThreshold := 3;
  successThreshold := successThreshold DEFAULT_CIRCUIT_CONFIG;
  resetTimeoutMs := 15000;
  monitoringWindowMs := monitoringWindowMs DEFAULT_CIRCUIT_CONFIG
|}.

(** The state of the circuit of a service, if it has one. *)
Definition circuitOf (serviceId : string) (cb : CircuitBreaker) : option CircuitStats :=
  circuits cb !! serviceId.

(** [CircuitBreaker.execute]: [fn] under the protection of the circuit of
    a service; [now] is the clock when the circuit is consulted and [later]
    the clock when the outcome is recorded. *)
Definition circuitOpenError (serviceId : string) : Exn :=
  MASError "E6004"
    ("Circuit open for " +:+ serviceId +:+ ". Service temporarily unavailable.")
    true true.

Definition execute {S T : Type} (fn : S -> Result Exn T * S) (serviceId : string)
    (now later : Z) (cb : CircuitBreaker) (st : S)
    : Result Exn T * CircuitBreaker * S :=
  let '(allowed, cb1) := canExecute now serviceId cb in
  if negb allowed then (Throw (circuitOpenError serviceId), cb1, st)
  else
    match fn st with
    | (Ok result, st') => (Ok result, recordSuccess later serviceId cb1, st')
    | (Throw error, st') => (Throw error, recordFailure later serviceId cb1, st')
    end.

(** [getState]: a copy of the circuit, which [getCircuit] creates when the
    service has none. *)
Definition getState (now : Z) (serviceId : string) (cb : CircuitBreaker)
    : CircuitStats * CircuitBreaker :=
  getCircuit now serviceId cb.

Definition reset (serviceId : string) (cb : CircuitBreaker) : CircuitBreaker :=
  {| circuits := delete serviceId (circuits cb); config := config cb |}.

Definition resetAll (cb : CircuitBreaker) : CircuitBreaker :=
  {| circuits := ∅; config := config cb |}.

(** ** Confidence thresholds *)

Record ConfidenceConfig : Type := {
  routingMinConfidence : float;
  clarificationThreshold : float;
  escalationThreshold : float;
  toolConfidenceThreshold : float
}.

Definition DEFAULT_CONFIDENCE_CONFIG : ConfidenceConfig := {|
  routingMinConfidence := 0.3%float;
  clarificationThreshold := 0.2%float;
  escalationThreshold := 0.1%float;
  toolConfidenceThreshold := 0.5%float
|}.

Inductive ConfidenceAction : Type := proceed | clarify | fallback | escalate.

Record ConfidenceDecision : Type := {
  action : ConfidenceAction;
  confidence : float;
  reason : string
}.

(** [evaluateConfidence], on the configuration already merged with the
    defaults. *)
Definition evaluateConfidence (confidence : float) (cfg : ConfidenceConfig)
    : ConfidenceDecision :=
  if PrimFloat.leb (routingMinConfidence cfg) confidence then
    {| action := proceed; confidence := confidence;
       reason := "Confidence sufficient for routing" |}
  else if PrimFloat.leb (clarificationThreshold cfg) confidence then
    {| action := clarify; confidence := confidence;
       reason := "Low confidence - ask customer for clarification" |}
  else if PrimFloat.leb (escalationThreshold cfg) confidence then
    {| action := fallback; confidence := confidence;
       reason := "Very low confidence - use fallback agent" |}
  else
    {| action := escalate; confidence := confidence;
       reason := "Confidence too low - escalate to human" |}.

(** ** Fallback chains *)

(** A handler of a chain. [run] is what awaiting the handler gives: the
    outcome of its [execute], or of the race of [execute] against the
    chain's timeout when the chain has one. [shouldTry] receives the last
    error, [None] while [lastError] is still [undefined]. *)
Record Handler (S T : Type) : Type := {
  handlerName : string;
  run : S -> Result Exn T * S;
  shouldTry : option Exn -> bool
}.
Arguments handlerName {S T} _.
Arguments run {S T} _ _.
Arguments shouldTry {S T} _ _.

(** Whether a thrown value is truthy: an error object is. *)
Definition truthyExn (e : Exn) : bool :=
  match e with
  | MASError _ _ _ _ | JsError _ _ => true
  | Thrown v => truthy v
  end.

Definition allHandlersFailed : Exn := JsError "Error" "All fallback handlers failed".

(** The [for] loop of [withFallbackChain] and the [throw] after it. *)
Fixpoint fallbackLoop {S T : Type} (handlers : list (Handler S T))
    (lastError : option Exn) (st : S) : Result Exn (T * string) * S :=
  match handlers with
  | [] =>
      (Throw (match lastError with
              | Some e => if truthyExn e then e else allHandlersFailed
              | None => allHandlersFailed
              end), st)
  | handler :: rest =>
      if negb (shouldTry handler lastError) then fallbackLoop rest lastError st
      else
        match run handler st with
        | (Ok result, st') => (Ok (result, handlerName handler), st')
        | (Throw error, st') => fallbackLoop rest (Some error) st'
        end
  end.

Definition withFallbackChain {S T : Type} (handlers : list (Handler S T)) (st : S)
    : Result Exn (T * string) * S :=
  fallbackLoop handlers None st.

(** ** Rate limiter *)

Record RateLimiterConfig : Type := {
  maxRequests : Z;
  windowMs : Z
}.

Definition DEFAULT_RATE_LIMIT : RateLimiterConfig :=
  {| maxRequests := 60; windowMs := 60000 |}.

(** The [RateLimiter] object: its private [requests] map and [config]. *)
Record RateLimiter : Type := {
  requests : gmap string (list Z);
  limiterConfig : RateLimiterConfig
}.

Definition newRateLimiter (config : RateLimiterConfig) : RateLimiter :=
  {| requests := ∅; limiterConfig := config |}.

(** The timestamps of a key that are still inside the window at [now]. *)
Definition inWindow (now : Z) (key : string) (rl : RateLimiter) : list Z :=
  List.filter (fun t => now - windowMs (limiterConfig rl) <? t)
    (default [] (requests rl !! key)).

Definition isAllowed (now : Z) (key : string) (rl : RateLimiter)
    : bool * RateLimiter :=
  let timestamps := inWindow now key rl in
  if Z.of_nat (length timestamps) >=? maxRequests (limiterConfig rl)
  then (false, rl)
  else (true,
        {| requests := <[key := timestamps ++ [now]]> (requests rl);
           limiterConfig := limiterConfig rl |}).

Definition getRemaining (now : Z) (key : string) (rl : RateLimiter) : Z :=
  Z.max 0 (maxRequests (limiterConfig rl) - Z.of_nat (length (inWindow now key rl))).

(** [Math.min(...timestamps)] of a non-empty list. *)
Definition oldest (first : Z) (others : list Z) : Z := fold_left Z.min others first.

Definition getResetTime (now : Z) (key : string) (rl : RateLimiter) : Z :=
  match default [] (requests rl !! key) with
  | [] => 0
  | first :: others =>
      Z.max 0 (oldest first others + windowMs (limiterConfig rl) - now)
  end.

(** The process-wide limiter of the sessions. *)
Definition sessionRateLimitConfig : RateLimiterConfig :=
  {| maxRequests := 30; windowMs := 60000 |}.

End Resilience.

(* ===================================================================== *)
(** * MemoryStore: the sessions *)
(* ===================================================================== *)

Module Memory.

Inductive Role : Type := Customer | Agent | System.

Record Message : Type := {
  role : Role;
  content : string;
  timestamp : Z;
  metadata : option Value
}.

(** [ToolCall.result]; an absent [data] is [VUndefined]. *)
Record ToolResult : Type := {
  success : bool;
  data : Value;
  error : option string
}.

(** [params] is stored as it was handed over. The store is typed for a
    record, but its one caller ([AgentExecutor.execute]) hands over whatever
    the arguments of the model parsed to. *)
Record ToolCall : Type := {
  toolHandle : string;
  params : Value;
  result : ToolResult;
  callTimestamp : Z
}.

Inductive Status : Type := Active | Escalated | Resolved.

(** An absent optional field of type [unknown] is [VUndefined]. *)
Record SessionContext : Type := {
  orderHistory : Value;
  subscriptionStatus : Value;
  currentOrder : Value;
  mentionedOrderNumbers : list string;
  mentionedProducts : list string;
  currentAgent : string;
  previousAgents : list string;
  intentHistory : list string;
  escalated : bool;
  escalationReason : option string;
  escalationSummary : option Value
}.

Record Session : Type := {
  id : string;
  customerId : string;
  customerEmail : string;
  customerFirstName : string;
  customerLastName : string;
  shopifyCustomerId : string;
  startedAt : Z;
  lastActivity : Z;
  status : Status;
  messages : list Message;
  toolCalls : list ToolCall;
  context : SessionContext
}.

(** The private [sessions] map of the store. *)
Abbreviation MemoryStore := (gmap string Session).

(** Field assignments. *)
Definition setMessages (v : list Message) (s : Session) : Session :=
  {| id := id s; customerId := customerId s; customerEmail := customerEmail s;
     customerFirstName := customerFirstName s; customerLastName := customerLastName s;
     shopifyCustomerId := shopifyCustomerId s; startedAt := startedAt s;
     lastActivity := lastActivity s; status := status s; messages := v;
     toolCalls := toolCalls s; context := context s |}.

Definition setToolCalls (v : list ToolCall) (s : Session) : Session :=
  {| id := id s; customerId := customerId s; customerEmail := customerEmail s;
     customerFirstName := customerFirstName s; customerLastName := customerLastName s;
     shopifyCustomerId := shopifyCustomerId s; startedAt := startedAt s;
     lastActivity := lastActivity s; status := status s; messages := messages s;
     toolCalls := v; context := context s |}.

Definition setLastActivity (v : Z) (s : Session) : Session :=
  {| id := id s; customerId := customerId s; customerEmail := customerEmail s;
     customerFirstName := customerFirstName s; customerLastName := customerLastName s;
     shopifyCustomerId := shopifyCustomerId s; startedAt := startedAt s;
     lastActivity := v; status := status s; messages := messages s;
     toolCalls := toolCalls s; context := context s |}.

Definition setStatus (v : Status) (s : Session) : Session :=
  {| id := id s; customerId := customerId s; customerEmail := customerEmail s;
     customerFirstName := customerFirstName s; customerLastName := customerLastName s;
     shopifyCustomerId := shopifyCustomerId s; startedAt := startedAt s;
     lastActivity := lastActivity s; status := v; messages := messages s;
     toolCalls := toolCalls s; context := context s |}.

Definition setContext (v : SessionContext) (s : Session) : Session :=
  {| id := id s; customerId := customerId s; customerEmail := customerEmail s;
     customerFirstName := customerFirstName s; customerLastName := customerLastName s;
     shopifyCustomerId := shopifyCustomerId s; startedAt := startedAt s;
     lastActivity := lastActivity s; status := status s; messages := messages s;
     toolCalls := toolCalls s; context := v |}.

Definition setMentionedOrderNumbers (v : list string) (c : SessionContext)
    : SessionContext :=
  {| orderHistory := orderHistory c; subscriptionStatus := subscriptionStatus c;
     currentOrder := currentOrder c; mentionedOrderNumbers := v;
     mentionedProducts := mentionedProducts c; currentAgent := currentAgent c;
     previousAgents := previousAgents c; intentHistory := intentHistory c;
     escalated := escalated c; escalationReason := escalationReason c;
     escalationSummary := escalationSummary c |}.

Definition setCaches (orders subscription order : Value) (c : SessionContext)
    : SessionContext :=
  {| orderHistory := orders; subscriptionStatus := subscription;
     currentOrder := order; mentionedOrderNumbers := mentionedOrderNumbers c;
     mentionedProducts := mentionedProducts c; currentAgent := currentAgent c;
     previousAgents := previousAgents c; intentHistory := intentHistory c;
     escalated := escalated c; escalationReason := escalationReason c;
     escalationSummary := escalationSummary c |}.

Definition setAgents (current : string) (previous : list string) (c : SessionContext)
    : SessionContext :=
  {| orderHistory := orderHistory c; subscriptionStatus := subscriptionStatus c;
     currentOrder := currentOrder c; mentionedOrderNumbers := mentionedOrderNumbers c;
     mentionedProducts := mentionedProducts c; currentAgent := current;
     previousAgents := previous; intentHistory := intentHistory c;
     escalated := escalated c; escalationReason := escalationReason c;
     escalationSummary := escalationSummary c |}.

Definition setIntentHistory (v : list string) (c : SessionContext) : SessionContext :=
  {| orderHistory := orderHistory c; subscriptionStatus := subscriptionStatus c;
     currentOrder := currentOrder c; mentionedOrderNumbers := mentionedOrderNumbers c;
     mentionedProducts := mentionedProducts c; currentAgent := currentAgent c;
     previousAgents := previousAgents c; intentHistory := v;
     escalated := escalated c; escalationReason := escalationReason c;
     escalationSummary := escalationSummary c |}.

Definition setEscalation (flag : bool) (reason : option string)
    (summary : option Value) (c : SessionContext) : SessionContext :=
  {| orderHistory := orderHistory c; subscriptionStatus := subscriptionStatus c;
     currentOrder := currentOrder c; mentionedOrderNumbers := mentionedOrderNumbers c;
     mentionedProducts := mentionedProducts c; currentAgent := currentAgent c;
     previousAgents := previousAgents c; intentHistory := intentHistory c;
     escalated := flag; escalationReason := reason; escalationSummary := summary |}.

(** [new Error(`Session not found: ${sessionId}`)]. *)
Definition sessionNotFound (sessionId : string) : Exn :=
  JsError "Error" ("Session not found: " +:+ sessionId).

Record SessionStartParams : Type := {
  sp_customerEmail : string;
  sp_firstName : string;
  sp_lastName : string;
  sp_shopifyCustomerId : string
}.

(** [startSession]; [sessionId] is what [generateSessionId] draws from the
    clock and [Math.random]. *)
Definition startSession (sessionId : string) (params : SessionStartParams) (now : Z)
    (store : MemoryStore) : Session * MemoryStore :=
  let session := {|
    id := sessionId;
    customerId := sp_shopifyCustomerId params;
    customerEmail := sp_customerEmail params;
    customerFirstName := sp_firstName params;
    customerLastName := sp_lastName params;
    shopifyCustomerId := sp_shopifyCustomerId params;
    startedAt := now;
    lastActivity := now;
    status := Active;
    messages := [];
    toolCalls := [];
    context := {| orderHistory := VUndefined; subscriptionStatus := VUndefined;
                  currentOrder := VUndefined; mentionedOrderNumbers := [];
                  mentionedProducts := []; currentAgent := "";
                  previousAgents := []; intentHistory := [];
                  escalated := false; escalationReason := None;
                  escalationSummary := None |}
  |} in
  (session, <[sessionId := session]> store).

Definition getSession (sessionId : string) (store : MemoryStore) : option Session :=
  store !! sessionId.

(** ** Entity extraction: [/#\d{4,10}|#NP\d{4,10}|NP\d{4,10}/gi] *)

Definition isDigit (c : ascii) : bool :=
  let n := nat_of_ascii c in ((48 <=? n) && (n <=? 57))%nat.

Definition isHash (c : ascii) : bool := Ascii.eqb c "#".
Definition isN (c : ascii) : bool := Ascii.eqb c "N" || Ascii.eqb c "n".
Definition isP (c : ascii) : bool := Ascii.eqb c "P" || Ascii.eqb c "p".

(** The longest run of at most [max] digits at the head of [l]. *)
Fixpoint takeDigits (max : nat) (l : list ascii) : list ascii :=
  match max, l with
  | Datatypes.S m, c :: rest => if isDigit c then c :: takeDigits m rest else []
  | _, _ => []
  end.

(** [\d{4,10}], greedy. *)
Definition digits4to10 (l : list ascii) : option (list ascii) :=
  let ds := takeDigits 10 l in
  if (4 <=? length ds)%nat then Some ds else None.

(** [NP\d{4,10}] under the [i] flag. *)
Definition npDigits (l : list ascii) : option (list ascii) :=
  match l with
  | n :: p :: rest =>
      if isN n && isP p then
        match digits4to10 rest with
        | Some ds => Some (n :: p :: ds)
        | None => None
        end
      else None
  | _ => None
  end.

(** The text the pattern matches at the head of [l]: the alternatives are
    tried in the order they are written. *)
Definition matchOrderAt (l : list ascii) : option (list ascii) :=
  match l with
  | c :: rest =>
      if isHash c then
        match digits4to10 rest with
        | Some ds => Some (c :: ds)
        | None =>
            match npDigits rest with
            | Some m => Some (c :: m)
            | None => None
            end
        end
      else npDigits l
  | [] => None
  end.

(** All the matches, left to right, each search resuming where the match
    before it ended ([skip] characters are still part of that match). *)
Fixpoint scanOrders (skip : nat) (l : list ascii) : list string :=
  match l with
  | [] => []
  | _ :: rest =>
      match skip with
      | Datatypes.S k => scanOrders k rest
      | O =>
          match matchOrderAt l with
          | Some m => string_of_list_ascii m :: scanOrders (length m - 1) rest
          | None => scanOrders 0 rest
          end
      end
  end.

(** [content.match(...)], with [null] as the empty list. *)
Definition orderMatches (content : string) : list string :=
  scanOrders 0 (list_ascii_of_string content).

(** The body of the [for] loop of [extractEntities]. *)
Definition recordOrder (mentioned : list string) (m : string) : list string :=
  let normalized := if startsWith m "#" then m else "#" +:+ m in
  if negb (arrayIncludes mentioned normalized) && negb (arrayIncludes mentioned m)
  then mentioned ++ [m]
  else mentioned.

Definition extractEntities (session : Session) (content : string) : Session :=
  setContext
    (setMentionedOrderNumbers
       (fold_left recordOrder (orderMatches content)
          (mentionedOrderNumbers (context session)))
       (context session))
    session.

(** ** The mutators *)

Definition addMessage (sessionId : string) (role : Role) (content : string)
    (metadata : option Value) (now : Z) (store : MemoryStore)
    : Result Exn MemoryStore :=
  match store !! sessionId with
  | None => Throw (sessionNotFound sessionId)
  | Some session =>
      let session :=
        setMessages
          (messages session ++
             [{| role := role; content := content; timestamp := now;
                 metadata := metadata |}])
          session in
      let session := setLastActivity now session in
      let session :=
        match role with
        | Customer => extractEntities session content
        | _ => session
        end in
      Ok (<[sessionId := session]> store)
  end.

Definition cacheToolResult (session : Session) (toolHandle : string)
    (result : ToolResult) : Session :=
  if negb (success result) || negb (truthy (data result)) then session
  else
    let c := context session in
    let orders :=
      if String.eqb toolHandle "shopify_get_customer_orders"
      then getField "orders" (data result) else orderHistory c in
    let subscription :=
      if String.eqb toolHandle "skio_get_subscription_status"
      then data result else subscriptionStatus c in
    let order :=
      if String.eqb toolHandle "shopify_get_order_details"
      then data result else currentOrder c in
    setContext (setCaches orders subscription order c) session.

Definition recordToolCall (sessionId toolHandle : string)
    (params : Value) (result : ToolResult) (now : Z)
    (store : MemoryStore) : Result Exn MemoryStore :=
  match store !! sessionId with
  | None => Throw (sessionNotFound sessionId)
  | Some session =>
      let session :=
        setToolCalls
          (toolCalls session ++
             [{| toolHandle := toolHandle; params := params; result := result;
                 callTimestamp := now |}])
          session in
      let session := setLastActivity now session in
      Ok (<[sessionId := cacheToolResult session toolHandle result]> store)
  end.

Definition escalate (sessionId reason : string) (summary : Value) (now : Z)
    (store : MemoryStore) : Result Exn MemoryStore :=
  match store !! sessionId with
  | None => Throw (sessionNotFound sessionId)
  | Some session =>
      let session := setStatus Escalated session in
      let session :=
        setContext (setEscalation true (Some reason) (Some summary) (context session))
          session in
      Ok (<[sessionId := setLastActivity now session]> store)
  end.

(** [session?.context.escalated ?? false]. *)
Definition isEscalated (sessionId : string) (store : MemoryStore) : bool :=
  match store !! sessionId with
  | Some session => escalated (context session)
  | None => false
  end.

Definition setCurrentAgent (sessionId agentId : string) (store : MemoryStore)
    : Result Exn MemoryStore :=
  match store !! sessionId with
  | None => Ok store
  | Some session =>
      let c := context session in
      let previous :=
        if negb (String.eqb (currentAgent c) "") && negb (String.eqb (currentAgent c) agentId)
        then previousAgents c ++ [currentAgent c]
        else previousAgents c in
      Ok (<[sessionId := setContext (setAgents agentId previous c) session]> store)
  end.

Definition recordIntent (sessionId intentId : string) (store : MemoryStore)
    : Result Exn MemoryStore :=
  match store !! sessionId with
  | None => Ok store
  | Some session =>
      let c := context session in
      Ok (<[sessionId :=
              setContext (setIntentHistory (intentHistory c ++ [intentId]) c) session]>
            store)
  end.

End Memory.

(* ===================================================================== *)
(** * Tracer: the per-session timeline *)
(* ===================================================================== *)

Module Tracing.

Inductive EventType : Type :=
| message | tool_call | routing | escalation | error.

(** A [TraceEvent]; its [id], drawn from the clock and [Math.random], is
    left out. *)
Record TraceEvent : Type := {
  sessionId : string;
  timestamp : Z;
  type : EventType;
  data : Value
}.

Record TraceSummary : Type := {
  messageCount : Z;
  toolCallCount : Z;
  successfulToolCalls : Z;
  failedToolCalls : Z;
  escalated : bool;
  duration : Z;
  agents : list string
}.

(** A [SessionTrace]; no part of the message pipeline opens a span, so
    [spans] stays empty and is left out. *)
Record SessionTrace : Type := {
  timeline : list TraceEvent;
  summary : TraceSummary
}.

Abbreviation Tracer := (gmap string SessionTrace).

Definition initSession (sessionId : string) (tracer : Tracer) : Tracer :=
  <[sessionId :=
      {| timeline := [];
         summary := {| messageCount := 0; toolCallCount := 0;
                       successfulToolCalls := 0; failedToolCalls := 0;
                       escalated := false; duration := 0; agents := [] |} |}]>
    tracer.

Definition createEvent (sessionId : string) (type : EventType) (data : Value)
    (now : Z) : TraceEvent :=
  {| sessionId := sessionId; timestamp := now; type := type; data := data |}.

Definition addEvent (sessionId : string) (event : TraceEvent) (tracer : Tracer)
    : Tracer :=
  match tracer !! sessionId with
  | Some trace =>
      <[sessionId := {| timeline := timeline trace ++ [event];
                        summary := summary trace |}]> tracer
  | None => tracer
  end.

Definition updateSummary (sessionId : string)
    (updater : TraceSummary -> TraceSummary) (tracer : Tracer) : Tracer :=
  match tracer !! sessionId with
  | Some trace =>
      <[sessionId := {| timeline := timeline trace;
                        summary := updater (summary trace) |}]> tracer
  | None => tracer
  end.

Definition roleName (role : Memory.Role) : string :=
  match role with
  | Memory.Customer => "customer"
  | Memory.Agent => "agent"
  | Memory.System => "system"
  end.

(** The tracer runs at its default log level, ['standard']. *)
Definition traceMessage (sessionId : string) (role : Memory.Role) (content : string)
    (now : Z) (tracer : Tracer) : Tracer :=
  let event :=
    createEvent sessionId message
      (VObject [("role", VString (roleName role));
                ("content", VString (slice0 100 content));
                ("length", VNumber (ofZ (Z.of_nat (String.length content))))])
      now in
  updateSummary sessionId
    (fun s => {| messageCount := messageCount s + 1;
                 toolCallCount := toolCallCount s;
                 successfulToolCalls := successfulToolCalls s;
                 failedToolCalls := failedToolCalls s;
                 escalated := escalated s; duration := duration s;
                 agents := agents s |})
    (addEvent sessionId event tracer).

Definition traceRouting (sessionId fromAgent toAgent reason : string) (now : Z)
    (tracer : Tracer) : Tracer :=
  let event :=
    createEvent sessionId routing
      (VObject [("from", VString fromAgent); ("to", VString toAgent);
                ("reason", VString reason)])
      now in
  updateSummary sessionId
    (fun s => {| messageCount := messageCount s;
                 toolCallCount := toolCallCount s;
                 successfulToolCalls := successfulToolCalls s;
                 failedToolCalls := failedToolCalls s;
                 escalated := escalated s; duration := duration s;
                 agents := if arrayIncludes (agents s) toAgent then agents s
                           else agents s ++ [toAgent] |})
    (addEvent sessionId event tracer).

(** [Object.keys(v)] for a [v] that is neither [null] nor [undefined] (on
    which it throws): the keys of an object, the indices of an array or of a
    string, nothing for a number or a boolean. *)
Definition keys (v : Value) : list string :=
  match v with
  | VObject fields => map fst fields
  | VArray items => indices (length items)
  | VString s => indices (String.length s)
  | _ => []
  end.

Definition traceEscalation (sessionId reason : string) (summary : Value) (now : Z)
    (tracer : Tracer) : Tracer :=
  let event :=
    createEvent sessionId escalation
      (VObject [("reason", VString reason);
                ("summary", VObject [("keys", VArray (map VString (keys summary)))])])
      now in
  updateSummary sessionId
    (fun s => {| messageCount := messageCount s;
                 toolCallCount := toolCallCount s;
                 successfulToolCalls := successfulToolCalls s;
                 failedToolCalls := failedToolCalls s;
                 escalated := true; duration := duration s;
                 agents := agents s |})
    (addEvent sessionId event tracer).

(** [traceToolCall], for [params] that are neither [null] nor [undefined]. *)
Definition traceToolCall (sessionId toolHandle : string) (params : Value)
    (result : Memory.ToolResult) (now : Z) (tracer : Tracer) : Tracer :=
  let event :=
    createEvent sessionId tool_call
      (VObject [("tool", VString toolHandle);
                ("params", VObject [("keys", VArray (map VString (keys params)))]);
                ("success", VBool (Memory.success result));
                ("hasData", VBool (truthy (Memory.data result)));
                ("error", match Memory.error result with
                          | Some e => VString e
                          | None => VUndefined
                          end)])
      now in
  updateSummary sessionId
    (fun s => {| messageCount := messageCount s;
                 toolCallCount := toolCallCount s + 1;
                 successfulToolCalls :=
                   if Memory.success result then successfulToolCalls s + 1
                   else successfulToolCalls s;
                 failedToolCalls :=
                   if Memory.success result then failedToolCalls s
                   else failedToolCalls s + 1;
                 escalated := escalated s; duration := duration s;
                 agents := agents s |})
    (addEvent sessionId event tracer).

(** [traceError]: an event, and no change to the summary. *)
Definition traceError (sessionId errorText : string) (context : option Value) (now : Z)
    (tracer : Tracer) : Tracer :=
  let event :=
    createEvent sessionId error
      (VObject [("error", VString errorText);
                ("context", match context with
                            | Some c => c
                            | None => VUndefined
                            end)])
      now in
  addEvent sessionId event tracer.

(** [getTrace]: the trace of the session, its [duration] brought up to date
    (in the tracer too) when the timeline has two events or more. *)
Definition getTrace (sessionId : string) (tracer : Tracer)
    : option SessionTrace * Tracer :=
  match tracer !! sessionId with
  | None => (None, tracer)
  | Some trace =>
      match timeline trace, last (timeline trace) with
      | first :: _ :: _, Some final =>
          let s := summary trace in
          let trace' :=
            {| timeline := timeline trace;
               summary := {| messageCount := messageCount s;
                             toolCallCount := toolCallCount s;
                             successfulToolCalls := successfulToolCalls s;
                             failedToolCalls := failedToolCalls s;
                             escalated := escalated s;
                             duration := timestamp final - timestamp first;
                             agents := agents s |} |} in
          (Some trace', <[sessionId := trace']> tracer)
      | _, _ => (Some trace, tracer)
      end
  end.

End Tracing.

(* ===================================================================== *)
(** * Intent extractor: keyword classification *)
(* ===================================================================== *)

Module Intent.

Record IntentConfig : Type := {
  keywords : list string;
  suggestedWorkflow : string;
  priority : Z
}.

(** [INTENT_CATEGORIES], in the order of its keys. *)
Definition INTENT_CATEGORIES : list (string * IntentConfig) := [
  ("ESCALATION_REQUEST",
   {| keywords := ["speak to human"; "talk to human"; "real person";
                   "speak to manager"; "talk to manager"; "human agent";
                   "live agent"; "customer service representative";
                   "speak to supervisor"; "talk to supervisor";
                   "transfer to supervisor"; "transfer me to"; "transfer to agent"];
      suggestedWorkflow := "escalation"; priority := 15 |});
  ("SUBSCRIPTION_CANCEL",
   {| keywords := ["cancel subscription"; "stop subscription"; "unsubscribe";
                   "cancel my subscription"; "end subscription";
                   "terminate subscription"];
      suggestedWorkflow := "subscription-cancellation"; priority := 10 |});
  ("SUBSCRIPTION_PAUSE",
   {| keywords := ["pause subscription"; "pause my subscription"; "skip next";
                   "skip order"; "skip subscription"; "delay subscription";
                   "hold subscription"; "skip my next"];
      suggestedWorkflow := "subscription-pause"; priority := 10 |});
  ("SUBSCRIPTION_INQUIRY",
   {| keywords := ["subscription status"; "billing date"; "next subscription";
                   "when is my subscription"];
      suggestedWorkflow := "subscription-management"; priority := 5 |});
  ("REFUND_REQUEST",
   {| keywords := ["refund"; "money back"; "get refund"; "want refund";
                   "need refund"; "full refund"];
      suggestedWorkflow := "refund-processing"; priority := 8 |});
  ("RETURN_REQUEST",
   {| keywords := ["return"; "send back"; "exchange"; "wrong item"; "defective";
                   "return order"];
      suggestedWorkflow := "return-processing"; priority := 7 |});
  ("CANCEL_ORDER",
   {| keywords := ["cancel order"; "cancel my order"; "dont want order";
                   "cancel the order"];
      suggestedWorkflow := "order-cancellation"; priority := 6 |});
  ("ORDER_STATUS",
   {| keywords := ["where is my order"; "order status"; "status of order";
                   "tracking"; "shipped"; "delivery status"; "when arrive";
                   "what is the status"; "order tracking"; "track my order"];
      suggestedWorkflow := "order-tracking"; priority := 3 |});
  ("SHIPPING_ADDRESS",
   {| keywords := ["change address"; "update address"; "wrong address";
                   "shipping address"; "new address"];
      suggestedWorkflow := "address-update"; priority := 4 |});
  ("PRODUCT_INQUIRY",
   {| keywords := ["product"; "how to use"; "ingredient"; "recommend";
                   "which patch"];
      suggestedWorkflow := "product-information"; priority := 2 |});
  ("DISCOUNT_REQUEST",
   {| keywords := ["discount"; "coupon"; "code"; "promo"; "deal"];
      suggestedWorkflow := "discount-handling"; priority := 2 |});
  ("GENERAL_INQUIRY",
   {| keywords := ["question"; "help"; "information"; "tell me"];
      suggestedWorkflow := "general-support"; priority := 1 |})
].

(** An [IntentClassification]; its [extractedEntities], which the
    orchestration core never reads, are left out. *)
Record IntentClassification : Type := {
  primary : string;
  secondary : list string;
  confidence : float
}.

Record Scored : Type := {
  category : string;
  score : Z;
  scoredPriority : Z
}.

(** [keyword.split(' ').length]. *)
Definition weight (keyword : string) : Z :=
  Z.of_nat (length (split " " keyword)).

Definition categoryScore (text : string) (keywords : list string) : Z :=
  fold_left
    (fun score keyword =>
       if includes text (toLowerCase keyword) then score + weight keyword else score)
    keywords 0.

(** The comparator of [scores.sort]: negative when [a] goes first. *)
Definition compareScored (a b : Scored) : Z :=
  if negb (score b =? score a) then score b - score a
  else scoredPriority b - scoredPriority a.

(** [Array.prototype.sort] is stable: an element is placed before the
    first one it does not have to follow. *)
Fixpoint insertScored (x : Scored) (l : list Scored) : list Scored :=
  match l with
  | [] => [x]
  | y :: rest =>
      if compareScored x y <=? 0 then x :: y :: rest else y :: insertScored x rest
  end.

Definition sortScored (l : list Scored) : list Scored :=
  fold_right insertScored [] l.

Definition maxScore (keywords : list string) : Z :=
  fold_left (fun sum k => sum + weight k) keywords 0.

Definition lookupCategory (name : string) : option IntentConfig :=
  snd <$> List.find (fun entry => String.eqb (fst entry) name) INTENT_CATEGORIES.

Definition classifyText (text : string) : IntentClassification :=
  let scores :=
    map (fun entry =>
           {| category := fst entry;
              score := categoryScore text (keywords (snd entry));
              scoredPriority := priority (snd entry) |})
        INTENT_CATEGORIES in
  let sorted := sortScored scores in
  let first := default {| category := ""; score := 0; scoredPriority := 0 |}
                 (head sorted) in
  let primary := category first in
  let secondary :=
    map category
      (List.filter (fun s => 0 <? score s) (take 3 (drop 1 sorted))) in
  let max := from_option (fun cfg => maxScore (keywords cfg)) 0
               (lookupCategory primary) in
  {| primary := primary;
     secondary := secondary;
     confidence := if 0 <? max then (ofZ (score first) / ofZ max)%float
                   else 0%float |}.

Definition classifyMessage (message : string) : IntentClassification :=
  classifyText (toLowerCase message).

End Intent.

(* ===================================================================== *)
(** * Orchestrator: routing and escalation *)
(* ===================================================================== *)

Module Orchestrator.

Record AgentConfig : Type := {
  id : string;
  name : string;
  description : string;
  systemPrompt : string;
  tools : list string;
  triggers : list string;
  boundaries : list string;
  escalationConditions : list string
}.

(** A [RoutingRule], its [conditions] flattened. *)
Record RoutingRule : Type := {
  intentId : string;
  targetAgent : string;
  keywords : list string;
  minConfidence : float
}.

Record EscalationConfig : Type := {
  conditions : list string;
  customerMessage : string;
  summaryFields : list string
}.

(** [MASConfig.orchestrator]. *)
Record OrchestratorConfig : Type := {
  agents : list AgentConfig;
  routing : list RoutingRule;
  fallbackAgent : string;
  escalationHandler : EscalationConfig
}.

(** The singletons the orchestrator works on. *)
Record World : Type := {
  store : Memory.MemoryStore;
  tracer : Tracing.Tracer
}.

(** [this.agents]: the agents indexed by id, a later one replacing an earlier
    one of the same id. *)
Definition indexAgents (l : list AgentConfig) : gmap string AgentConfig :=
  fold_left (fun m agent => <[id agent := agent]> m) l ∅.

(** [this.fallbackAgent]: [undefined] when the configuration has no agent. *)
Definition theFallbackAgent (config : OrchestratorConfig) : option AgentConfig :=
  match indexAgents (agents config) !! fallbackAgent config with
  | Some agent => Some agent
  | None => head (agents config)
  end.

Record RoutingResult : Type := {
  rr_targetAgent : AgentConfig;
  rr_intent : Intent.IntentClassification;
  rr_confidence : float
}.

Record EscalationResult : Type := {
  er_escalated : bool;
  er_reason : option string;
  er_customerMessage : option string;
  er_internalSummary : option Value
}.

Definition ESCALATED_MESSAGE : string :=
  "This issue has been escalated to our team. A specialist will respond shortly.".

Definition normalizeIntent (intent : string) : string :=
  replaceUnderscores (toLowerCase intent).

Definition calculateRuleScore (message : string)
    (intent : Intent.IntentClassification) (rule : RoutingRule) : float :=
  let messageLower := toLowerCase message in
  let score :=
    fold_left
      (fun score keyword =>
         if includes messageLower (toLowerCase keyword) then (score + 0.2)%float
         else score)
      (keywords rule) 0%float in
  let score :=
    if String.eqb (normalizeIntent (Intent.primary intent)) (intentId rule)
    then (score + 0.5)%float else score in
  let score :=
    if existsb (fun s => String.eqb (normalizeIntent s) (intentId rule))
         (Intent.secondary intent)
    then (score + 0.2)%float else score in
  Math_min score 1%float.

Definition isRelatedToCurrentAgent (intent : Intent.IntentClassification)
    (agent : AgentConfig) : bool :=
  let intentWords := split "_" (toLowerCase (Intent.primary intent)) in
  existsb
    (fun trigger =>
       let triggerWords := split " " (toLowerCase trigger) in
       existsb (fun w => arrayIncludes triggerWords w) intentWords)
    (triggers agent).

(** One turn of the [for] loop of [route] over the routing rules; the state
    is [(targetAgent, highestScore)]. *)
Definition ruleStep (config : OrchestratorConfig) (message : string)
    (intent : Intent.IntentClassification)
    (acc : option AgentConfig * float) (rule : RoutingRule)
    : option AgentConfig * float :=
  let score := calculateRuleScore message intent rule in
  if PrimFloat.ltb (snd acc) score && PrimFloat.leb (minConfidence rule) score
  then (match indexAgents (agents config) !! targetAgent rule with
        | Some agent => Some agent
        | None => fst acc
        end, score)
  else acc.

Definition selectByRules (config : OrchestratorConfig) (message : string)
    (intent : Intent.IntentClassification) : option AgentConfig * float :=
  fold_left (ruleStep config message intent) (routing config)
    (theFallbackAgent config, 0%float).

(** The continuity override: stay with the current agent of the session when
    the intent is related to it. *)
Definition continuity (config : OrchestratorConfig)
    (intent : Intent.IntentClassification) (session : option Memory.Session)
    (targetAgent : option AgentConfig) : option AgentConfig :=
  match session with
  | Some s =>
      let current := Memory.currentAgent (Memory.context s) in
      if String.eqb current "" then targetAgent
      else match indexAgents (agents config) !! current with
           | Some currentAgent =>
               if isRelatedToCurrentAgent intent currentAgent
               then Some currentAgent else targetAgent
           | None => targetAgent
           end
  | None => targetAgent
  end.

(** [a || b] on numbers. *)
Definition orNumber (a b : float) : float :=
  if PrimFloat.is_zero a || PrimFloat.is_nan a then b else a.

Definition route (config : OrchestratorConfig) (sessionId message : string)
    (now : Z) (w : World) : Result Exn (RoutingResult * World) :=
  let session := Memory.getSession sessionId (store w) in
  let intent := Intent.classifyMessage message in
  let '(selected, highestScore) := selectByRules config message intent in
  match continuity config intent session selected with
  | None =>
      Throw (JsError "TypeError" "Cannot read properties of undefined (reading 'id')")
  | Some targetAgent =>
      let previousAgent :=
        match session with
        | Some s =>
            if String.eqb (Memory.currentAgent (Memory.context s)) "" then "none"
            else Memory.currentAgent (Memory.context s)
        | None => "none"
        end in
      let tracer1 :=
        if String.eqb previousAgent (id targetAgent) then tracer w
        else Tracing.traceRouting sessionId previousAgent (id targetAgent)
               (Intent.primary intent) now (tracer w) in
      bind
        (match session with
         | Some _ =>
             bind (Memory.setCurrentAgent sessionId (id targetAgent) (store w))
               (Memory.recordIntent sessionId (Intent.primary intent))
         | None => Ok (store w)
         end)
        (fun store1 =>
           Ok ({| rr_targetAgent := targetAgent;
                  rr_intent := intent;
                  rr_confidence := orNumber highestScore (Intent.confidence intent) |},
               {| store := store1; tracer := tracer1 |}))
  end.

Definition escalationKeywords : list string :=
  ["human"; "real person"; "manager"; "supervisor"; "live agent"].

Definition escalationTriggers : list string :=
  ["speak to"; "talk to"; "transfer to"; "transfer me"].

Definition hasEscalationKeyword (message : string) : bool :=
  existsb (fun k => includes (toLowerCase message) k) escalationKeywords.

Definition hasEscalationTrigger (message : string) : bool :=
  existsb (fun t => includes (toLowerCase message) t) escalationTriggers.

(** [new Set(intentHistory).size]. *)
Definition uniqueIntents (intentHistory : list string) : nat :=
  size (list_to_set intentHistory : gset string).

(** The callback of [conditions.some]. *)
Definition conditionHolds (session : Memory.Session) (condition : string) : bool :=
  let condLower := toLowerCase condition in
  if includes condLower "cannot determine" &&
     (3 <? length (Memory.intentHistory (Memory.context session)))%nat
  then (3 <=? uniqueIntents (Memory.intentHistory (Memory.context session)))%nat
  else false.

Definition shouldEscalate (config : OrchestratorConfig) (message : string)
    (session : Memory.Session) : bool :=
  (hasEscalationKeyword message || hasEscalationTrigger message) ||
  existsb (conditionHolds session) (conditions (escalationHandler config)).

Definition failedToolCalls (session : Memory.Session) : nat :=
  length (List.filter (fun t => negb (Memory.success (Memory.result t)))
            (Memory.toolCalls session)).

(** The first test of [determineEscalationReason]. *)
Definition explicitRequest (message : string) : bool :=
  let messageLower := toLowerCase message in
  includes messageLower "human" || includes messageLower "speak to" ||
  includes messageLower "real person" || includes messageLower "manager" ||
  includes messageLower "supervisor" || includes messageLower "transfer".

Definition determineEscalationReason (message : string) (session : Memory.Session)
    : string :=
  if explicitRequest message
  then "customer explicitly requested human agent"
  else if (3 <? length (Memory.intentHistory (Memory.context session)))%nat
  then "complex issue requiring multiple intents"
  else if (2 <=? failedToolCalls session)%nat
  then "multiple tool failures during session"
  else "agent cannot safely proceed".

Definition buildEscalationSummary (session : Memory.Session) : Value :=
  VObject [
    ("session_id", VString (Memory.id session));
    ("customer",
     VObject [("email", VString (Memory.customerEmail session));
              ("name", VString (Memory.customerFirstName session +:+ " " +:+
                                Memory.customerLastName session));
              ("shopify_id", VString (Memory.shopifyCustomerId session))]);
    ("issue_type",
     VString (match head (Memory.intentHistory (Memory.context session)) with
              | Some i => if String.eqb i "" then "unknown" else i
              | None => "unknown"
              end));
    ("message_count", VNumber (ofZ (Z.of_nat (length (Memory.messages session)))));
    ("tool_calls",
     VArray (map (fun t => VObject [("tool", VString (Memory.toolHandle t));
                                    ("success", VBool (Memory.success (Memory.result t)))])
               (Memory.toolCalls session)));
    ("mentioned_orders",
     VArray (map VString (Memory.mentionedOrderNumbers (Memory.context session))));
    ("attempted_resolution", VString (Memory.currentAgent (Memory.context session)));
    ("conversation_summary",
     VArray (map (fun m => VObject [("role", VString (Tracing.roleName (Memory.role m)));
                                    ("preview", VString (slice0 100 (Memory.content m)))])
               (lastN 3 (Memory.messages session))))
  ].

Definition notEscalated : EscalationResult :=
  {| er_escalated := false; er_reason := None; er_customerMessage := None;
     er_internalSummary := None |}.

(** [checkEscalation]; the optional [agentResponse] is accepted and never
    read. *)
Definition checkEscalation (config : OrchestratorConfig) (sessionId message : string)
    (agentResponse : option string) (now : Z) (w : World)
    : Result Exn (EscalationResult * World) :=
  match Memory.getSession sessionId (store w) with
  | None => Ok (notEscalated, w)
  | Some session =>
      if Memory.escalated (Memory.context session) then
        Ok ({| er_escalated := true;
               er_reason := Memory.escalationReason (Memory.context session);
               er_customerMessage := Some ESCALATED_MESSAGE;
               er_internalSummary := None |}, w)
      else if shouldEscalate config message session then
        let reason := determineEscalationReason message session in
        let summary := buildEscalationSummary session in
        bind (Memory.escalate sessionId reason summary now (store w))
          (fun store1 =>
             Ok ({| er_escalated := true;
                    er_reason := Some reason;
                    er_customerMessage :=
                      Some (customerMessage (escalationHandler config));
                    er_internalSummary := Some summary |},
                 {| store := store1;
                    tracer := Tracing.traceEscalation sessionId reason summary now
                                (tracer w) |}))
      else Ok (notEscalated, w)
  end.

End Orchestrator.

(* ===================================================================== *)
(** * MASRuntime: one customer message *)
(* ===================================================================== *)

Module Runtime.

Import Orchestrator.

Record MessageResponse : Type := {
  sessionId : string;
  message : string;
  escalated : bool;
  escalationSummary : option Value
}.

(** What [AgentExecutor.execute] returns; the runtime reads its [message]
    only. *)
Record AgentResponse : Type := {
  ar_message : string
}.

(** The components a turn invokes, in order: the ghost record against which
    "is never invoked" is stated. *)
Inductive Invocation : Type :=
| InvokedCheckEscalation
| InvokedRoute
| InvokedExecute (agentId : string).

Record State : Type := {
  world : World;
  invoked : list Invocation
}.

Definition invoke (i : Invocation) (st : State) : State :=
  {| world := world st; invoked := invoked st ++ [i] |}.

Definition setWorld (w : World) (st : State) : State :=
  {| world := w; invoked := invoked st |}.

Section HandleMessage.

Variable config : OrchestratorConfig.

(** [AgentExecutor.execute] of the executor built for an agent: the LLM
    tool-call loop, an opaque capability that may change the store and the
    tracer, and may throw. *)
Variable execute :
  AgentConfig -> string -> string -> World -> Result Exn AgentResponse * World.

(** [handleMessage]; [now] is the clock before the agent runs and [later]
    the clock after. [this.executors] holds one executor per agent id, built
    from the same list of agents as the orchestrator's index. *)
Definition handleMessage (sessionId message : string) (now later : Z) (st : State)
    : Result Exn MessageResponse * State :=
  match Memory.getSession sessionId (store (world st)) with
  | None => (Throw (Memory.sessionNotFound sessionId), st)
  | Some session =>
      if Memory.isEscalated sessionId (store (world st)) then
        (Ok {| sessionId := sessionId;
               message := ESCALATED_MESSAGE;
               escalated := true;
               escalationSummary := Memory.escalationSummary (Memory.context session) |},
         st)
      else
        match Memory.addMessage sessionId Memory.Customer message None now
                (store (world st)) with
        | Throw e => (Throw e, st)
        | Ok store1 =>
            let w1 :=
              {| store := store1;
                 tracer := Tracing.traceMessage sessionId Memory.Customer message now
                             (tracer (world st)) |} in
            let st1 := invoke InvokedCheckEscalation (setWorld w1 st) in
            match checkEscalation config sessionId message None now w1 with
            | Throw e => (Throw e, st1)
            | Ok (escalationCheck, w2) =>
                let st2 := setWorld w2 st1 in
                if er_escalated escalationCheck then
                  (Ok {| sessionId := sessionId;
                         message :=
                           match er_customerMessage escalationCheck with
                           | Some m => if String.eqb m "" then "Escalating to our team." else m
                           | None => "Escalating to our team."
                           end;
                         escalated := true;
                         escalationSummary := er_internalSummary escalationCheck |},
                   st2)
                else
                  let st3 := invoke InvokedRoute st2 in
                  match route config sessionId message now w2 with
                  | Throw e => (Throw e, st3)
                  | Ok (routing, w3) =>
                      let st4 := setWorld w3 st3 in
                      let agentId := id (rr_targetAgent routing) in
                      match indexAgents (agents config) !! agentId with
                      | None =>
                          (Throw (JsError "Error" ("No executor for agent: " +:+ agentId)),
                           st4)
                      | Some agent =>
                          let st5 := invoke (InvokedExecute agentId) st4 in
                          match execute agent sessionId message w3 with
                          | (Throw e, w4) => (Throw e, setWorld w4 st5)
                          | (Ok response, w4) =>
                              let st6 :=
                                invoke InvokedCheckEscalation (setWorld w4 st5) in
                              match checkEscalation config sessionId message
                                      (Some (ar_message response)) later w4 with
                              | Throw e => (Throw e, st6)
                              | Ok (postCheck, w5) =>
                                  let st7 := setWorld w5 st6 in
                                  if er_escalated postCheck then
                                    (Ok {| sessionId := sessionId;
                                           message :=
                                             match er_customerMessage postCheck with
                                             | Some m =>
                                                 if String.eqb m "" then ar_message response
                                                 else m
                                             | None => ar_message response
                                             end;
                                           escalated := true;
                                           escalationSummary :=
                                             er_internalSummary postCheck |},
                                     st7)
                                  else
                                    (Ok {| sessionId := sessionId;
                                           message := ar_message response;
                                           escalated := false;
                                           escalationSummary := None |},
                                     st7)
                              end
                          end
                      end
                  end
            end
        end
  end.

(** A conversation: the messages of one session handled one after the
    other, each with its two clock readings. *)
Fixpoint handleMessages (sessionId : string) (turns : list (string * Z * Z))
    (st : State) : list (Result Exn MessageResponse) * State :=
  match turns with
  | [] => ([], st)
  | (message, now, later) :: rest =>
      let '(r, st1) := handleMessage sessionId message now later st in
      let '(rs, st2) := handleMessages sessionId rest st1 in
      (r :: rs, st2)
  end.

End HandleMessage.

End Runtime.

(* ===================================================================== *)
(** * ToolClient: validated, circuit-protected tool calls *)
(* ===================================================================== *)

Module ToolClient.

(** A [ToolParam] and a [ToolDefinition], without the descriptions and the
    output schema, which [execute] does not read. *)
Record ToolParam : Type := {
  name : string;
  type : string;
  required : bool;
  enum : option (list string)
}.

Record ToolDefinition : Type := {
  handle : string;
  endpoint : string;
  params : list ToolParam
}.

Definition SHOPIFY_TOOLS : list ToolDefinition := [
  {| handle := "shopify_add_tags";
     endpoint := "/hackhaton/add_tags";
     params := [{| name := "id"; type := "string"; required := true; enum := None |};
                {| name := "tags"; type := "array"; required := true; enum := None |}] |};
  {| handle := "shopify_cancel_order";
     endpoint := "/hackhaton/cancel_order";
     params := [{| name := "orderId"; type := "string"; required := true; enum := None |};
                {| name := "reason"; type := "string"; required := true; enum := Some ["CUSTOMER"; "DECLINED"; "FRAUD"; "INVENTORY"; "OTHER"; "STAFF"] |};
                {| name := "notifyCustomer"; type := "boolean"; required := true; enum := None |};
                {| name := "restock"; type := "boolean"; required := true; enum := None |};
                {| name := "staffNote"; type := "string"; required := true; enum := None |};
                {| name := "refundMode"; type := "string"; required := true; enum := Some ["ORIGINAL"; "STORE_CREDIT"] |};
                {| name := "storeCredit"; type := "object"; required := true; enum := None |}] |};
  {| handle := "shopify_create_discount_code";
     endpoint := "/hackhaton/create_discount_code";
     params := [{| name := "type"; type := "string"; required := true; enum := None |};
                {| name := "value"; type := "number"; required := true; enum := None |};
                {| name := "duration"; type := "number"; required := true; enum := None |};
                {| name := "productIds"; type := "array"; required := true; enum := None |}] |};
  {| handle := "shopify_create_return";
     endpoint := "/hackhaton/create_return";
     params := [{| name := "orderId"; type := "string"; required := true; enum := None |}] |};
  {| handle := "shopify_create_store_credit";
     endpoint := "/hackhaton/create_store_credit";
     params := [{| name := "id"; type := "string"; required := true; enum := None |};
                {| name := "creditAmount"; type := "object"; required := true; enum := None |};
                {| name := "expiresAt"; type := "string"; required := false; enum := None |}] |};
  {| handle := "shopify_get_collection_recommendations";
     endpoint := "/hackhaton/get_collection_recommendations";
     params := [{| name := "queryKeys"; type := "array"; required := true; enum := None |}] |};
  {| handle := "shopify_get_customer_orders";
     endpoint := "/hackhaton/get_customer_orders";
     params := [{| name := "email"; type := "string"; required := true; enum := None |};
                {| name := "after"; type := "string"; required := true; enum := None |};
                {| name := "limit"; type := "number"; required := true; enum := None |}] |};
  {| handle := "shopify_get_order_details";
     endpoint := "/hackhaton/get_order_details";
     params := [{| name := "orderId"; type := "string"; required := true; enum := None |}] |};
  {| handle := "shopify_get_product_details";
     endpoint := "/hackhaton/get_product_details";
     params := [{| name := "queryType"; type := "string"; required := true; enum := Some ["id"; "name"; "key feature"] |};
                {| name := "queryKey"; type := "string"; required := true; enum := None |}] |};
  {| handle := "shopify_get_product_recommendations";
     endpoint := "/hackhaton/get_product_recommendations";
     params := [{| name := "queryKeys"; type := "array"; required := true; enum := None |}] |};
  {| handle := "shopify_get_related_knowledge_source";
     endpoint := "/hackhaton/get_related_knowledge_source";
     params := [{| name := "question"; type := "string"; required := true; enum := None |};
                {| name := "specificToProductId"; type := "string"; required := true; enum := None |}] |};
  {| handle := "shopify_refund_order";
     endpoint := "/hackhaton/refund_order";
     params := [{| name := "orderId"; type := "string"; required := true; enum := None |};
                {| name := "refundMethod"; type := "string"; required := true; enum := Some ["ORIGINAL_PAYMENT_METHODS"; "STORE_CREDIT"] |}] |};
  {| handle := "shopify_update_order_shipping_address";
     endpoint := "/hackhaton/update_order_shipping_address";
     params := [{| name := "orderId"; type := "string"; required := true; enum := None |};
                {| name := "shippingAddress"; type := "object"; required := true; enum := None |}] |}
].

Definition SKIO_TOOLS : list ToolDefinition := [
  {| handle := "skio_cancel_subscription";
     endpoint := "/hackhaton/cancel-subscription";
     params := [{| name := "subscriptionId"; type := "string"; required := true; enum := None |};
                {| name := "cancellationReasons"; type := "array"; required := true; enum := None |}] |};
  {| handle := "skio_get_subscription_status";
     endpoint := "/hackhaton/get-subscription-status";
     params := [{| name := "email"; type := "string"; required := true; enum := None |}] |};
  {| handle := "skio_pause_subscription";
     endpoint := "/hackhaton/pause-subscription";
     params := [{| name := "subscriptionId"; type := "string"; required := true; enum := None |};
                {| name := "pausedUntil"; type := "string"; required := true; enum := None |}] |};
  {| handle := "skio_skip_next_order_subscription";
     endpoint := "/hackhaton/skip-next-order-subscription";
     params := [{| name := "subscriptionId"; type := "string"; required := true; enum := None |}] |};
  {| handle := "skio_unpause_subscription";
     endpoint := "/hackhaton/unpause-subscription";
     params := [{| name := "subscriptionId"; type := "string"; required := true; enum := None |}] |}
].

Definition ALL_TOOLS : list ToolDefinition := SHOPIFY_TOOLS ++ SKIO_TOOLS.

Definition getToolByHandle (toolHandle : string) : option ToolDefinition :=
  List.find (fun t => String.eqb (handle t) toolHandle) ALL_TOOLS.

(** The tool error codes of [ErrorCode]. *)
Inductive ErrorCode : Type :=
| TOOL_NOT_FOUND
| TOOL_VALIDATION_FAILED
| TOOL_EXECUTION_FAILED
| TOOL_TIMEOUT
| TOOL_RATE_LIMITED
| TOOL_NETWORK_ERROR.

Definition codeOf (c : ErrorCode) : string :=
  match c with
  | TOOL_NOT_FOUND => "E2001"
  | TOOL_VALIDATION_FAILED => "E2002"
  | TOOL_EXECUTION_FAILED => "E2003"
  | TOOL_TIMEOUT => "E2004"
  | TOOL_RATE_LIMITED => "E2005"
  | TOOL_NETWORK_ERROR => "E2006"
  end.

Record ToolCallResult : Type := {
  success : bool;
  data : Value;
  error : option string;
  errorCode : option ErrorCode;
  retryable : option bool;
  suggestion : option string
}.

Record Validation : Type := {
  valid : bool;
  validationError : option string
}.

Definition invalid (message : string) : Validation :=
  {| valid := false; validationError := Some message |}.

(** The [typeof] and [Array.isArray] tests of [validateParams]. *)
Definition typeMismatch (expected : string) (value : Value) : option string :=
  let expects (t : string) := String.eqb expected t in
  if expects "string" && negb (match value with VString _ => true | _ => false end)
  then Some "a string"
  else if expects "number" && negb (match value with VNumber _ => true | _ => false end)
  then Some "a number"
  else if expects "boolean" && negb (match value with VBool _ => true | _ => false end)
  then Some "a boolean"
  else if expects "array" && negb (match value with VArray _ => true | _ => false end)
  then Some "an array"
  else if expects "object" && negb (match value with VObject _ => true | _ => false end)
  then Some "an object"
  else None.

(** [param.enum.includes(value)]: only a string can be a member. *)
Definition enumIncludes (allowed : list string) (value : Value) : bool :=
  match value with
  | VString s => arrayIncludes allowed s
  | _ => false
  end.

(** The body of the [for] loop of [validateParams]: the error it returns
    with, if any. [name in params] is the presence of the key. *)
Definition checkParam (param : ToolParam) (given : gmap string Value)
    : option string :=
  match given !! name param with
  | None =>
      if required param
      then Some ("Missing required parameter: " +:+ name param)
      else None
  | Some value =>
      match typeMismatch (type param) value with
      | Some what => Some ("Parameter " +:+ name param +:+ " must be " +:+ what)
      | None =>
          match enum param with
          | Some allowed =>
              if negb (enumIncludes allowed value)
              then Some ("Parameter " +:+ name param +:+ " must be one of: " +:+
                         join ", " allowed)
              else None
          | None => None
          end
      end
  end.

Fixpoint validateLoop (l : list ToolParam) (given : gmap string Value) : Validation :=
  match l with
  | [] => {| valid := true; validationError := None |}
  | param :: rest =>
      match checkParam param given with
      | Some message => invalid message
      | None => validateLoop rest given
      end
  end.

Definition validateParams (tool : ToolDefinition) (given : gmap string Value)
    : Validation :=
  validateLoop (params tool) given.

(** [getToolSchemas]: one schema per tool of the catalogue, in the order of
    the catalogue. A schema is a function of its tool (name, parameters,
    required parameters), and the tool stands for it here. *)
Definition getToolSchemas : list ToolDefinition := ALL_TOOLS.

Definition getAgentToolSchemas (toolHandles : list string) : list ToolDefinition :=
  List.filter (fun schema => arrayIncludes toolHandles (handle schema)) getToolSchemas.

(** What [execute] does to the outside: it consults and updates the circuit
    of the tool, and it sends requests. *)
Inductive Effect : Type :=
| CircuitConsulted (toolHandle : string)
| Requested (endpoint toolHandle : string) (given : gmap string Value)
| SuccessRecorded (toolHandle : string)
| FailureRecorded (toolHandle : string).

Record Env : Type := {
  breaker : Resilience.CircuitBreaker;
  effects : list Effect
}.

Definition requestsSent (env : Env) : nat :=
  length (List.filter (fun e => match e with Requested _ _ _ => true | _ => false end)
            (effects env)).

Definition failure (message : string) (code : ErrorCode) (retry : bool)
    (hint : option string) : ToolCallResult :=
  {| success := false; data := VUndefined; error := Some message;
     errorCode := Some code; retryable := Some retry; suggestion := hint |}.

Section Execute.

(** [makeRequest]: the HTTP exchange with the tool endpoint, which answers
    with a result or throws; the last argument counts the requests sent
    before this one. *)
Variable makeRequest :
  string -> string -> gmap string Value -> nat -> Result Exn ToolCallResult.

Definition request (tool : ToolDefinition) (toolHandle : string)
    (given : gmap string Value) (env : Env) : Result Exn ToolCallResult * Env :=
  (makeRequest (endpoint tool) toolHandle given (requestsSent env),
   {| breaker := breaker env;
      effects := effects env ++ [Requested (endpoint tool) toolHandle given] |}).

(** The [retryOn] of a tool call: network and timeout errors only. *)
Definition toolRetryOn (err : Exn) : bool :=
  if isError err
  then includes (exnMessage err) "timeout" || includes (exnMessage err) "network"
  else false.

Definition toolRetryConfig : Resilience.PartialRetryConfig := {|
  Resilience.maxAttempts' := Some 2;
  Resilience.initialDelayMs' := Some 500%float;
  Resilience.maxDelayMs' := None;
  Resilience.backoffMultiplier' := None;
  Resilience.retryOn' := Some toolRetryOn
|}.

(** [execute]; [now] is the clock when the circuit is consulted and [later]
    the clock when the outcome is recorded. *)
Definition execute (toolHandle : string) (given : gmap string Value)
    (now later : Z) (env : Env) : ToolCallResult * Env :=
  match getToolByHandle toolHandle with
  | None =>
      (failure ("[" +:+ codeOf TOOL_NOT_FOUND +:+ "] Unknown tool: " +:+ toolHandle)
         TOOL_NOT_FOUND false
         (Some "Check tool handle spelling. Available tools: shopify_*, skio_*"),
       env)
  | Some tool =>
      let validation := validateParams tool given in
      if negb (valid validation) then
        ({| success := false; data := VUndefined;
            error := validationError validation;
            errorCode := Some TOOL_VALIDATION_FAILED;
            retryable := Some true;
            suggestion := Some ("Fix parameter and retry. " +:+
                                default "undefined" (validationError validation)) |},
         env)
      else
        let '(allowed, breaker1) :=
          Resilience.canExecute now toolHandle (breaker env) in
        let env1 := {| breaker := breaker1;
                       effects := effects env ++ [CircuitConsulted toolHandle] |} in
        if negb allowed then
          (failure ("Circuit open: " +:+ toolHandle +:+ " temporarily unavailable")
             TOOL_RATE_LIMITED true
             (Some "Tool is experiencing issues. Wait and retry."),
           env1)
        else
          match Resilience.withRetry (request tool toolHandle given)
                  toolRetryConfig env1 with
          | (Ok response, _, env2) =>
              if success response then
                (response,
                 {| breaker := Resilience.recordSuccess later toolHandle (breaker env2);
                    effects := effects env2 ++ [SuccessRecorded toolHandle] |})
              else
                (response,
                 {| breaker := Resilience.recordFailure later toolHandle (breaker env2);
                    effects := effects env2 ++ [FailureRecorded toolHandle] |})
          | (Throw err, _, env2) =>
              (failure
                 ("[" +:+ codeOf TOOL_NETWORK_ERROR +:+ "] Network error: " +:+
                  (if isError err then exnMessage err else "Unknown error"))
                 TOOL_NETWORK_ERROR true
                 (Some "Check network connectivity and API endpoint."),
               {| breaker := Resilience.recordFailure later toolHandle (breaker env2);
                  effects := effects env2 ++ [FailureRecorded toolHandle] |})
          end
  end.

End Execute.

End ToolClient.

(* ===================================================================== *)
(** * AgentExecutor: the tool-call loop of an agent *)
(* ===================================================================== *)

Module AgentExecutor.

Import Orchestrator.

Inductive LLMRole : Type := system | user | assistant | tool.

(** A tool call the model asks for: [{id, type: 'function', function: {name,
    arguments}}]. *)
Record LLMToolCall : Type := {
  callId : string;
  functionName : string;
  arguments : string
}.

Record LLMMessage : Type := {
  llmRole : LLMRole;
  llmContent : option string;
  tool_call_id : option string;
  tool_calls : option (list LLMToolCall)
}.

(** What [LLMClient.chat] resolves to. *)
Record LLMResponse : Type := {
  content : option string;
  requested : option (list LLMToolCall)
}.

(** An entry of [AgentResponse.toolCalls]; the parameters are what the
    arguments parsed to. *)
Record ExecutedCall : Type := {
  executedTool : string;
  executedParams : Value;
  executedResult : ToolClient.ToolCallResult
}.

Record AgentResponse : Type := {
  message : string;
  toolCalls : list ExecutedCall
}.

Definition APOLOGY : string :=
  "I apologize, but I was unable to process your request.".

(** What [recordToolCall] and [traceToolCall] read of a tool result. *)
Definition toolResult (r : ToolClient.ToolCallResult) : Memory.ToolResult :=
  {| Memory.success := ToolClient.success r;
     Memory.data := ToolClient.data r;
     Memory.error := ToolClient.error r |}.

(** ** Parameters that are no record

    [JSON.parse] gives any JSON value and the executor hands it on untyped,
    to methods written for a record. [name in params] and [params[name]]
    are defined on objects, arrays included; on every other value [in]
    throws a [TypeError]. *)

(** The properties [in] and indexing find: the fields of an object, the
    items and the [length] of an array. *)
Definition properties (params : Value) : option (gmap string Value) :=
  match params with
  | VObject fields => Some (list_to_map fields)
  | VArray items =>
      Some (<["length" := VNumber (ofZ (Z.of_nat (length items)))]>
              (list_to_map (imap (fun i item => (indexText i, item)) items)))
  | _ => None
  end.

Definition typeError (message : string) : Exn := JsError "TypeError" message.

(** The parameter [validateParams] looks for first. *)
Definition firstParam (toolHandle : string) : option ToolClient.ToolParam :=
  match ToolClient.getToolByHandle toolHandle with
  | Some definition => head (ToolClient.params definition)
  | None => None
  end.

Section Executor.

(** The language model: [chat] answers or throws, and may keep state of its
    own. *)
Variable L : Type.
Variable chat :
  list LLMMessage -> list ToolClient.ToolDefinition -> L -> Result Exn LLMResponse * L.

(** [JSON.parse] on the arguments of a tool call: the value they denote
    (an object, an array, a string, a number, a boolean or [null]), or a
    [SyntaxError]; and [JSON.stringify] on a tool result. *)
Variable parse : string -> Result Exn Value.
Variable stringify : ToolClient.ToolCallResult -> string.

(** The text of a value in the message of a [TypeError]. *)
Variable show : Value -> string.

(** The endpoint behind the tool client, and the clock: [clock k] is the
    reading number [k]. *)
Variable makeRequest :
  string -> string -> gmap string Value -> nat -> Result Exn ToolClient.ToolCallResult.
Variable clock : nat -> Z.

(** [buildSystemPrompt]: the text of the system prompt, built from the
    prompt and the boundaries of the agent and from the customer, the caches
    and the mentioned order numbers of the session. *)
Variable buildSystemPrompt : AgentConfig -> Memory.Session -> string.

(** The executor of an agent. [maxToolCalls] bounds [iterations], which
    counts from 0 by 1. *)
Variable agent : AgentConfig.
Variable maxToolCalls : Z.

(** What the executor works on: the singletons (store, tracer, tool client
    with its breaker), the model, the clock readings taken so far, and the
    record of the conversations [chat] was called with. *)
Record ExecState : Type := {
  world : World;
  env : ToolClient.Env;
  llm : L;
  readings : nat;
  chats : list (list LLMMessage)
}.

(** Computations that change the state and may throw; what was done before
    a throw stays done. *)
Definition M (A : Type) : Type := ExecState -> Result Exn A * ExecState.

Definition ret {A} (a : A) : M A := fun st => (Ok a, st).

Definition bindM {A B} (m : M A) (k : A -> M B) : M B :=
  fun st =>
    match m st with
    | (Ok a, st') => k a st'
    | (Throw e, st') => (Throw e, st')
    end.

Notation "'let*' x ':=' m 'in' k" := (bindM m (fun x => k))
  (at level 10, x pattern, m at level 100, k at level 200).

(** [Date.now()]. *)
Definition now : M Z :=
  fun st =>
    (Ok (clock (readings st)),
     {| world := world st; env := env st; llm := llm st;
        readings := Datatypes.S (readings st); chats := chats st |}).

Definition chatM (messages : list LLMMessage) (tools : list ToolClient.ToolDefinition)
    : M LLMResponse :=
  fun st =>
    let '(r, llm') := chat messages tools (llm st) in
    (r, {| world := world st; env := env st; llm := llm';
           readings := readings st; chats := chats st ++ [messages] |}).

Definition parseM (text : string) : M Value :=
  fun st => (parse text, st).

(** What [validateParams] throws. It is reached for a tool of the catalogue
    only, and there the first thing it evaluates is [param.name in params]
    for the first parameter of the tool (behind [param.required &&], or
    else as the condition of the next [if]). *)
Definition validateParamsThrows (toolHandle : string) (params : Value) : option Exn :=
  match properties params with
  | Some _ => None
  | None =>
      match firstParam toolHandle with
      | Some param =>
          Some (typeError ("Cannot use 'in' operator to search for '" +:+
                           ToolClient.name param +:+ "' in " +:+ show params))
      | None => None
      end
  end.

(** [toolClient.execute], with two readings of the clock. [validateParams]
    is called before the circuit is consulted and outside the [try], so
    that what it throws leaves [execute]. A value that is no object gets
    past it for an unknown tool only, which [execute] answers without a look
    at the parameters (a tool without parameters would let it through as
    well, but the catalogue has none). *)
Definition callTool (toolHandle : string) (params : Value)
    : M ToolClient.ToolCallResult :=
  fun st =>
    match validateParamsThrows toolHandle params with
    | Some error => (Throw error, st)
    | None =>
        let '(r, env') :=
          ToolClient.execute makeRequest toolHandle (default ∅ (properties params))
            (clock (readings st)) (clock (Datatypes.S (readings st))) (env st) in
        (Ok r, {| world := world st; env := env'; llm := llm st;
                  readings := Datatypes.S (Datatypes.S (readings st));
                  chats := chats st |})
    end.

Definition onStore (f : Memory.MemoryStore -> Result Exn Memory.MemoryStore) : M unit :=
  fun st =>
    match f (store (world st)) with
    | Ok store' =>
        (Ok tt, {| world := {| store := store'; tracer := tracer (world st) |};
                   env := env st; llm := llm st; readings := readings st;
                   chats := chats st |})
    | Throw e => (Throw e, st)
    end.

Definition onTracer (f : Tracing.Tracer -> Tracing.Tracer) : M unit :=
  fun st =>
    (Ok tt, {| world := {| store := store (world st); tracer := f (tracer (world st)) |};
               env := env st; llm := llm st; readings := readings st;
               chats := chats st |}).

(** [tracer.traceToolCall]: it starts with [Object.keys(params)], which
    throws on [null] (and on [undefined]) before anything is traced. *)
Definition traceToolCallM (sessionId toolHandle : string) (params : Value)
    (result : Memory.ToolResult) (t : Z) : M unit :=
  match params with
  | VNull | VUndefined =>
      fun st => (Throw (typeError "Cannot convert undefined or null to object"), st)
  | _ => onTracer (Tracing.traceToolCall sessionId toolHandle params result t)
  end.

Definition buildMessages (session : Memory.Session) (customerMessage : string)
    : list LLMMessage :=
  [{| llmRole := system; llmContent := Some (buildSystemPrompt agent session);
      tool_call_id := None; tool_calls := None |}] ++
  map (fun msg =>
         {| llmRole := match Memory.role msg with
                       | Memory.Customer => user
                       | _ => assistant
                       end;
            llmContent := Some (Memory.content msg);
            tool_call_id := None; tool_calls := None |})
      (Memory.messages session) ++
  [{| llmRole := user; llmContent := Some customerMessage;
      tool_call_id := None; tool_calls := None |}].

(** The body of the [for] loop over the tool calls of a response. *)
Definition runToolCall (sessionId : string) (toolCall : LLMToolCall)
    (messages : list LLMMessage) (executed : list ExecutedCall)
    : M (list LLMMessage * list ExecutedCall) :=
  let toolHandle := functionName toolCall in
  let* params := parseM (arguments toolCall) in
  let* result := callTool toolHandle params in
  let* t := now in
  let* _ := onStore (Memory.recordToolCall sessionId toolHandle params
                       (toolResult result) t) in
  let* _ := traceToolCallM sessionId toolHandle params (toolResult result) t in
  ret (messages ++
         [{| llmRole := assistant; llmContent := None; tool_call_id := None;
             tool_calls := Some [toolCall] |};
          {| llmRole := tool; llmContent := Some (stringify result);
             tool_call_id := Some (callId toolCall); tool_calls := None |}],
       executed ++
         [{| executedTool := toolHandle; executedParams := params;
             executedResult := result |}]).

Fixpoint runToolCalls (sessionId : string) (calls : list LLMToolCall)
    (messages : list LLMMessage) (executed : list ExecutedCall)
    : M (list LLMMessage * list ExecutedCall) :=
  match calls with
  | [] => ret (messages, executed)
  | toolCall :: rest =>
      let* (messages', executed') := runToolCall sessionId toolCall messages executed in
      runToolCalls sessionId rest messages' executed'
  end.

(** The [while] loop; [fuel] is the number of iterations left before
    [iterations < maxToolCalls] fails. *)
Fixpoint toolLoop (fuel : nat) (sessionId : string)
    (tools : list ToolClient.ToolDefinition) (response : LLMResponse)
    (messages : list LLMMessage) (executed : list ExecutedCall)
    : M (LLMResponse * list ExecutedCall) :=
  match requested response with
  | Some (toolCall :: rest) =>
      match fuel with
      | O => ret (response, executed)
      | Datatypes.S fuel' =>
          let* (messages', executed') :=
            runToolCalls sessionId (toolCall :: rest) messages executed in
          let* response' := chatM messages' tools in
          toolLoop fuel' sessionId tools response' messages' executed'
      end
  | _ => ret (response, executed)
  end.

(** [response.content || '...']. *)
Definition finalMessageOf (response : LLMResponse) : string :=
  match content response with
  | Some text => if String.eqb text "" then APOLOGY else text
  | None => APOLOGY
  end.

Definition execute (sessionId customerMessage : string) : M AgentResponse :=
  fun st =>
    match Memory.getSession sessionId (store (world st)) with
    | None => (Throw (JsError "Error" ("Session not found: " +:+ sessionId)), st)
    | Some session =>
        (let messages := buildMessages session customerMessage in
         let tools := ToolClient.getAgentToolSchemas (tools agent) in
         let* response := chatM messages tools in
         let* (response', executed) :=
           toolLoop (Z.to_nat maxToolCalls) sessionId tools response messages [] in
         let finalMessage := finalMessageOf response' in
         let* t := now in
         let* _ := onStore (Memory.addMessage sessionId Memory.Agent finalMessage None t) in
         let* _ := onTracer (Tracing.traceMessage sessionId Memory.Agent finalMessage t) in
         ret {| message := finalMessage; toolCalls := executed |}) st
    end.

End Executor.

Arguments world {L} _.
Arguments env {L} _.
Arguments llm {L} _.
Arguments readings {L} _.
Arguments chats {L} _.

End AgentExecutor.

(* ===================================================================== *)
(** * Agent generator and builder: from a workflow to a configuration *)
(* ===================================================================== *)

Module Generator.

Import Orchestrator.

Record WorkflowStep : Type := {
  stepId : string;
  stepName : string;
  stepDescription : string;
  triggerCondition : string;
  requiredTools : list string;
  stepBoundaries : list string;
  escalationTriggers : list string;
  successCriteria : list string
}.

Record WorkflowPolicy : Type := {
  policyId : string;
  policyName : string;
  rules : list string;
  exceptions : list string
}.

Record EscalationRules : Type := {
  ruleConditions : list string;
  ruleMessage : string;
  ruleSummary : list string
}.

(** A [WorkflowConfig]; its [toolMappings], which the generator does not
    read, are left out. *)
Record WorkflowConfig : Type := {
  brandName : string;
  version : string;
  workflows : list WorkflowStep;
  policies : list WorkflowPolicy;
  escalationRules : EscalationRules
}.

Record IntentPattern : Type := {
  patternId : string;
  patternName : string;
  examples : list string;
  patternKeywords : list string;
  patternConfidence : float;
  suggestedWorkflow : string
}.

Record BrandContext : Type := {
  brand : string;
  tone : string;
  brandPolicies : list string
}.

Record MemoryConfig : Type := {
  maxTurns : Z;
  persistentFields : list string
}.

Inductive LogLevel : Type := minimal | standard | verbose.

Record TracingConfig : Type := {
  enabled : bool;
  logLevel : LogLevel;
  captureTools : bool;
  captureDecisions : bool
}.

(** A [MASConfig]; [orchestrator.type] is always ['intent-router'] and
    [memory.type] always ['session']. *)
Record MASConfig : Type := {
  masName : string;
  masVersion : string;
  brandContext : BrandContext;
  orchestrator : OrchestratorConfig;
  memory : MemoryConfig;
  tracing : TracingConfig
}.

Section Generate.

(** The texts of the system prompts, built from the workflow. *)
Variable generateSystemPrompt : WorkflowStep -> WorkflowConfig -> string.
Variable generateGeneralAgentPrompt : WorkflowConfig -> string.

Definition generateAgents (workflow : WorkflowConfig) : list AgentConfig :=
  let agents :=
    map (fun step =>
           {| id := stepId step +:+ "-agent";
              name := stepName step;
              description := stepDescription step;
              systemPrompt := generateSystemPrompt step workflow;
              tools := requiredTools step;
              triggers := [triggerCondition step];
              boundaries := stepBoundaries step;
              escalationConditions := escalationTriggers step |})
        (workflows workflow) in
  if negb (existsb (fun a => includes (id a) "general") agents)
  then agents ++
       [{| id := "general-support-agent";
           name := "General Support";
           description := "Handles general inquiries and routes to specialists";
           systemPrompt := generateGeneralAgentPrompt workflow;
           tools := ["shopify_get_related_knowledge_source"; "shopify_get_product_details"];
           triggers := ["general inquiry"; "unclear intent"];
           boundaries := [];
           escalationConditions := ["cannot determine customer need";
                                    "customer frustrated"] |}]
  else agents.

Definition generateRouting (patterns : list IntentPattern) (agents : list AgentConfig)
    : list RoutingRule :=
  map (fun pattern =>
         let matchingAgent :=
           List.find
             (fun a =>
                includes (id a) (suggestedWorkflow pattern) ||
                existsb (fun t => includes (toLowerCase t) (patternName pattern))
                  (triggers a))
             agents in
         {| intentId := patternId pattern;
            targetAgent :=
              match matchingAgent with
              | Some a => if String.eqb (id a) "" then "general-support-agent" else id a
              | None => "general-support-agent"
              end;
            keywords := patternKeywords pattern;
            minConfidence := 0.3%float |})
      patterns.

Definition generateMASConfig (workflow : WorkflowConfig) (patterns : list IntentPattern)
    : MASConfig :=
  let agents := generateAgents workflow in
  let routing := generateRouting patterns agents in
  {| masName := brandName workflow +:+ "-mas";
     masVersion := version workflow;
     brandContext :=
       {| brand := brandName workflow;
          tone := "friendly, professional, empathetic";
          brandPolicies := flat_map rules (policies workflow) |};
     orchestrator :=
       {| agents := agents;
          routing := routing;
          fallbackAgent := "general-support-agent";
          escalationHandler :=
            {| conditions := ruleConditions (escalationRules workflow);
               customerMessage := ruleMessage (escalationRules workflow);
               summaryFields := ruleSummary (escalationRules workflow) |} |};
     memory :=
       {| maxTurns := 50;
          persistentFields := ["customerEmail"; "customerId"; "orderHistory";
                               "subscriptionStatus"] |};
     tracing :=
       {| enabled := true; logLevel := standard; captureTools := true;
          captureDecisions := true |} |}.

End Generate.

(** [validateMASConfig]: the issues found, in order; the configuration is
    valid when there is none. *)
Definition validateMASConfig (config : MASConfig) : bool * list string :=
  let o := orchestrator config in
  let issues :=
    (match agents o with
     | [] => ["No agents defined"]
     | _ => []
     end) ++
    flat_map
      (fun agent =>
         flat_map
           (fun toolHandle =>
              if negb (existsb (fun t => String.eqb (ToolClient.handle t) toolHandle)
                         ToolClient.ALL_TOOLS)
              then ["Unknown tool: " +:+ toolHandle +:+ " in agent " +:+ id agent]
              else [])
           (tools agent))
      (agents o) ++
    (match routing o with
     | [] => ["No routing rules defined"]
     | _ => []
     end) ++
    (match conditions (escalationHandler o) with
     | [] => ["No escalation conditions defined"]
     | _ => []
     end) in
  (match issues with [] => true | _ => false end, issues).

End Generator.

(* ===================================================================== *)
(** * Properties *)
(* ===================================================================== *)

(** ** Retry *)

Module RetryFacts.

Import Resilience.

(** *** [Math.min] on binary64 numbers *)

Lemma SFcompare_refl f : f <> S754_nan -> SFcompare f f = Some Eq.
Proof.
  destruct f as [s|s| |s m e]; intros Hf; try congruence; simpl.
  - reflexivity.
  - now destruct s.
  - rewrite Z.compare_refl, Pos.compare_cont_refl. now destruct s.
Qed.

Lemma SFcompare_antisym f g :
  SFcompare g f = option_map CompOpp (SFcompare f g).
Proof.
  destruct f as [s|s| |s m e], g as [s'|s'| |s' m' e']; simpl; try reflexivity;
    try (destruct s; reflexivity); try (destruct s'; reflexivity);
    try (destruct s, s'; reflexivity).
  assert (PosDef.Pos.compare_cont Eq m m' = CompOpp (PosDef.Pos.compare_cont Eq m' m)) as Hm.
  { change (Pos.compare_cont Eq m m' = CompOpp (Pos.compare_cont Eq m' m)).
    now rewrite Pos.compare_cont_antisym. }
  destruct s, s'; simpl; try reflexivity;
    rewrite (Z.compare_antisym e' e); destruct (e' ?= e)%Z; simpl; try reflexivity;
    rewrite Hm; now destruct (PosDef.Pos.compare_cont Eq m' m).
Qed.

Lemma ltb_not_nan a b :
  PrimFloat.ltb a b = true -> PrimFloat.is_nan a = false /\ PrimFloat.is_nan b = false.
Proof.
  unfold PrimFloat.is_nan. rewrite FloatAxioms.ltb_spec, !FloatAxioms.eqb_spec.
  unfold SFltb, SFeqb. intros H.
  assert (Prim2SF a <> S754_nan /\ Prim2SF b <> S754_nan) as [Ha Hb].
  { destruct (Prim2SF a), (Prim2SF b); simpl in H; split; congruence. }
  now rewrite (SFcompare_refl _ Ha), (SFcompare_refl _ Hb).
Qed.

Lemma ltb_antisym a b : PrimFloat.ltb a b = true -> PrimFloat.ltb b a = false.
Proof.
  rewrite !FloatAxioms.ltb_spec. unfold SFltb.
  rewrite (SFcompare_antisym (Prim2SF a) (Prim2SF b)).
  destruct (SFcompare _ _) as [[]|]; simpl; congruence.
Qed.

Lemma ltb_leb a b : PrimFloat.ltb a b = true -> PrimFloat.leb a b = true.
Proof.
  rewrite FloatAxioms.ltb_spec, FloatAxioms.leb_spec. unfold SFltb, SFleb.
  destruct (SFcompare _ _) as [[]|]; congruence.
Qed.

Lemma leb_refl a : PrimFloat.is_nan a = false -> PrimFloat.leb a a = true.
Proof.
  unfold PrimFloat.is_nan. rewrite FloatAxioms.eqb_spec, FloatAxioms.leb_spec.
  unfold SFeqb, SFleb. destruct (SFcompare _ _) as [[]|]; simpl; congruence.
Qed.

Lemma leb_zero a b :
  PrimFloat.is_zero a = true -> PrimFloat.is_nan b = false ->
  PrimFloat.ltb b a = false -> PrimFloat.leb a b = true.
Proof.
  unfold PrimFloat.is_zero, PrimFloat.is_nan.
  rewrite !FloatAxioms.eqb_spec, FloatAxioms.leb_spec, FloatAxioms.ltb_spec.
  change (Prim2SF 0) with (S754_zero false).
  unfold SFeqb, SFleb, SFltb.
  destruct (Prim2SF a) as [sa|sa| |sa ma ea], (Prim2SF b) as [sb|sb| |sb mb eb];
    simpl; try congruence;
    repeat match goal with |- context [if ?s then _ else _] => destruct s end;
    simpl; try congruence.
Qed.

(** [Math.min] gives the smaller of its arguments, and a number it gives is
    at most the second. *)
Lemma Math_min_first a b : PrimFloat.ltb a b = true -> Math_min a b = a.
Proof.
  intros H. unfold Math_min. destruct (ltb_not_nan a b H) as [-> ->]. simpl.
  now rewrite H.
Qed.

Lemma Math_min_second a b : PrimFloat.ltb b a = true -> Math_min a b = b.
Proof.
  intros H. unfold Math_min. destruct (ltb_not_nan b a H) as [-> ->]. simpl.
  now rewrite (ltb_antisym b a H), H.
Qed.

Lemma Math_min_capped a b :
  PrimFloat.is_nan (Math_min a b) = false -> PrimFloat.leb (Math_min a b) b = true.
Proof.
  unfold Math_min.
  destruct (PrimFloat.is_nan a) eqn:Ha; [simpl; intros H; vm_compute in H; discriminate|].
  destruct (PrimFloat.is_nan b) eqn:Hb; [simpl; intros H; vm_compute in H; discriminate|].
  simpl. intros _.
  destruct (PrimFloat.ltb a b) eqn:Hab; [now apply ltb_leb|].
  destruct (PrimFloat.ltb b a) eqn:Hba; [now apply leb_refl|].
  destruct (PrimFloat.is_zero a) eqn:Hz; simpl; [|now apply leb_refl].
  destruct (PrimFloat.get_sign a); [now apply leb_zero | now apply leb_refl].
Qed.

(** *** The loop *)

Section Retry.
Context {S T : Type}.
Variable fn : S -> Result Exn T * S.
Variable cfg : RetryConfig.

(** The state of the world after [k] calls of [fn] in a row. *)
Fixpoint after (k : nat) (st : S) : S :=
  match k with
  | O => st
  | Datatypes.S k' => after k' (snd (fn st))
  end.

(** [k] delays, each the one before it times the multiplier, capped. *)
Fixpoint backoff (k : nat) (delay : float) : list float :=
  match k with
  | O => []
  | Datatypes.S k' =>
      delay :: backoff k' (Math_min (delay * backoffMultiplier cfg) (maxDelayMs cfg))
  end.

Definition alwaysFailsRetryably : Prop :=
  forall st, exists e, fst (fn st) = Throw e /\ retryOn cfg e = true.

Lemma calls_app (t1 t2 : list RetryEvent) : calls (t1 ++ t2) = (calls t1 + calls t2)%nat.
Proof. unfold calls. now rewrite List.filter_app, length_app. Qed.

Lemma sleeps_app (t1 t2 : list RetryEvent) : sleeps (t1 ++ t2) = sleeps t1 ++ sleeps t2.
Proof.
  induction t1 as [|ev t1 IH]; [reflexivity|].
  destruct ev; simpl; now rewrite IH.
Qed.

(** The loop, entered with [fuel] iterations left of which the last is
    attempt number [maxAttempts]. *)
Lemma retryLoop_always_failing (fuel : nat) :
  alwaysFailsRetryably ->
  forall attempt delay lastError trace st,
    attempt + Z.of_nat fuel = maxAttempts cfg ->
    exists trace',
      retryLoop fn cfg (Datatypes.S fuel) attempt delay lastError trace st
        = (fst (fn (after fuel st)), trace', after (Datatypes.S fuel) st) /\
      calls trace' = (calls trace + Datatypes.S fuel)%nat /\
      sleeps trace' = sleeps trace ++ backoff fuel delay.
Proof.
  intros Hfail. induction fuel as [|fuel IH]; intros attempt delay lastError trace st Hn.
  - destruct (Hfail st) as (e & He & Hr). simpl in *.
    destruct (fn st) as [r st'] eqn:Hfn. simpl in He. subst r.
    assert ((attempt =? maxAttempts cfg) = true) as -> by (apply Z.eqb_eq; lia).
    rewrite orb_true_r. eexists. split; [reflexivity|].
    rewrite calls_app, sleeps_app. simpl. now rewrite app_nil_r.
  - destruct (Hfail st) as (e & He & Hr).
    change (retryLoop fn cfg (Datatypes.S (Datatypes.S fuel)) attempt delay lastError trace st)
      with (match fn st with
            | (Ok v, st') => (Ok v, trace ++ [Called], st')
            | (Throw error, st') =>
                if negb (retryOn cfg error) || (attempt =? maxAttempts cfg)
                then (Throw error, trace ++ [Called], st')
                else retryLoop fn cfg (Datatypes.S fuel) (attempt + 1)
                       (Math_min (delay * backoffMultiplier cfg) (maxDelayMs cfg))
                       error (trace ++ [Called; Slept delay]) st'
            end).
    change (after (Datatypes.S (Datatypes.S fuel)) st)
      with (after (Datatypes.S fuel) (snd (fn st))).
    change (after (Datatypes.S fuel) st) with (after fuel (snd (fn st))).
    destruct (fn st) as [r st'] eqn:Hfn. simpl in He. subst r. simpl snd.
    rewrite Hr. simpl negb.
    assert ((attempt =? maxAttempts cfg) = false) as -> by (apply Z.eqb_neq; lia).
    simpl orb.
    destruct (IH (attempt + 1)
                (Math_min (delay * backoffMultiplier cfg) (maxDelayMs cfg))
                e (trace ++ [Called; Slept delay]) st') as (trace' & Hrun & Hc & Hs);
      [lia|].
    exists trace'. split; [exact Hrun|]. split.
    + rewrite Hc, calls_app. change (calls [Called; Slept delay]) with 1%nat. lia.
    + rewrite Hs, sleeps_app. simpl. now rewrite <- app_assoc.
Qed.

Lemma backoff_length k delay : length (backoff k delay) = k.
Proof. revert delay. induction k as [|k IH]; intros; simpl; [|rewrite IH]; reflexivity. Qed.

Lemma backoff_head k delay : backoff (Datatypes.S k) delay !! 0%nat = Some delay.
Proof. reflexivity. Qed.

Lemma backoff_step k : forall delay i d d',
  backoff k delay !! i = Some d ->
  backoff k delay !! (Datatypes.S i) = Some d' ->
  d' = Math_min (d * backoffMultiplier cfg) (maxDelayMs cfg).
Proof.
  induction k as [|k IH]; intros delay i d d' H1 H2; [discriminate|].
  destruct i as [|i].
  - simpl in H1. injection H1 as <-. simpl in H2.
    destruct k; [discriminate|]. simpl in H2. now injection H2 as <-.
  - simpl in H1, H2. eapply IH; eassumption.
Qed.

(** Two delays in a row: the later one is the earlier one times the
    multiplier where that is below the cap, the cap where that is above it,
    and, as a number, never more than the cap. *)
Lemma backoff_capped k delay i d d' :
  backoff k delay !! i = Some d ->
  backoff k delay !! (Datatypes.S i) = Some d' ->
  (PrimFloat.ltb (d * backoffMultiplier cfg) (maxDelayMs cfg) = true ->
   d' = (d * backoffMultiplier cfg)%float) /\
  (PrimFloat.ltb (maxDelayMs cfg) (d * backoffMultiplier cfg) = true ->
   d' = maxDelayMs cfg) /\
  (PrimFloat.is_nan d' = false -> PrimFloat.leb d' (maxDelayMs cfg) = true).
Proof.
  intros H1 H2. rewrite (backoff_step k delay i d d' H1 H2).
  split; [apply Math_min_first|]. split; [apply Math_min_second | apply Math_min_capped].
Qed.

End Retry.

(** C6. A function that always fails with an error the retry predicate
    accepts is called exactly [maxAttempts] times; [withRetry] sleeps between
    two calls, first for [initialDelayMs] and then each time for the delay
    before multiplied by [backoffMultiplier] and capped at [maxDelayMs]; and
    what it throws in the end is what the last call threw. Each of the
    five settings is the one the caller gave, or else the default: 3
    attempts, 100 ms, 5000 ms, a factor of 2, and retrying a [MASError] that
    is marked retryable. *)
Theorem withRetry_exhausts_attempts {S T : Type}
    (fn : S -> Result Exn T * S) (config : PartialRetryConfig) (st : S) :
  let attempts := default 3 (maxAttempts' config) in
  let first := default 100%float (initialDelayMs' config) in
  let cap := default 5000%float (maxDelayMs' config) in
  let factor := default 2%float (backoffMultiplier' config) in
  let accepts :=
    default (fun error => match error with
                          | MASError _ _ _ retryable => retryable
                          | _ => false
                          end)
            (retryOn' config) in
  1 <= attempts ->
  (forall st, exists e, fst (fn st) = Throw e /\ accepts e = true) ->
  exists lastError trace,
    withRetry fn config st = (Throw lastError, trace, after fn (Z.to_nat attempts) st) /\
    fst (fn (after fn (Z.to_nat attempts - 1) st)) = Throw lastError /\
    Z.of_nat (calls trace) = attempts /\
    Z.of_nat (length (sleeps trace)) = attempts - 1 /\
    (2 <= attempts -> sleeps trace !! 0%nat = Some first) /\
    (forall i d d',
        sleeps trace !! i = Some d ->
        sleeps trace !! (Datatypes.S i) = Some d' ->
        d' = Math_min (d * factor) cap /\
        (PrimFloat.ltb (d * factor) cap = true -> d' = (d * factor)%float) /\
        (PrimFloat.ltb cap (d * factor) = true -> d' = cap) /\
        (PrimFloat.is_nan d' = false -> PrimFloat.leb d' cap = true)).
Proof.
  intros attempts first cap factor accepts Hmax Hfail.
  set (cfg := mergeRetryConfig config).
  change attempts with (maxAttempts cfg) in *.
  change first with (initialDelayMs cfg).
  change cap with (maxDelayMs cfg).
  change factor with (backoffMultiplier cfg).
  change accepts with (retryOn cfg) in Hfail.
  clear attempts first cap factor accepts.
  destruct (Z.to_nat (maxAttempts cfg)) as [|fuel] eqn:Hfuel; [lia|].
  destruct (retryLoop_always_failing fn cfg fuel Hfail 1 (initialDelayMs cfg)
              (Thrown VUndefined) [] st) as (trace & Hrun & Hc & Hs); [lia|].
  destruct (Hfail (after fn fuel st)) as (e & He & _).
  exists e, trace. unfold withRetry, withRetryCfg. fold cfg. rewrite Hfuel, Hrun.
  replace (Datatypes.S fuel - 1)%nat with fuel by lia.
  rewrite He, Hc, Hs. change (calls []) with 0%nat.
  simpl sleeps. simpl app. rewrite backoff_length.
  split; [reflexivity|]. split; [reflexivity|]. split; [lia|]. split; [lia|].
  split.
  - intros H2. destruct fuel; [lia|]. reflexivity.
  - intros i d d' H1 H2. split; [exact (backoff_step cfg fuel _ i d d' H1 H2)|].
    exact (backoff_capped cfg fuel _ i d d' H1 H2).
Qed.

(** A function that counts its calls and fails each time with a retryable
    network error: under the default configuration, and under one that
    allows five attempts and starts at a second, with a cap of two and a
    half seconds that the third delay reaches. *)
Definition flaky (n : nat) : Result Exn unit * nat :=
  (Throw (MASError "E2006" "Network error: socket hang up" true true), Datatypes.S n).

Definition patientRetry : PartialRetryConfig :=
  {| maxAttempts' := Some 5; initialDelayMs' := Some 1000%float;
     maxDelayMs' := Some 2500%float; backoffMultiplier' := None; retryOn' := None |}.

Lemma withRetry_exhausts_attempts_witness :
  (exists lastError trace,
      withRetry flaky noRetryOverrides 0%nat = (Throw lastError, trace, 3%nat) /\
      lastError = MASError "E2006" "Network error: socket hang up" true true /\
      calls trace = 3%nat /\
      sleeps trace = [100%float; 200%float]) /\
  (exists lastError trace,
      withRetry flaky patientRetry 0%nat = (Throw lastError, trace, 5%nat) /\
      lastError = MASError "E2006" "Network error: socket hang up" true true /\
      calls trace = 5%nat /\
      sleeps trace = [1000%float; 2000%float; 2500%float; 2500%float]).
Proof.
  split.
  - destruct (withRetry_exhausts_attempts flaky noRetryOverrides 0%nat)
      as (lastError & trace & Hrun & _).
    + simpl. lia.
    + intros n. eexists. split; reflexivity.
    + exists lastError, trace. split; [exact Hrun|].
      vm_compute in Hrun. injection Hrun as <- <-. repeat split.
  - destruct (withRetry_exhausts_attempts flaky patientRetry 0%nat)
      as (lastError & trace & Hrun & _).
    + simpl. lia.
    + intros n. eexists. split; reflexivity.
    + exists lastError, trace. split; [exact Hrun|].
      vm_compute in Hrun. injection Hrun as <- <-. repeat split.
Defined.

End RetryFacts.

(** ** Circuit breaker *)

Module CircuitFacts.

Import Resilience.

(** The circuit [getCircuit] hands out for a service. *)
Definition circuitAt (now : Z) (serviceId : string) (cb : CircuitBreaker) : CircuitStats :=
  default {| state := CLOSED; failures := 0; successes := 0; lastFailure := 0;
             lastStateChange := now; recentFailures := [] |}
          (circuits cb !! serviceId).

(** What [recordFailure] and [recordSuccess] do to that circuit. *)
Definition failStep (cfg : CircuitBreakerConfig) (c : CircuitStats) (now : Z)
    : CircuitStats :=
  let recent :=
    List.filter (fun t => now - t <? monitoringWindowMs cfg) (recentFailures c) ++ [now] in
  let opens :=
    match state c with
    | HALF_OPEN => true
    | CLOSED => Z.of_nat (length recent) >=? failureThreshold cfg
    | OPEN => false
    end in
  {| state := match state c with
              | CLOSED => if opens then OPEN else CLOSED
              | _ => OPEN
              end;
     failures := failures c + 1;
     successes := successes c;
     lastFailure := now;
     lastStateChange := if opens then now else lastStateChange c;
     recentFailures := recent |}.

Definition succeedStep (cfg : CircuitBreakerConfig) (c : CircuitStats) (now : Z)
    : CircuitStats :=
  match state c with
  | HALF_OPEN =>
      if successes c + 1 >=? successThreshold cfg
      then {| state := CLOSED; failures := 0; successes := successes c + 1;
              lastFailure := lastFailure c; lastStateChange := now;
              recentFailures := recentFailures c |}
      else {| state := HALF_OPEN; failures := failures c;
              successes := successes c + 1; lastFailure := lastFailure c;
              lastStateChange := lastStateChange c;
              recentFailures := recentFailures c |}
  | _ => c
  end.

(** Calls in a row on one service, at the given clock readings. *)
Definition recordFailures (times : list Z) (serviceId : string) (cb : CircuitBreaker)
    : CircuitBreaker :=
  fold_left (fun cb now => recordFailure now serviceId cb) times cb.



Lemma recordFailure_circuit now serviceId cb :
  circuits (recordFailure now serviceId cb) !! serviceId
    = Some (failStep (config cb) (circuitAt now serviceId cb) now) /\
  config (recordFailure now serviceId cb) = config cb.
Proof.
  unfold recordFailure, getCircuit, circuitAt, failStep.
  destruct (circuits cb !! serviceId) as [c|] eqn:Hc; simpl.
  - destruct (state c); simpl;
      try destruct (Z.of_nat _ >=? _); simpl; rewrite lookup_insert_eq; auto.
  - destruct (_ >=? _); simpl; rewrite lookup_insert_eq; auto.
Qed.

Lemma recordSuccess_circuit now serviceId cb :
  circuits (recordSuccess now serviceId cb) !! serviceId
    = Some (succeedStep (config cb) (circuitAt now serviceId cb) now) /\
  config (recordSuccess now serviceId cb) = config cb.
Proof.
  unfold recordSuccess, getCircuit, circuitAt, succeedStep.
  destruct (circuits cb !! serviceId) as [c|] eqn:Hc; simpl.
  - destruct (state c); simpl; try rewrite Hc; auto.
    destruct (_ >=? _); simpl; rewrite lookup_insert_eq; auto.
  - rewrite lookup_insert_eq; auto.
Qed.

Lemma recordFailures_circuit times : forall serviceId cb c,
  circuits cb !! serviceId = Some c ->
  circuits (recordFailures times serviceId cb) !! serviceId
    = Some (fold_left (failStep (config cb)) times c) /\
  config (recordFailures times serviceId cb) = config cb.
Proof.
  induction times as [|t times IH]; intros serviceId cb c Hc; [auto|].
  simpl. destruct (recordFailure_circuit t serviceId cb) as [H1 H2].
  unfold circuitAt in H1. rewrite Hc in H1. simpl in H1.
  destruct (IH serviceId _ _ H1) as [H3 H4]. unfold recordFailures in *.
  rewrite H3, H4, H2. auto.
Qed.


Section Steps.
Variable cfg : CircuitBreakerConfig.



Lemma failSteps_open times : forall c,
  state c = OPEN -> state (fold_left (failStep cfg) times c) = OPEN.
Proof.
  induction times as [|t times IH]; intros c Hc; [exact Hc|].
  simpl. apply IH. unfold failStep. now rewrite Hc.
Qed.









End Steps.

Lemma recordFailures_from_any t times serviceId cb :
  circuits (recordFailures (t :: times) serviceId cb) !! serviceId
    = Some (fold_left (failStep (config cb)) (t :: times) (circuitAt t serviceId cb)) /\
  config (recordFailures (t :: times) serviceId cb) = config cb.
Proof.
  destruct (recordFailure_circuit t serviceId cb) as [H1 H2].
  destruct (recordFailures_circuit times serviceId _ _ H1) as [H3 H4].
  change (recordFailures (t :: times) serviceId cb)
    with (recordFailures times serviceId (recordFailure t serviceId cb)).
  rewrite H3, H4, H2. auto.
Qed.

Lemma canExecute_open now serviceId cb c :
  circuits cb !! serviceId = Some c ->
  state c = OPEN ->
  canExecute now serviceId cb =
    if now - lastStateChange c >=? resetTimeoutMs (config cb)
    then (true,
          setCircuit serviceId
            {| state := HALF_OPEN; failures := failures c; successes := 0;
               lastFailure := lastFailure c; lastStateChange := now;
               recentFailures := recentFailures c |} cb)
    else (false, cb).
Proof.
  intros Hc Hst. unfold canExecute, getCircuit. rewrite Hc, Hst. reflexivity.
Qed.

(** The success counter of a circuit is never negative: it starts at 0 and
    is only ever incremented or reset to 0. *)
Definition countersNonNegative (cb : CircuitBreaker) : Prop :=
  forall serviceId c, circuits cb !! serviceId = Some c -> 0 <= successes c.

Lemma countersNonNegative_new config : countersNonNegative (newCircuitBreaker config).
Proof. intros serviceId c H. simpl in H. rewrite lookup_empty in H. discriminate. Qed.

Lemma countersNonNegative_set serviceId c cb :
  countersNonNegative cb -> 0 <= successes c ->
  countersNonNegative (setCircuit serviceId c cb).
Proof.
  intros Hcb Hc other c'. simpl. rewrite lookup_insert.
  destruct (decide (serviceId = other)); [intros [= <-]; exact Hc | apply Hcb].
Qed.

Lemma countersNonNegative_getCircuit now serviceId cb :
  countersNonNegative cb ->
  0 <= successes (fst (getCircuit now serviceId cb)) /\
  countersNonNegative (snd (getCircuit now serviceId cb)).
Proof.
  intros Hcb. unfold getCircuit.
  destruct (circuits cb !! serviceId) as [c|] eqn:Hc; simpl.
  - split; [now apply (Hcb serviceId) | exact Hcb].
  - split; [lia|]. apply countersNonNegative_set; [exact Hcb | simpl; lia].
Qed.

Lemma countersNonNegative_canExecute now serviceId cb :
  countersNonNegative cb -> countersNonNegative (snd (canExecute now serviceId cb)).
Proof.
  intros Hcb. unfold canExecute.
  destruct (countersNonNegative_getCircuit now serviceId cb Hcb) as [Hc Hcb'].
  destruct (getCircuit now serviceId cb) as [c cb']. simpl in *.
  destruct (state c); simpl; try exact Hcb'.
  destruct (_ >=? _); simpl; [|exact Hcb'].
  apply countersNonNegative_set; [exact Hcb' | simpl; lia].
Qed.

Lemma countersNonNegative_recordSuccess now serviceId cb :
  countersNonNegative cb -> countersNonNegative (recordSuccess now serviceId cb).
Proof.
  intros Hcb. unfold recordSuccess.
  destruct (countersNonNegative_getCircuit now serviceId cb Hcb) as [Hc Hcb'].
  destruct (getCircuit now serviceId cb) as [c cb']. simpl in *.
  destruct (state c); try exact Hcb'.
  destruct (_ >=? _); apply countersNonNegative_set; try exact Hcb'; simpl; lia.
Qed.

Lemma countersNonNegative_recordFailure now serviceId cb :
  countersNonNegative cb -> countersNonNegative (recordFailure now serviceId cb).
Proof.
  intros Hcb. unfold recordFailure.
  destruct (countersNonNegative_getCircuit now serviceId cb Hcb) as [Hc Hcb'].
  destruct (getCircuit now serviceId cb) as [c cb']. simpl in *.
  destruct (state c); try destruct (_ >=? _);
    apply countersNonNegative_set; try exact Hcb'; simpl; lia.
Qed.

(** *** Calls in any order *)


















(** The breaker of the tools, before any call, and one of its services
    through a whole cycle: three failures, a refused call, a probe fifteen
    seconds later, then either a failure or two successes. *)
Definition freshToolBreaker : CircuitBreaker := newCircuitBreaker toolCircuitConfig.

Definition trippedToolBreaker : CircuitBreaker :=
  recordFailures [1000; 2000; 3000] "shopify_get_order_details" freshToolBreaker.





End CircuitFacts.

(** ** MemoryStore *)

Module MemoryFacts.

Import Memory.

Lemma arrayIncludes_In (l : list string) (x : string) :
  arrayIncludes l x = true <-> In x l.
Proof.
  unfold arrayIncludes. rewrite existsb_exists. split.
  - intros (y & Hy & Heq). apply String.eqb_eq in Heq. now subst.
  - intros H. exists x. split; [exact H | apply String.eqb_refl].
Qed.

(** An order number is already on record when it, or its form with a
    leading [#], is in the list. *)
Definition onRecord (mentioned : list string) (m : string) : bool :=
  arrayIncludes mentioned (if startsWith m "#" then m else "#" +:+ m) ||
  arrayIncludes mentioned m.

Lemma recordOrder_cases mentioned m :
  (onRecord mentioned m = true /\ recordOrder mentioned m = mentioned) \/
  (onRecord mentioned m = false /\ ~ In m mentioned /\
   recordOrder mentioned m = mentioned ++ [m]).
Proof.
  unfold recordOrder, onRecord.
  destruct (arrayIncludes mentioned (if startsWith m "#" then m else "#" +:+ m)); simpl;
    [now left|].
  destruct (arrayIncludes mentioned m) eqn:Hm; simpl; [now left|].
  right. split; [reflexivity|]. split; [|reflexivity].
  intros Hin. apply arrayIncludes_In in Hin. congruence.
Qed.

Lemma arrayIncludes_app_l (l extra : list string) x :
  arrayIncludes l x = true -> arrayIncludes (l ++ extra) x = true.
Proof. rewrite !arrayIncludes_In. intros H. apply in_or_app. now left. Qed.

Lemma onRecord_app (mentioned extra : list string) m :
  onRecord mentioned m = true -> onRecord (mentioned ++ extra) m = true.
Proof.
  unfold onRecord. intros H. apply orb_true_iff in H as [H|H];
    apply orb_true_iff; [left|right]; now apply arrayIncludes_app_l.
Qed.

Lemma onRecord_recorded mentioned m : onRecord (recordOrder mentioned m) m = true.
Proof.
  destruct (recordOrder_cases mentioned m) as [[H ->]|(_ & _ & ->)]; [exact H|].
  unfold onRecord. apply orb_true_iff. right. apply arrayIncludes_In, in_or_app.
  right. now left.
Qed.

(** The loop of [extractEntities] only appends, and what it appends are
    matches, in the order they were found. *)
Lemma extract_appends matches : forall mentioned,
  exists added,
    fold_left recordOrder matches mentioned = mentioned ++ added /\
    sublist added matches.
Proof.
  induction matches as [|m matches IH]; intros mentioned.
  - exists []. split; [now rewrite app_nil_r | constructor].
  - simpl. destruct (recordOrder_cases mentioned m) as [[_ ->]|(_ & _ & ->)].
    + destruct (IH mentioned) as (added & -> & Hsub).
      exists added. split; [reflexivity | now apply sublist_cons].
    + destruct (IH (mentioned ++ [m])) as (added & -> & Hsub).
      exists (m :: added). split; [now rewrite <- app_assoc | now apply sublist_skip].
Qed.

Lemma extract_keeps_record matches : forall mentioned m,
  onRecord mentioned m = true ->
  onRecord (fold_left recordOrder matches mentioned) m = true.
Proof.
  intros mentioned m H. destruct (extract_appends matches mentioned) as (added & -> & _).
  now apply onRecord_app.
Qed.

(** After the loop every match is on record. *)
Lemma extract_records_all matches : forall mentioned m,
  In m matches -> onRecord (fold_left recordOrder matches mentioned) m = true.
Proof.
  induction matches as [|x matches IH]; intros mentioned m []; simpl.
  - subst x. apply extract_keeps_record, onRecord_recorded.
  - now apply IH.
Qed.

(** The loop changes nothing when every match is on record. *)
Lemma extract_nothing_new matches : forall mentioned,
  (forall m, In m matches -> onRecord mentioned m = true) ->
  fold_left recordOrder matches mentioned = mentioned.
Proof.
  induction matches as [|x matches IH]; intros mentioned H; [reflexivity|].
  simpl. destruct (recordOrder_cases mentioned x) as [[_ ->]|(Hnew & _)].
  - apply IH. intros m Hm. apply H. now right.
  - rewrite (H x (or_introl eq_refl)) in Hnew. discriminate.
Qed.

Lemma extract_idempotent matches mentioned :
  fold_left recordOrder matches (fold_left recordOrder matches mentioned)
    = fold_left recordOrder matches mentioned.
Proof. apply extract_nothing_new. intros m Hm. now apply extract_records_all. Qed.

Lemma extract_NoDup matches : forall mentioned,
  NoDup mentioned -> NoDup (fold_left recordOrder matches mentioned).
Proof.
  induction matches as [|x matches IH]; intros mentioned Hnd; [exact Hnd|].
  simpl. apply IH. destruct (recordOrder_cases mentioned x) as [[_ ->]|(_ & Hnew & ->)];
    [exact Hnd|].
  apply NoDup_app. split; [exact Hnd|]. split; [|apply NoDup_singleton].
  intros y Hy Hy'. apply list_elem_of_In in Hy, Hy'. destruct Hy' as [<-|[]]. contradiction.
Qed.

(** What [addMessage] leaves in the store for a customer message. *)
Lemma addMessage_customer sessionId content metadata now (store : MemoryStore) s :
  store !! sessionId = Some s ->
  exists s',
    addMessage sessionId Customer content metadata now store
      = Ok (<[sessionId := s']> store) /\
    mentionedOrderNumbers (context s')
      = fold_left recordOrder (orderMatches content) (mentionedOrderNumbers (context s)).
Proof.
  intros Hs. unfold addMessage. rewrite Hs. eexists. split; reflexivity.
Qed.

(** C10. Recording the same customer message a second time adds nothing to
    [mentionedOrderNumbers]; recording it the first time keeps the numbers
    already mentioned where they are and appends the new ones in the order
    the message mentions them; and a list without repetition stays without
    repetition. *)
Theorem extractEntities_idempotent_order_preserving
    (store : MemoryStore) (sessionId content : string)
    (metadata : option Value) (now later : Z) (s : Session) :
  store !! sessionId = Some s ->
  exists store1 store2 s1 s2,
    addMessage sessionId Customer content metadata now store = Ok store1 /\
    addMessage sessionId Customer content metadata later store1 = Ok store2 /\
    store1 !! sessionId = Some s1 /\
    store2 !! sessionId = Some s2 /\
    mentionedOrderNumbers (context s2) = mentionedOrderNumbers (context s1) /\
    (exists added,
        mentionedOrderNumbers (context s1)
          = mentionedOrderNumbers (context s) ++ added /\
        sublist added (orderMatches content)) /\
    (NoDup (mentionedOrderNumbers (context s)) ->
     NoDup (mentionedOrderNumbers (context s1))).
Proof.
  intros Hs.
  destruct (addMessage_customer sessionId content metadata now store s Hs)
    as (s1 & Hadd1 & Hm1).
  assert ((<[sessionId := s1]> store) !! sessionId = Some s1) as Hs1
    by apply lookup_insert_eq.
  destruct (addMessage_customer sessionId content metadata later _ s1 Hs1)
    as (s2 & Hadd2 & Hm2).
  exists (<[sessionId := s1]> store), (<[sessionId := s2]> (<[sessionId := s1]> store)), s1, s2.
  split; [exact Hadd1|]. split; [exact Hadd2|]. split; [exact Hs1|].
  split; [apply lookup_insert_eq|]. split; [|split].
  - rewrite Hm2, Hm1. apply extract_idempotent.
  - rewrite Hm1. apply extract_appends.
  - rewrite Hm1. apply extract_NoDup.
Qed.

(** A session that has mentioned one order, and a message that mentions it
    again among two others. *)
Definition sampleParams : SessionStartParams :=
  {| sp_customerEmail := "ada@example.com"; sp_firstName := "Ada";
     sp_lastName := "Lovelace"; sp_shopifyCustomerId := "cust_42" |}.

Definition sampleStore : MemoryStore :=
  match addMessage "session_1" Customer "Where is my order #1234567?" None 10
          (snd (startSession "session_1" sampleParams 0 ∅)) with
  | Ok store => store
  | Throw _ => ∅
  end.

Lemma extractEntities_idempotent_order_preserving_witness :
  exists store1 store2 s1 s2,
    addMessage "session_1" Customer "Also NP7654321, #1234567 and #NP7654321" None 20
      sampleStore = Ok store1 /\
    addMessage "session_1" Customer "Also NP7654321, #1234567 and #NP7654321" None 30
      store1 = Ok store2 /\
    store1 !! "session_1" = Some s1 /\
    store2 !! "session_1" = Some s2 /\
    mentionedOrderNumbers (context s1) = ["#1234567"; "NP7654321"; "#NP7654321"] /\
    mentionedOrderNumbers (context s2) = mentionedOrderNumbers (context s1).
Proof.
  assert (exists s, sampleStore !! "session_1" = Some s /\
                    mentionedOrderNumbers (context s) = ["#1234567"]) as (s & Hs & Hm)
    by (eexists; split; vm_compute; reflexivity).
  destruct (extractEntities_idempotent_order_preserving sampleStore "session_1"
              "Also NP7654321, #1234567 and #NP7654321" None 20 30 s Hs)
    as (store1 & store2 & s1 & s2 & H1 & H2 & H3 & H4 & Hsame & _).
  exists store1, store2, s1, s2.
  split; [exact H1|]. split; [exact H2|]. split; [exact H3|]. split; [exact H4|].
  split; [|exact Hsame].
  destruct (addMessage_customer "session_1" "Also NP7654321, #1234567 and #NP7654321"
              None 20 sampleStore s Hs) as (s1' & H1' & Hm1).
  rewrite H1' in H1. injection H1 as <-. rewrite lookup_insert_eq in H3.
  injection H3 as <-. rewrite Hm1, Hm. vm_compute. reflexivity.
Defined.

(** C8, as the code has it. On an unknown session id, [addMessage],
    [recordToolCall] and [escalate] throw "Session not found", whereas
    [setCurrentAgent] and [recordIntent] return normally and leave the store
    as it was. *)
Theorem mutators_on_unknown_session (store : MemoryStore) (sessionId : string) :
  store !! sessionId = None ->
  (forall role content metadata now,
      addMessage sessionId role content metadata now store
        = Throw (sessionNotFound sessionId)) /\
  (forall toolHandle params result now,
      recordToolCall sessionId toolHandle params result now store
        = Throw (sessionNotFound sessionId)) /\
  (forall reason summary now,
      escalate sessionId reason summary now store
        = Throw (sessionNotFound sessionId)) /\
  (forall agentId, setCurrentAgent sessionId agentId store = Ok store) /\
  (forall intentId, recordIntent sessionId intentId store = Ok store).
Proof.
  intros Hnone.
  unfold addMessage, recordToolCall, escalate, setCurrentAgent, recordIntent.
  rewrite Hnone. repeat split.
Qed.

Lemma mutators_on_unknown_session_witness :
  (forall role content metadata now,
      addMessage "session_0" role content metadata now sampleStore
        = Throw (sessionNotFound "session_0")) /\
  (forall toolHandle params result now,
      recordToolCall "session_0" toolHandle params result now sampleStore
        = Throw (sessionNotFound "session_0")) /\
  (forall reason summary now,
      escalate "session_0" reason summary now sampleStore
        = Throw (sessionNotFound "session_0")) /\
  (forall agentId, setCurrentAgent "session_0" agentId sampleStore = Ok sampleStore) /\
  (forall intentId, recordIntent "session_0" intentId sampleStore = Ok sampleStore).
Proof.
  apply (mutators_on_unknown_session sampleStore "session_0"). vm_compute. reflexivity.
Defined.

(** C8 as stated fails: two of the five mutators do not fail on an unknown
    session id. *)
Lemma setCurrentAgent_unknown_session_succeeds :
  sampleStore !! "session_0" = None /\
  setCurrentAgent "session_0" "order-tracking-agent" sampleStore = Ok sampleStore /\
  recordIntent "session_0" "ORDER_STATUS" sampleStore = Ok sampleStore /\
  setCurrentAgent "session_0" "order-tracking-agent" sampleStore
    <> Throw (sessionNotFound "session_0").
Proof.
  assert (sampleStore !! "session_0" = None) as Hnone by (vm_compute; reflexivity).
  unfold setCurrentAgent, recordIntent. rewrite Hnone.
  split; [reflexivity|]. split; [reflexivity|]. split; [reflexivity|]. discriminate.
Qed.

(** What [escalate] leaves in the store for a session it finds. *)
Lemma escalate_known (store : MemoryStore) sessionId reason summary now s :
  store !! sessionId = Some s ->
  escalate sessionId reason summary now store
    = Ok (<[sessionId :=
              setLastActivity now
                (setContext
                   (setEscalation true (Some reason) (Some summary) (context s))
                   (setStatus Escalated s))]> store).
Proof. intros Hs. unfold escalate. now rewrite Hs. Qed.

(** C9, as the code has it. Escalating a session that is already escalated
    keeps its status and its flag, replaces the recorded reason and summary
    by the new ones and sets [lastActivity] to the clock; the messages, the
    tool calls, every other field of the context and the identity of the
    session stay as they were. *)
Theorem escalate_again_overwrites (store : MemoryStore) (sessionId reason : string)
    (summary : Value) (now : Z) (s : Session) :
  store !! sessionId = Some s ->
  status s = Escalated ->
  escalated (context s) = true ->
  exists s',
    escalate sessionId reason summary now store = Ok (<[sessionId := s']> store) /\
    status s' = status s /\
    escalated (context s') = escalated (context s) /\
    escalationReason (context s') = Some reason /\
    escalationSummary (context s') = Some summary /\
    lastActivity s' = now /\
    messages s' = messages s /\
    toolCalls s' = toolCalls s /\
    mentionedOrderNumbers (context s') = mentionedOrderNumbers (context s) /\
    intentHistory (context s') = intentHistory (context s) /\
    currentAgent (context s') = currentAgent (context s) /\
    previousAgents (context s') = previousAgents (context s) /\
    mentionedProducts (context s') = mentionedProducts (context s) /\
    orderHistory (context s') = orderHistory (context s) /\
    subscriptionStatus (context s') = subscriptionStatus (context s) /\
    currentOrder (context s') = currentOrder (context s) /\
    id s' = id s /\
    customerId s' = customerId s /\
    customerEmail s' = customerEmail s /\
    customerFirstName s' = customerFirstName s /\
    customerLastName s' = customerLastName s /\
    shopifyCustomerId s' = shopifyCustomerId s /\
    startedAt s' = startedAt s.
Proof.
  intros Hs Hstatus Hflag. unfold escalate. rewrite Hs. eexists.
  split; [reflexivity|]. simpl. rewrite Hstatus, Hflag. repeat split.
Qed.

(** The sample session after the orchestrator has escalated it on the
    customer's request. *)
Definition escalatedStore : MemoryStore :=
  match escalate "session_1" "customer explicitly requested human agent"
          (VObject [("session_id", VString "session_1")]) 40 sampleStore with
  | Ok store => store
  | Throw _ => ∅
  end.

Lemma escalate_again_overwrites_witness :
  exists s s',
    escalatedStore !! "session_1" = Some s /\
    escalate "session_1" "agent cannot safely proceed" VNull 50 escalatedStore
      = Ok (<["session_1" := s']> escalatedStore) /\
    status s' = status s /\
    escalated (context s') = escalated (context s) /\
    escalationReason (context s') = Some "agent cannot safely proceed" /\
    escalationSummary (context s') = Some VNull /\
    lastActivity s' = 50 /\
    messages s' = messages s /\
    toolCalls s' = toolCalls s /\
    mentionedOrderNumbers (context s') = mentionedOrderNumbers (context s) /\
    intentHistory (context s') = intentHistory (context s) /\
    currentAgent (context s') = currentAgent (context s) /\
    previousAgents (context s') = previousAgents (context s) /\
    mentionedProducts (context s') = mentionedProducts (context s) /\
    orderHistory (context s') = orderHistory (context s) /\
    subscriptionStatus (context s') = subscriptionStatus (context s) /\
    currentOrder (context s') = currentOrder (context s).
Proof.
  assert (exists s, escalatedStore !! "session_1" = Some s /\
                    status s = Escalated /\ escalated (context s) = true)
    as (s & Hs & Hstatus & Hflag)
    by (eexists; repeat split; vm_compute; reflexivity).
  destruct (escalate_again_overwrites escalatedStore "session_1"
              "agent cannot safely proceed" VNull 50 s Hs Hstatus Hflag)
    as (s' & H1 & H2 & H3 & H4 & H5 & H6 & H7 & H8 & H9 & H10 & H11 & H12 & H13
        & H14 & H15 & H16 & _).
  exists s, s'. repeat split; assumption.
Defined.

(** C9 as stated fails: a second [escalate] with another reason changes the
    recorded reason and summary. *)
Lemma escalate_again_changes_reason :
  exists s store' s',
    escalatedStore !! "session_1" = Some s /\
    escalated (context s) = true /\
    escalate "session_1" "agent cannot safely proceed" VNull 50 escalatedStore
      = Ok store' /\
    store' !! "session_1" = Some s' /\
    escalationReason (context s) = Some "customer explicitly requested human agent" /\
    escalationReason (context s') = Some "agent cannot safely proceed" /\
    escalationReason (context s') <> escalationReason (context s) /\
    escalationSummary (context s') <> escalationSummary (context s).
Proof.
  destruct (escalatedStore !! "session_1") as [s|] eqn:Hs;
    [|vm_compute in Hs; discriminate].
  eexists s, _, _.
  split; [reflexivity|].
  assert (escalated (context s) = true /\
          escalationReason (context s)
            = Some "customer explicitly requested human agent" /\
          escalationSummary (context s)
            = Some (VObject [("session_id", VString "session_1")])) as (Hf & Hr & Hsum)
    by (vm_compute in Hs; injection Hs as <-; repeat split).
  split; [exact Hf|].
  split; [apply (escalate_known _ _ _ _ _ s Hs)|].
  split; [apply lookup_insert_eq|].
  split; [exact Hr|]. split; [reflexivity|].
  simpl. rewrite Hr, Hsum. split; discriminate.
Qed.

End MemoryFacts.

(** ** Orchestrator *)

Module OrchestratorFacts.

Import Orchestrator.

(** A configuration in the shape the generator produces: two specialists and
    the general agent as fallback, one routing rule per intent, and the
    default escalation rules. The order-status rule asks for a confidence of
    0.8. *)
Definition orderAgent : AgentConfig := {|
  id := "order-tracking-agent";
  name := "Order Tracking";
  description := "Tracks orders and deliveries";
  systemPrompt := "You help customers track their orders.";
  tools := ["shopify_get_order_details"; "shopify_get_customer_orders"];
  triggers := ["order status inquiry"];
  boundaries := [];
  escalationConditions := []
|}.

Definition refundAgent : AgentConfig := {|
  id := "refund-processing-agent";
  name := "Refund Processing";
  description := "Processes refunds";
  systemPrompt := "You help customers with refunds.";
  tools := ["shopify_refund_order"];
  triggers := ["refund request"];
  boundaries := [];
  escalationConditions := []
|}.

Definition generalAgent : AgentConfig := {|
  id := "general-support-agent";
  name := "General Support";
  description := "Handles general inquiries and routes to specialists";
  systemPrompt := "You are the general support agent.";
  tools := ["shopify_get_related_knowledge_source"; "shopify_get_product_details"];
  triggers := ["general inquiry"; "unclear intent"];
  boundaries := [];
  escalationConditions := ["cannot determine customer need"; "customer frustrated"]
|}.

Definition defaultEscalation : EscalationConfig := {|
  conditions := ["customer explicitly requests human";
                 "agent cannot determine correct action";
                 "sensitive financial dispute";
                 "legal or regulatory concern"];
  customerMessage :=
    "I'm escalating this to our team for further review. A specialist will respond shortly.";
  summaryFields := ["issue_type"; "customer_sentiment"; "attempted_resolution";
                    "blocking_reason"]
|}.

Definition sampleConfig : OrchestratorConfig := {|
  agents := [orderAgent; refundAgent; generalAgent];
  routing := [
    {| intentId := "order-status"; targetAgent := "order-tracking-agent";
       keywords := ["where is my order"; "order status"; "status of order";
                    "tracking"; "shipped"; "delivery status"; "when arrive";
                    "what is the status"; "order tracking"; "track my order"];
       minConfidence := 0.8%float |};
    {| intentId := "refund-request"; targetAgent := "refund-processing-agent";
       keywords := ["refund"; "money back"; "get refund"; "want refund";
                    "need refund"; "full refund"];
       minConfidence := 0.3%float |}
  ];
  fallbackAgent := "general-support-agent";
  escalationHandler := defaultEscalation
|}.

(** The same, with escalation rules that never mention an agent that
    "cannot determine" something. *)
Definition terseConfig : OrchestratorConfig := {|
  agents := agents sampleConfig;
  routing := routing sampleConfig;
  fallbackAgent := fallbackAgent sampleConfig;
  escalationHandler := {|
    conditions := ["customer explicitly requests human"; "sensitive financial dispute"];
    customerMessage := customerMessage defaultEscalation;
    summaryFields := summaryFields defaultEscalation
  |}
|}.

Definition unwrap (r : Result Exn Memory.MemoryStore) : Memory.MemoryStore :=
  match r with
  | Ok store => store
  | Throw _ => ∅
  end.

Definition worldOf (store : Memory.MemoryStore) : World :=
  {| store := store; tracer := Tracing.initSession "session_1" ∅ |}.

Definition failedResult : Memory.ToolResult :=
  {| Memory.success := false; Memory.data := VUndefined;
     Memory.error := Some "HTTP 500" |}.

(** The sample session after two tool calls that failed. *)
Definition twoFailuresStore : Memory.MemoryStore :=
  unwrap (Memory.recordToolCall "session_1" "shopify_get_order_details"
            (VObject [("orderId", VString "#1234567")]) failedResult 21
    (unwrap (Memory.recordToolCall "session_1" "shopify_get_order_details"
               (VObject [("orderId", VString "#1234567")]) failedResult 20
       MemoryFacts.sampleStore))).

(** The sample session after the given intents were recorded. *)
Definition withIntents (intents : list string) : Memory.MemoryStore :=
  fold_left (fun store intent => unwrap (Memory.recordIntent "session_1" intent store))
    intents MemoryFacts.sampleStore.

(** *** Escalation *)

Lemma checkEscalation_unfold config sessionId message agentResponse now w s :
  Memory.getSession sessionId (store w) = Some s ->
  Memory.escalated (Memory.context s) = false ->
  checkEscalation config sessionId message agentResponse now w =
    if shouldEscalate config message s then
      bind (Memory.escalate sessionId (determineEscalationReason message s)
              (buildEscalationSummary s) now (store w))
        (fun store1 =>
           Ok ({| er_escalated := true;
                  er_reason := Some (determineEscalationReason message s);
                  er_customerMessage := Some (customerMessage (escalationHandler config));
                  er_internalSummary := Some (buildEscalationSummary s) |},
               {| store := store1;
                  tracer := Tracing.traceEscalation sessionId
                              (determineEscalationReason message s)
                              (buildEscalationSummary s) now (tracer w) |}))
    else Ok (notEscalated, w).
Proof. intros Hs Hflag. unfold checkEscalation. now rewrite Hs, Hflag. Qed.

(** Without a keyword, a trigger phrase, or more than three recorded
    intents, [checkEscalation] does not escalate, whatever the tool calls of
    the session were. *)
Lemma checkEscalation_without_trigger config sessionId message agentResponse now w s :
  Memory.getSession sessionId (store w) = Some s ->
  Memory.escalated (Memory.context s) = false ->
  hasEscalationKeyword message = false ->
  hasEscalationTrigger message = false ->
  (length (Memory.intentHistory (Memory.context s)) <= 3)%nat ->
  checkEscalation config sessionId message agentResponse now w = Ok (notEscalated, w).
Proof.
  intros Hs Hflag Hk Ht Hlen. rewrite (checkEscalation_unfold _ _ _ _ _ _ s Hs Hflag).
  unfold shouldEscalate. rewrite Hk, Ht. simpl.
  assert (existsb (conditionHolds s) (conditions (escalationHandler config)) = false) as ->;
    [|reflexivity].
  apply not_true_is_false. intros H. apply existsb_exists in H as (c & _ & Hc).
  unfold conditionHolds in Hc.
  assert ((3 <? length (Memory.intentHistory (Memory.context s)))%nat = false) as Hlt
    by (apply Nat.ltb_ge; lia).
  rewrite Hlt, andb_false_r in Hc. discriminate.
Qed.

(** C2, on the code. A session with two failed tool calls receives a message
    without any escalation keyword or trigger phrase: [checkEscalation] does
    not escalate, and leaves the session as it was. *)
Theorem checkEscalation_ignores_tool_failures :
  (failedToolCalls <$> Memory.getSession "session_1" twoFailuresStore) = Some 2%nat /\
  hasEscalationKeyword "Any update?" = false /\
  hasEscalationTrigger "Any update?" = false /\
  checkEscalation sampleConfig "session_1" "Any update?" None 60
    (worldOf twoFailuresStore) = Ok (notEscalated, worldOf twoFailuresStore) /\
  Memory.isEscalated "session_1" twoFailuresStore = false.
Proof.
  split; [vm_compute; reflexivity|]. split; [reflexivity|]. split; [reflexivity|].
  split; [|vm_compute; reflexivity].
  destruct (Memory.getSession "session_1" (store (worldOf twoFailuresStore)))
    as [s|] eqn:Hs; [|vm_compute in Hs; discriminate].
  apply (checkEscalation_without_trigger _ _ _ _ _ _ s Hs); try reflexivity.
  - vm_compute in Hs. injection Hs as <-. reflexivity.
  - vm_compute in Hs. injection Hs as <-. vm_compute. lia.
Qed.

(** C3, as the code has it. When the escalation rules of the configuration
    hold a condition that mentions "cannot determine", [checkEscalation] on a
    session with more than three recorded intents, of which at least three
    are distinct, answers [escalated = true] on any message and leaves the
    session escalated; if the session was not escalated before, this is a
    fresh escalation, answered with the configured customer message, whose
    reason is the multi-intent one unless the message asks for a human. *)
Theorem checkEscalation_multi_intent (config : OrchestratorConfig)
    (sessionId message : string) (agentResponse : option string) (now : Z)
    (w : World) (s : Memory.Session) :
  Memory.getSession sessionId (store w) = Some s ->
  (exists condition,
      In condition (conditions (escalationHandler config)) /\
      includes (toLowerCase condition) "cannot determine" = true) ->
  (3 < length (Memory.intentHistory (Memory.context s)))%nat ->
  (3 <= uniqueIntents (Memory.intentHistory (Memory.context s)))%nat ->
  exists result w',
    checkEscalation config sessionId message agentResponse now w = Ok (result, w') /\
    er_escalated result = true /\
    Memory.isEscalated sessionId (store w') = true /\
    (Memory.escalated (Memory.context s) = false ->
     er_customerMessage result = Some (customerMessage (escalationHandler config)) /\
     (explicitRequest message = false ->
      er_reason result = Some "complex issue requiring multiple intents")).
Proof.
  intros Hs (condition & Hin & Hcond) Hlen Huniq.
  destruct (Memory.escalated (Memory.context s)) eqn:Hflag.
  { unfold checkEscalation. rewrite Hs, Hflag. eexists _, _.
    split; [reflexivity|]. split; [reflexivity|]. split; [|discriminate].
    unfold Memory.isEscalated. unfold Memory.getSession in Hs. now rewrite Hs. }
  rewrite (checkEscalation_unfold _ _ _ _ _ _ s Hs Hflag).
  assert (shouldEscalate config message s = true) as ->.
  { unfold shouldEscalate. apply orb_true_iff. right. apply existsb_exists.
    exists condition. split; [exact Hin|]. unfold conditionHolds. rewrite Hcond.
    apply Nat.ltb_lt in Hlen. rewrite Hlen. apply Nat.leb_le in Huniq. exact Huniq. }
  unfold Memory.getSession in Hs. unfold Memory.escalate. rewrite Hs. simpl.
  eexists _, _. split; [reflexivity|]. simpl. split; [reflexivity|]. split.
  - unfold Memory.isEscalated. now rewrite lookup_insert_eq.
  - intros _. split; [reflexivity|]. intros Hexp. unfold determineEscalationReason.
    rewrite Hexp. apply Nat.ltb_lt in Hlen. now rewrite Hlen.
Qed.

Definition fourIntents : list string :=
  ["ORDER_STATUS"; "REFUND_REQUEST"; "ORDER_STATUS"; "SHIPPING_ADDRESS"].

Definition threeIntents : list string :=
  ["ORDER_STATUS"; "REFUND_REQUEST"; "SHIPPING_ADDRESS"].

Lemma checkEscalation_multi_intent_witness :
  exists result w',
    checkEscalation sampleConfig "session_1" "Any update?" None 60
      (worldOf (withIntents fourIntents)) = Ok (result, w') /\
    er_escalated result = true /\
    Memory.isEscalated "session_1" (store w') = true /\
    er_customerMessage result = Some (customerMessage defaultEscalation) /\
    er_reason result = Some "complex issue requiring multiple intents".
Proof.
  destruct (Memory.getSession "session_1" (store (worldOf (withIntents fourIntents))))
    as [s|] eqn:Hs; [|vm_compute in Hs; discriminate].
  assert (Memory.context s
          = Memory.setIntentHistory fourIntents
              (Memory.setMentionedOrderNumbers ["#1234567"]
                 (Memory.context (fst (Memory.startSession "session_1"
                                         MemoryFacts.sampleParams 0 ∅))))) as Hctx
    by (vm_compute in Hs; injection Hs as <-; reflexivity).
  destruct (checkEscalation_multi_intent sampleConfig "session_1" "Any update?" None 60
              (worldOf (withIntents fourIntents)) s Hs)
    as (result & w' & Hrun & Hesc & Hflag & Hfresh).
  - exists "agent cannot determine correct action". split; [|reflexivity].
    simpl. auto.
  - rewrite Hctx. simpl. lia.
  - rewrite Hctx. vm_compute. lia.
  - exists result, w'. split; [exact Hrun|]. split; [exact Hesc|]. split; [exact Hflag|].
    destruct Hfresh as [Hmsg Hreason]; [rewrite Hctx; reflexivity|].
    split; [exact Hmsg | now apply Hreason].
Defined.

(** C3 as stated fails twice over: three distinct intents do not escalate
    when they are all the history holds, and four intents, three of them
    distinct, do not escalate under escalation rules that never mention
    "cannot determine". *)
Lemma three_distinct_intents_not_escalated :
  (uniqueIntents threeIntents = 3%nat /\
   checkEscalation sampleConfig "session_1" "Any update?" None 60
     (worldOf (withIntents threeIntents))
     = Ok (notEscalated, worldOf (withIntents threeIntents))) /\
  (uniqueIntents fourIntents = 3%nat /\
   checkEscalation terseConfig "session_1" "Any update?" None 60
     (worldOf (withIntents fourIntents))
     = Ok (notEscalated, worldOf (withIntents fourIntents))).
Proof. split; split; vm_compute; reflexivity. Qed.

(** *** Routing *)

Section Routing.
Variable config : OrchestratorConfig.
Variables (message : string) (intent : Intent.IntentClassification).

(** A rule qualifies when its score reaches its own minimum confidence. *)
Definition qualifies (rule : RoutingRule) : bool :=
  PrimFloat.leb (minConfidence rule) (calculateRuleScore message intent rule).

(** The agents the rule loop may end on: the fallback agent, or the target
    of a rule that qualifies. *)
Definition fallbackOrQualified (target : option AgentConfig) : Prop :=
  target = theFallbackAgent config \/
  exists rule,
    In rule (routing config) /\
    indexAgents (agents config) !! targetAgent rule = target /\
    target <> None /\
    qualifies rule = true.

Lemma ruleStep_invariant acc rule :
  In rule (routing config) ->
  fallbackOrQualified (fst acc) ->
  fallbackOrQualified (fst (ruleStep config message intent acc rule)).
Proof.
  intros Hin Hacc. unfold ruleStep.
  destruct (PrimFloat.ltb _ _ && PrimFloat.leb _ _) eqn:Hcond; [|exact Hacc].
  apply andb_true_iff in Hcond as [_ Hq]. simpl.
  destruct (indexAgents (agents config) !! targetAgent rule) as [agent|] eqn:Hagent;
    [|exact Hacc].
  right. exists rule. repeat split; try assumption. discriminate.
Qed.

Lemma rules_invariant rules : forall acc,
  (forall rule, In rule rules -> In rule (routing config)) ->
  fallbackOrQualified (fst acc) ->
  fallbackOrQualified (fst (fold_left (ruleStep config message intent) rules acc)).
Proof.
  induction rules as [|rule rules IH]; intros acc Hsub Hacc; [exact Hacc|].
  simpl. apply IH.
  - intros r Hr. apply Hsub. now right.
  - apply ruleStep_invariant; [apply Hsub; now left | exact Hacc].
Qed.

Lemma rules_none_qualifies rules : forall acc,
  (forall rule, In rule rules -> qualifies rule = false) ->
  fold_left (ruleStep config message intent) rules acc = acc.
Proof.
  induction rules as [|rule rules IH]; intros acc Hnone; [reflexivity|].
  simpl. unfold ruleStep at 2. fold (qualifies rule).
  rewrite (Hnone rule (or_introl eq_refl)), andb_false_r.
  apply IH. intros r Hr. apply Hnone. now right.
Qed.

Lemma selectByRules_qualified :
  fallbackOrQualified (fst (selectByRules config message intent)).
Proof. apply rules_invariant; [auto | now left]. Qed.

Lemma selectByRules_none_qualifies :
  (forall rule, In rule (routing config) -> qualifies rule = false) ->
  selectByRules config message intent = (theFallbackAgent config, 0%float).
Proof. apply rules_none_qualifies. Qed.

(** The continuity override has kept the current agent of the session. *)
Definition keptByContinuity (session : option Memory.Session) (agent : AgentConfig)
    : Prop :=
  exists s,
    session = Some s /\
    Memory.currentAgent (Memory.context s) <> "" /\
    indexAgents (agents config) !! Memory.currentAgent (Memory.context s) = Some agent /\
    isRelatedToCurrentAgent intent agent = true.

Lemma continuity_cases session selected agent :
  continuity config intent session selected = Some agent ->
  selected = Some agent \/ keptByContinuity session agent.
Proof.
  unfold continuity. destruct session as [s|]; [|now left].
  destruct (String.eqb _ "") eqn:Hempty; [now left|].
  destruct (indexAgents _ !! _) as [current|] eqn:Hcurrent; [|now left].
  destruct (isRelatedToCurrentAgent intent current) eqn:Hrel; [|now left].
  intros [= <-]. right. exists s. repeat split; try assumption.
  intros Heq. rewrite Heq in Hempty. discriminate.
Qed.

End Routing.

Lemma setCurrentAgent_returns sessionId agentId (store : Memory.MemoryStore) :
  exists store', Memory.setCurrentAgent sessionId agentId store = Ok store'.
Proof. unfold Memory.setCurrentAgent. destruct (store !! sessionId); eauto. Qed.

Lemma recordIntent_returns sessionId intentId (store : Memory.MemoryStore) :
  exists store', Memory.recordIntent sessionId intentId store = Ok store'.
Proof. unfold Memory.recordIntent. destruct (store !! sessionId); eauto. Qed.

Lemma route_target config sessionId message now w r w' :
  route config sessionId message now w = Ok (r, w') ->
  continuity config (Intent.classifyMessage message)
    (Memory.getSession sessionId (store w))
    (fst (selectByRules config message (Intent.classifyMessage message)))
  = Some (rr_targetAgent r).
Proof.
  unfold route. generalize (Intent.classifyMessage message). intros intent.
  destruct (selectByRules config message intent) as [selected highest].
  simpl fst.
  destruct (continuity _ _ _ selected) as [agent|]; [|discriminate].
  generalize (if String.eqb
                   match Memory.getSession sessionId (store w) with
                   | Some s =>
                       if String.eqb (Memory.currentAgent (Memory.context s)) ""
                       then "none" else Memory.currentAgent (Memory.context s)
                   | None => "none"
                   end (id agent)
              then tracer w
              else Tracing.traceRouting sessionId
                     match Memory.getSession sessionId (store w) with
                     | Some s =>
                         if String.eqb (Memory.currentAgent (Memory.context s)) ""
                         then "none" else Memory.currentAgent (Memory.context s)
                     | None => "none"
                     end (id agent) (Intent.primary intent) now (tracer w)).
  intros tracer1.
  generalize (orNumber highest (Intent.confidence intent)). intros confidence.
  destruct (Memory.getSession sessionId (store w)) as [s|].
  - destruct (setCurrentAgent_returns sessionId (id agent) (store w)) as [store1 ->].
    unfold bind at 2.
    destruct (recordIntent_returns sessionId (Intent.primary intent) store1)
      as [store2 ->].
    unfold bind. intros H. injection H as Hr _. now rewrite <- Hr.
  - unfold bind. intros H. injection H as Hr _. now rewrite <- Hr.
Qed.

(** C4, as the code has it. The agent [route] returns is the fallback
    agent, or the target of a routing rule whose score reaches the rule's
    [minConfidence], or the current agent of the session kept by the
    continuity override. In particular, when no rule reaches its
    [minConfidence], [route] returns the fallback agent unless the
    continuity override keeps the current agent. *)
Theorem route_respects_minConfidence (config : OrchestratorConfig)
    (sessionId message : string) (now : Z) (w w' : World) (r : RoutingResult) :
  route config sessionId message now w = Ok (r, w') ->
  let intent := Intent.classifyMessage message in
  let kept := keptByContinuity config intent (Memory.getSession sessionId (store w))
                (rr_targetAgent r) in
  (Some (rr_targetAgent r) = theFallbackAgent config \/
   (exists rule,
       In rule (routing config) /\
       indexAgents (agents config) !! targetAgent rule = Some (rr_targetAgent r) /\
       PrimFloat.leb (minConfidence rule) (calculateRuleScore message intent rule) = true) \/
   kept) /\
  ((forall rule,
       In rule (routing config) ->
       PrimFloat.leb (minConfidence rule) (calculateRuleScore message intent rule) = false) ->
   Some (rr_targetAgent r) = theFallbackAgent config \/ kept).
Proof.
  intros Hroute intent kept. apply route_target in Hroute. fold intent in Hroute.
  apply continuity_cases in Hroute as [Hsel|Hkept].
  - split.
    + pose proof (selectByRules_qualified config message intent) as Hq.
      rewrite Hsel in Hq. destruct Hq as [Hfb|(rule & Hin & Hagent & _ & Hq)].
      * now left.
      * right. left. exists rule. auto.
    + intros Hnone. left.
      rewrite (selectByRules_none_qualifies config message intent Hnone) in Hsel.
      now symmetry.
  - split; [right|]; now right.
Qed.

(** The sample session asks where its order is and is routed to the order
    agent by the order-status rule; it then asks for the status. *)
Definition routedWorld : World :=
  match route sampleConfig "session_1" "Where is my order? Tracking says shipped" 30
          (worldOf MemoryFacts.sampleStore) with
  | Ok (_, w) => w
  | Throw _ => worldOf ∅
  end.

Lemma route_respects_minConfidence_witness :
  exists r w',
    route sampleConfig "session_1" "Where is my order? Tracking says shipped" 30
      (worldOf MemoryFacts.sampleStore) = Ok (r, w') /\
    rr_targetAgent r = orderAgent /\
    (Some (rr_targetAgent r) = theFallbackAgent sampleConfig \/
     (exists rule,
         In rule (routing sampleConfig) /\
         indexAgents (agents sampleConfig) !! targetAgent rule = Some (rr_targetAgent r) /\
         PrimFloat.leb (minConfidence rule)
           (calculateRuleScore "Where is my order? Tracking says shipped"
              (Intent.classifyMessage "Where is my order? Tracking says shipped") rule)
         = true) \/
     keptByContinuity sampleConfig
       (Intent.classifyMessage "Where is my order? Tracking says shipped")
       (Memory.getSession "session_1" (store (worldOf MemoryFacts.sampleStore)))
       (rr_targetAgent r)).
Proof.
  destruct (route sampleConfig "session_1" "Where is my order? Tracking says shipped" 30
              (worldOf MemoryFacts.sampleStore)) as [[r w']|e] eqn:Hroute;
    [|vm_compute in Hroute; discriminate].
  exists r, w'. split; [reflexivity|]. split.
  - vm_compute in Hroute. injection Hroute as <- _. reflexivity.
  - apply (route_respects_minConfidence _ _ _ _ _ _ _ Hroute).
Defined.

(** C4 as stated fails in its last part: no rule reaches its minimum
    confidence for "What is the status?" (the order-status rule scores 0.7
    against a minimum of 0.8), yet [route] returns the order agent, which the
    session is with, and not the fallback agent. *)
Lemma route_keeps_current_agent_below_minConfidence :
  exists r w',
    route sampleConfig "session_1" "What is the status?" 31 routedWorld = Ok (r, w') /\
    forallb
      (fun rule =>
         negb (PrimFloat.leb (minConfidence rule)
                 (calculateRuleScore "What is the status?"
                    (Intent.classifyMessage "What is the status?") rule)))
      (routing sampleConfig) = true /\
    theFallbackAgent sampleConfig = Some generalAgent /\
    rr_targetAgent r = orderAgent /\
    rr_targetAgent r <> generalAgent.
Proof.
  destruct (route sampleConfig "session_1" "What is the status?" 31 routedWorld)
    as [[r w']|e] eqn:Hroute; [|vm_compute in Hroute; discriminate].
  exists r, w'. split; [reflexivity|].
  split; [vm_compute; reflexivity|]. split; [vm_compute; reflexivity|].
  vm_compute in Hroute. injection Hroute as <- _.
  split; [reflexivity | discriminate].
Qed.

End OrchestratorFacts.

(** ** ToolClient *)

Module ToolClientFacts.

Import Resilience ToolClient.

(** The ways a parameter fails validation: a required parameter is
    missing, a parameter has the wrong primitive type, or a parameter is
    outside its enumeration. *)
Definition violates (param : ToolParam) (given : gmap string Value) : Prop :=
  (required param = true /\ given !! name param = None) \/
  (exists value what,
      given !! name param = Some value /\
      typeMismatch (type param) value = Some what) \/
  (exists value allowed,
      given !! name param = Some value /\
      enum param = Some allowed /\
      enumIncludes allowed value = false).

Lemma violates_checkParam param given :
  violates param given -> exists message, checkParam param given = Some message.
Proof.
  unfold checkParam.
  intros [[Hreq Hnone]|[(value & what & Hv & Hty)|(value & allowed & Hv & Hen & Hinc)]].
  - rewrite Hnone, Hreq. eauto.
  - rewrite Hv, Hty. eauto.
  - rewrite Hv. destruct (typeMismatch (type param) value); [eauto|].
    rewrite Hen, Hinc. simpl. eauto.
Qed.

Lemma validateLoop_violation l : forall param given,
  In param l ->
  violates param given ->
  exists message,
    validateLoop l given = {| valid := false; validationError := Some message |}.
Proof.
  induction l as [|p l IH]; intros param given Hin Hviol; [destruct Hin|].
  simpl. destruct (checkParam p given) as [message|] eqn:Hp.
  - exists message. reflexivity.
  - destruct Hin as [->|Hin]; [|now apply (IH param)].
    apply violates_checkParam in Hviol as [message Hm]. congruence.
Qed.

Section Execute.
Variable makeRequest :
  string -> string -> gmap string Value -> nat -> Result Exn ToolCallResult.

(** C7, as the code has it. For a tool of the catalogue: (1) when a
    parameter fails validation, [execute] returns a failure marked retryable
    with the validation error, and neither consults nor updates the circuit
    of the tool nor sends a request: the environment is the one it was given;
    (2) when the parameters are valid and the circuit of the tool is open
    with less than [resetTimeoutMs] elapsed since it opened, [execute]
    returns the rate-limited failure, the breaker is unchanged and no
    request is sent. *)
Theorem execute_rejects_before_network (toolHandle : string)
    (given : gmap string Value) (now later : Z) (env : Env) (tool : ToolDefinition) :
  getToolByHandle toolHandle = Some tool ->
  ((exists param, In param (params tool) /\ violates param given) ->
   exists message,
     execute makeRequest toolHandle given now later env
       = ({| success := false; data := VUndefined; error := Some message;
             errorCode := Some TOOL_VALIDATION_FAILED; retryable := Some true;
             suggestion := Some ("Fix parameter and retry. " +:+ message) |},
          env)) /\
  (valid (validateParams tool given) = true ->
   forall c,
     circuitOf toolHandle (breaker env) = Some c ->
     state c = OPEN ->
     now - lastStateChange c < resetTimeoutMs (config (breaker env)) ->
     exists env',
       execute makeRequest toolHandle given now later env
         = (failure ("Circuit open: " +:+ toolHandle +:+ " temporarily unavailable")
              TOOL_RATE_LIMITED true
              (Some "Tool is experiencing issues. Wait and retry."),
            env') /\
       breaker env' = breaker env /\
       effects env' = effects env ++ [CircuitConsulted toolHandle] /\
       requestsSent env' = requestsSent env).
Proof.
  intros Htool. unfold execute. rewrite Htool. split.
  - intros (param & Hin & Hviol).
    destruct (validateLoop_violation _ _ _ Hin Hviol) as [message Hv].
    unfold validateParams. rewrite Hv. simpl. now exists message.
  - intros Hvalid c Hc Hst Hnow. rewrite Hvalid. simpl negb. cbv iota.
    rewrite (CircuitFacts.canExecute_open _ _ _ _ Hc Hst).
    assert ((now - lastStateChange c >=? resetTimeoutMs (config (breaker env))) = false)
      as -> by (rewrite Z.geb_leb; apply Z.leb_gt; lia).
    eexists. split; [reflexivity|]. simpl. split; [reflexivity|].
    split; [reflexivity|]. unfold requestsSent. simpl.
    rewrite List.filter_app, length_app. simpl. lia.
Qed.

End Execute.

(** An endpoint that answers every request with a success. *)
Definition alwaysAnswers
    (endpoint toolHandle : string) (given : gmap string Value) (sent : nat)
    : Result Exn ToolCallResult :=
  Ok {| success := true; data := VObject [("status", VString "FULFILLED")];
        error := None; errorCode := None; retryable := None; suggestion := None |}.

(** The tools' breaker with the circuit of [shopify_get_order_details] open
    since clock 3000, and no effect yet. *)
Definition trippedEnv : Env :=
  {| breaker := CircuitFacts.trippedToolBreaker; effects := [] |}.

Definition orderLookup : gmap string Value := {[ "orderId" := VString "#1234567" ]}.

(** A refund request whose [refundMethod] is outside its enumeration. *)
Definition badRefund : gmap string Value :=
  <[ "refundMethod" := VString "CASH" ]> {[ "orderId" := VString "#1234567" ]}.

Lemma execute_rejects_before_network_witness :
  (exists message,
      execute alwaysAnswers "shopify_refund_order" badRefund 10000 10001 trippedEnv
        = ({| success := false; data := VUndefined; error := Some message;
              errorCode := Some TOOL_VALIDATION_FAILED; retryable := Some true;
              suggestion := Some ("Fix parameter and retry. " +:+ message) |},
           trippedEnv)) /\
  (exists env',
      execute alwaysAnswers "shopify_get_order_details" orderLookup 10000 10001 trippedEnv
        = (failure "Circuit open: shopify_get_order_details temporarily unavailable"
             TOOL_RATE_LIMITED true
             (Some "Tool is experiencing issues. Wait and retry."),
           env') /\
      breaker env' = breaker trippedEnv /\
      effects env' = effects trippedEnv ++ [CircuitConsulted "shopify_get_order_details"] /\
      requestsSent env' = requestsSent trippedEnv).
Proof.
  split.
  - destruct (getToolByHandle "shopify_refund_order") as [tool|] eqn:Htool;
      [|vm_compute in Htool; discriminate].
    apply (execute_rejects_before_network alwaysAnswers _ _ _ _ _ tool Htool).
    vm_compute in Htool. injection Htool as <-.
    exists {| name := "refundMethod"; type := "string"; required := true;
              enum := Some ["ORIGINAL_PAYMENT_METHODS"; "STORE_CREDIT"] |}.
    split; [simpl; auto|]. right. right.
    exists (VString "CASH"), ["ORIGINAL_PAYMENT_METHODS"; "STORE_CREDIT"].
    split; [vm_compute; reflexivity|]. split; reflexivity.
  - destruct (getToolByHandle "shopify_get_order_details") as [tool|] eqn:Htool;
      [|vm_compute in Htool; discriminate].
    destruct (circuitOf "shopify_get_order_details" (breaker trippedEnv))
      as [c|] eqn:Hc; [|vm_compute in Hc; discriminate].
    apply (execute_rejects_before_network alwaysAnswers _ _ _ _ _ tool Htool) with (c := c).
    + vm_compute in Htool. injection Htool as <-. vm_compute. reflexivity.
    + exact Hc.
    + vm_compute in Hc. injection Hc as <-. reflexivity.
    + vm_compute in Hc. injection Hc as <-. vm_compute. reflexivity.
Defined.

(** C7 as stated fails in its last part: the circuit of the tool is open,
    but [resetTimeoutMs] has elapsed, so [execute] probes the tool: it sends
    the request and returns its answer. *)
Lemma execute_probes_open_circuit_after_timeout :
  (state <$> circuitOf "shopify_get_order_details" (breaker trippedEnv)) = Some OPEN /\
  requestsSent trippedEnv = 0%nat /\
  exists result env',
    execute alwaysAnswers "shopify_get_order_details" orderLookup 18000 18100 trippedEnv
      = (result, env') /\
    success result = true /\
    requestsSent env' = 1%nat /\
    effects env'
      = [CircuitConsulted "shopify_get_order_details";
         Requested "/hackhaton/get_order_details" "shopify_get_order_details" orderLookup;
         SuccessRecorded "shopify_get_order_details"].
Proof.
  split; [vm_compute; reflexivity|]. split; [reflexivity|].
  destruct (execute alwaysAnswers "shopify_get_order_details" orderLookup 18000 18100
              trippedEnv) as [result env'] eqn:Hrun.
  exists result, env'. split; [reflexivity|].
  vm_compute in Hrun. injection Hrun as <- <-.
  split; [reflexivity|]. split; [vm_compute; reflexivity|]. vm_compute. reflexivity.
Qed.

End ToolClientFacts.

(** ** Runtime *)

Module RuntimeFacts.

Import Orchestrator Runtime.

Section Escalated.
Variable config : OrchestratorConfig.
Variable execute :
  AgentConfig -> string -> string -> World -> Result Exn AgentResponse * World.

(** The reply to every message of an escalated session. *)
Definition escalatedReply (sessionId : string) (s : Memory.Session) : MessageResponse :=
  {| sessionId := sessionId;
     message := ESCALATED_MESSAGE;
     escalated := true;
     escalationSummary := Memory.escalationSummary (Memory.context s) |}.

Lemma handleMessage_escalated sessionId message now later st s :
  Memory.getSession sessionId (store (world st)) = Some s ->
  Memory.escalated (Memory.context s) = true ->
  handleMessage config execute sessionId message now later st
    = (Ok (escalatedReply sessionId s), st).
Proof.
  intros Hs Hflag. unfold handleMessage, Memory.isEscalated.
  rewrite Hs. unfold Memory.getSession in Hs. rewrite Hs, Hflag. reflexivity.
Qed.

(** C1. Once the [escalated] flag of a session is set, every later
    [handleMessage] on it returns the fixed escalation reply with
    [escalated = true] and leaves the state of the runtime as it was: the
    store, the tracer, and the record of invocations, so that neither
    [route] nor any executor ran. *)
Theorem handleMessage_escalated_is_terminal (sessionId : string)
    (turns : list (string * Z * Z)) (st : State) (s : Memory.Session) :
  Memory.getSession sessionId (store (world st)) = Some s ->
  Memory.escalated (Memory.context s) = true ->
  handleMessages config execute sessionId turns st
    = (map (fun _ => Ok (escalatedReply sessionId s)) turns, st) /\
  invoked (snd (handleMessages config execute sessionId turns st)) = invoked st /\
  Forall (fun r => exists reply,
              r = Ok reply /\ escalated reply = true /\ message reply = ESCALATED_MESSAGE)
    (fst (handleMessages config execute sessionId turns st)).
Proof.
  intros Hs Hflag.
  assert (handleMessages config execute sessionId turns st
          = (map (fun _ => Ok (escalatedReply sessionId s)) turns, st)) as Hrun.
  { induction turns as [|[[message now] later] turns IH]; [reflexivity|].
    simpl. rewrite (handleMessage_escalated _ _ _ _ _ s Hs Hflag), IH. reflexivity. }
  rewrite Hrun. split; [reflexivity|]. split; [reflexivity|].
  simpl. apply Forall_forall. intros r Hr. apply list_elem_of_In, in_map_iff in Hr.
  destruct Hr as (turn & <- & _). eexists. split; [reflexivity|]. split; reflexivity.
Qed.

(** An escalation check that answers [escalated = true] leaves the flag
    set. *)
Lemma checkEscalation_sets_flag sessionId message agentResponse now w result w' :
  checkEscalation config sessionId message agentResponse now w = Ok (result, w') ->
  er_escalated result = true ->
  Memory.isEscalated sessionId (store w') = true.
Proof.
  unfold checkEscalation, Memory.getSession, Memory.isEscalated, Memory.escalate.
  destruct (store w !! sessionId) as [s|] eqn:Hs.
  - destruct (Memory.escalated (Memory.context s)) eqn:Hflag.
    + intros [= <- <-] _. now rewrite Hs.
    + destruct (shouldEscalate config message s).
      * simpl. intros [= <- <-] _. simpl. now rewrite lookup_insert_eq.
      * intros [= <- <-]. discriminate.
  - intros [= <- <-]. discriminate.
Qed.

(** X1. A turn that answers [escalated = true] leaves the [escalated] flag
    of the session set, so that every later turn is answered as in C1. *)
Lemma handleMessage_escalation_sets_flag sessionId message now later st reply st' :
  handleMessage config execute sessionId message now later st = (Ok reply, st') ->
  escalated reply = true ->
  Memory.isEscalated sessionId (store (world st')) = true.
Proof.
  unfold handleMessage.
  destruct (Memory.getSession sessionId (store (world st))) as [s|]; [|discriminate].
  destruct (Memory.isEscalated sessionId (store (world st))) eqn:Hflag.
  { intros [= <- <-] _. exact Hflag. }
  destruct (Memory.addMessage _ _ _ _ _ _) as [store1|]; [|discriminate].
  destruct (checkEscalation _ _ _ None _ _) as [[check w2]|] eqn:Hcheck; [|discriminate].
  destruct (er_escalated check) eqn:Hesc.
  { intros [= <- <-] _. simpl. eapply checkEscalation_sets_flag; eassumption. }
  destruct (route _ _ _ _ _) as [[routing w3]|]; [|discriminate].
  destruct (indexAgents _ !! _) as [agent|]; [|discriminate].
  destruct (execute _ _ _ _) as [[response|] w4]; [|discriminate].
  destruct (checkEscalation _ _ _ (Some _) _ _) as [[post w5]|] eqn:Hpost; [|discriminate].
  destruct (er_escalated post) eqn:Hesc'.
  - intros [= <- <-] _. simpl. eapply checkEscalation_sets_flag; eassumption.
  - intros [= <- <-]. discriminate.
Qed.

End Escalated.

(** An executor that answers without touching the world, and the runtime
    state in which the sample session has been escalated. *)
Definition politeExecutor (agent : AgentConfig) (sessionId message : string) (w : World)
    : Result Exn AgentResponse * World :=
  (Ok {| ar_message := "Let me look into that for you." |}, w).

Definition escalatedState : State :=
  {| world := OrchestratorFacts.worldOf MemoryFacts.escalatedStore; invoked := [] |}.

Lemma handleMessage_escalated_is_terminal_witness :
  exists s,
    Memory.getSession "session_1" (store (world escalatedState)) = Some s /\
    handleMessages OrchestratorFacts.sampleConfig politeExecutor "session_1"
      [("Hello?", 60, 61); ("Is anyone there?", 70, 71)] escalatedState
    = ([Ok (escalatedReply "session_1" s); Ok (escalatedReply "session_1" s)],
       escalatedState).
Proof.
  destruct (Memory.getSession "session_1" (store (world escalatedState)))
    as [s|] eqn:Hs; [|vm_compute in Hs; discriminate].
  exists s. split; [reflexivity|].
  apply (handleMessage_escalated_is_terminal OrchestratorFacts.sampleConfig politeExecutor
           "session_1" [("Hello?", 60, 61); ("Is anyone there?", 70, 71)]
           escalatedState s Hs).
  vm_compute in Hs. injection Hs as <-. reflexivity.
Defined.

(** *** Scenarios *)

Definition sampleState : State :=
  {| world := {| store := snd (Memory.startSession "session_1" MemoryFacts.sampleParams 0 ∅);
                 tracer := Tracing.initSession "session_1" ∅ |};
     invoked := [] |}.

Definition routingEvents (sessionId : string) (st : State) : list Tracing.TraceEvent :=
  match tracer (world st) !! sessionId with
  | Some trace =>
      List.filter (fun ev => match Tracing.type ev with
                             | Tracing.routing => true
                             | _ => false
                             end)
        (Tracing.timeline trace)
  | None => []
  end.

(** "Where is my order #1234567?" is classified as an order-status request,
    its order number is extracted, and nothing is escalated; the turn goes
    to the fallback agent, the order-status rule scoring 0.7 against the
    minimum of 0.8 this configuration gives it. *)
Lemma scenario_order_status :
  Intent.primary (Intent.classifyMessage "Where is my order #1234567?") = "ORDER_STATUS" /\
  exists reply st' s,
    handleMessage OrchestratorFacts.sampleConfig politeExecutor "session_1"
      "Where is my order #1234567?" 10 11 sampleState = (Ok reply, st') /\
    escalated reply = false /\
    store (world st') !! "session_1" = Some s /\
    Memory.mentionedOrderNumbers (Memory.context s) = ["#1234567"] /\
    Memory.escalated (Memory.context s) = false /\
    invoked st' = [InvokedCheckEscalation; InvokedRoute;
                   InvokedExecute "general-support-agent"; InvokedCheckEscalation].
Proof.
  split; [vm_compute; reflexivity|].
  destruct (handleMessage OrchestratorFacts.sampleConfig politeExecutor "session_1"
              "Where is my order #1234567?" 10 11 sampleState) as [r st'] eqn:Hrun.
  vm_compute in Hrun. injection Hrun as <- <-.
  eexists _, _, _. split; [reflexivity|]. split; [reflexivity|].
  split; [vm_compute; reflexivity|]. repeat split.
Qed.

(** "I want to cancel my subscription" is classified as a subscription
    cancellation. *)
Lemma scenario_cancel_subscription :
  Intent.primary (Intent.classifyMessage "I want to cancel my subscription")
    = "SUBSCRIPTION_CANCEL".
Proof. vm_compute. reflexivity. Qed.

(** "I want to speak to a human" escalates: the reply is the configured
    acknowledgment and carries a summary with the customer; the follow-up
    "Hello?" gets the fixed escalated reply, and the whole conversation
    invoked the escalation check once and left no routing event. *)
Lemma scenario_speak_to_human :
  exists r1 r2 st' summary,
    handleMessages OrchestratorFacts.sampleConfig politeExecutor "session_1"
      [("I want to speak to a human", 10, 11); ("Hello?", 20, 21)] sampleState
      = ([Ok r1; Ok r2], st') /\
    escalated r1 = true /\
    message r1 = customerMessage OrchestratorFacts.defaultEscalation /\
    escalationSummary r1 = Some summary /\
    getField "customer" summary
      = VObject [("email", VString "ada@example.com");
                 ("name", VString "Ada Lovelace");
                 ("shopify_id", VString "cust_42")] /\
    escalated r2 = true /\
    message r2 = ESCALATED_MESSAGE /\
    invoked st' = [InvokedCheckEscalation] /\
    routingEvents "session_1" st' = [].
Proof.
  destruct (handleMessages OrchestratorFacts.sampleConfig politeExecutor "session_1"
              [("I want to speak to a human", 10, 11); ("Hello?", 20, 21)] sampleState)
    as [rs st'] eqn:Hrun.
  vm_compute in Hrun. injection Hrun as <- <-.
  eexists _, _, _, _. split; [reflexivity|]. split; [reflexivity|].
  split; [vm_compute; reflexivity|]. split; [reflexivity|].
  split; [reflexivity|]. split; [reflexivity|]. split; [vm_compute; reflexivity|].
  split; [reflexivity|]. vm_compute. reflexivity.
Qed.

Lemma handleMessage_escalation_sets_flag_witness :
  exists reply st',
    handleMessage OrchestratorFacts.sampleConfig politeExecutor "session_1"
      "I want to speak to a human" 10 11 sampleState = (Ok reply, st') /\
    escalated reply = true /\
    Memory.isEscalated "session_1" (store (world st')) = true.
Proof.
  destruct (handleMessage OrchestratorFacts.sampleConfig politeExecutor "session_1"
              "I want to speak to a human" 10 11 sampleState) as [[reply|e] st'] eqn:Hrun;
    [|vm_compute in Hrun; discriminate].
  assert (escalated reply = true) as Hesc
    by (vm_compute in Hrun; injection Hrun as <- _; reflexivity).
  exists reply, st'. split; [reflexivity|]. split; [exact Hesc|].
  exact (handleMessage_escalation_sets_flag _ _ _ _ _ _ _ _ _ Hrun Hesc).
Defined.

End RuntimeFacts.

(** ** Rate limiter, fallback chain, confidence, and more on the breaker *)

Module ResilienceFacts.

Import Resilience.

(** *** Rate limiter *)

(** A run of [isAllowed] calls, each with its key and clock reading; the
    granted calls are logged. *)
Definition limiterStep (acc : RateLimiter * list (string * Z)) (call : string * Z)
    : RateLimiter * list (string * Z) :=
  let '(allowed, rl) := isAllowed (snd call) (fst call) (fst acc) in
  (rl, if allowed then snd acc ++ [call] else snd acc).

Definition limiterRun (calls : list (string * Z)) (rl : RateLimiter)
    : RateLimiter * list (string * Z) :=
  fold_left limiterStep calls (rl, []).

(** The clock readings of the granted calls of a key. *)
Definition grantedTo (key : string) (log : list (string * Z)) : list Z :=
  map snd (List.filter (fun call => String.eqb (fst call) key) log).

(** The clock never runs backwards over the calls. *)
Fixpoint ascending (times : list Z) : bool :=
  match times with
  | [] => true
  | t :: rest => forallb (fun u => t <=? u) rest && ascending rest
  end.

Lemma ascending_snoc (l : list Z) (x : Z) :
  ascending (l ++ [x]) = true -> ascending l = true /\ forall y, In y l -> y <= x.
Proof.
  induction l as [|a l IH]; simpl; intros H; [split; [reflexivity | intros y []]|].
  apply andb_true_iff in H as [Hall H]. destruct (IH H) as [Hasc Hle].
  rewrite forallb_app in Hall. apply andb_true_iff in Hall as [Hall Hx].
  split; [now rewrite Hall, Hasc|]. intros y [<-|Hy]; [|now apply Hle].
  simpl in Hx. rewrite andb_true_r in Hx. now apply Z.leb_le.
Qed.

Lemma filter_filter_weaker {A} (f g : A -> bool) (l : list A) :
  (forall x, f x = true -> g x = true) ->
  List.filter f (List.filter g l) = List.filter f l.
Proof.
  intros Himp. induction l as [|x l IH]; [reflexivity|]. simpl.
  destruct (g x) eqn:Hg; simpl.
  - now rewrite IH.
  - destruct (f x) eqn:Hf; [apply Himp in Hf; congruence | exact IH].
Qed.

Lemma limiterStep_config acc call :
  limiterConfig (fst (limiterStep acc call)) = limiterConfig (fst acc).
Proof.
  unfold limiterStep, isAllowed. destruct acc as [rl log]. simpl.
  destruct (_ >=? _); reflexivity.
Qed.

Lemma limiterRun_snoc calls call rl :
  limiterRun (calls ++ [call]) rl = limiterStep (limiterRun calls rl) call.
Proof. unfold limiterRun. now rewrite fold_left_app. Qed.

Lemma limiterRun_config calls : forall rl,
  limiterConfig (fst (limiterRun calls rl)) = limiterConfig rl.
Proof.
  induction calls as [|call calls IH] using rev_ind; intros rl; [reflexivity|].
  now rewrite limiterRun_snoc, limiterStep_config.
Qed.

(** Over a run from a new limiter with a clock that never runs backwards,
    every grant still inside the window of a later clock reading is among
    the timestamps the limiter holds for the key. *)
Lemma limiterRun_holds_grants cfg calls :
  ascending (map snd calls) = true ->
  forall key now,
    (forall t, In t (map snd calls) -> t <= now) ->
    let rl := fst (limiterRun calls (newRateLimiter cfg)) in
    let log := snd (limiterRun calls (newRateLimiter cfg)) in
    length (List.filter (fun u => now - windowMs cfg <? u) (grantedTo key log))
      = length (List.filter (fun u => now - windowMs cfg <? u)
                  (default [] (requests rl !! key))).
Proof.
  induction calls as [|[k t] calls IH] using rev_ind; intros Hasc key now Hnow;
    [reflexivity|].
  rewrite map_app in Hasc. simpl in Hasc.
  apply ascending_snoc in Hasc as [Hasc Hle].
  assert (t <= now) as Ht by (apply Hnow; rewrite map_app; apply in_or_app; right; now left).
  assert (forall u, In u (map snd calls) -> u <= now) as Hnow'
    by (intros u Hu; apply Hnow; rewrite map_app; apply in_or_app; now left).
  specialize (IH Hasc). rewrite limiterRun_snoc.
  pose proof (limiterRun_config calls (newRateLimiter cfg)) as Hcfg.
  destruct (limiterRun calls (newRateLimiter cfg)) as [rl log] eqn:Hrun.
  simpl in IH, Hcfg. unfold limiterStep, isAllowed, inWindow. simpl fst. simpl snd.
  rewrite Hcfg. simpl limiterConfig.
  destruct (_ >=? _); simpl; [now apply IH|].
  unfold grantedTo. rewrite List.filter_app, map_app, List.filter_app, length_app.
  destruct (String.eqb k key) eqn:Hk.
  - apply String.eqb_eq in Hk. subst k. rewrite lookup_insert_eq. simpl default.
    rewrite List.filter_app, length_app.
    rewrite filter_filter_weaker
      by (intros u Hu; apply Z.ltb_lt in Hu; apply Z.ltb_lt; lia).
    f_equal; [now apply IH|]. simpl. now rewrite String.eqb_refl.
  - simpl. rewrite Hk. simpl. rewrite Nat.add_0_r.
    apply String.eqb_neq in Hk. rewrite lookup_insert_ne by exact Hk.
    now apply IH.
Qed.

(** X2. The limiter never grants more than [maxRequests] calls of a key within
    one window: over any run of calls (of any keys) from a new limiter,
    under a clock that never runs backwards, when a call at [now] is granted
    then fewer than [maxRequests] earlier grants of its key are newer than
    [now - windowMs]. *)
Theorem isAllowed_never_exceeds_window (cfg : RateLimiterConfig)
    (calls : list (string * Z)) (key : string) (now : Z) :
  ascending (map snd (calls ++ [(key, now)])) = true ->
  let rl := fst (limiterRun calls (newRateLimiter cfg)) in
  let log := snd (limiterRun calls (newRateLimiter cfg)) in
  fst (isAllowed now key rl) = true ->
  Z.of_nat (length (List.filter (fun u => now - windowMs cfg <? u) (grantedTo key log)))
    < maxRequests cfg.
Proof.
  intros Hasc rl log Hgrant. rewrite map_app in Hasc. simpl in Hasc.
  apply ascending_snoc in Hasc as [Hasc Hle].
  pose proof (limiterRun_holds_grants cfg calls Hasc key now Hle) as Hheld.
  simpl in Hheld. fold rl log in Hheld. rewrite Hheld.
  unfold isAllowed, inWindow in Hgrant.
  pose proof (limiterRun_config calls (newRateLimiter cfg)) as Hcfg. fold rl in Hcfg.
  rewrite Hcfg in Hgrant. simpl limiterConfig in Hgrant.
  destruct (_ >=? _) eqn:Hge; [discriminate|].
  rewrite Z.geb_leb in Hge. apply Z.leb_gt in Hge. exact Hge.
Qed.

(** Three calls of one session and one of another, under a limit of two
    calls a minute. *)
Definition tightLimit : RateLimiterConfig := {| maxRequests := 2; windowMs := 60000 |}.

Definition burst : list (string * Z) :=
  [("session_1", 1000); ("session_2", 1500); ("session_1", 2000); ("session_1", 3000)].

Lemma isAllowed_never_exceeds_window_witness :
  snd (limiterRun burst (newRateLimiter tightLimit))
    = [("session_1", 1000); ("session_2", 1500); ("session_1", 2000)] /\
  fst (isAllowed 61500 "session_1" (fst (limiterRun burst (newRateLimiter tightLimit))))
    = true /\
  Z.of_nat (length (List.filter (fun u => 61500 - windowMs tightLimit <? u)
                      (grantedTo "session_1"
                         (snd (limiterRun burst (newRateLimiter tightLimit))))))
    < maxRequests tightLimit.
Proof.
  split; [vm_compute; reflexivity|].
  assert (fst (isAllowed 61500 "session_1"
                 (fst (limiterRun burst (newRateLimiter tightLimit)))) = true) as Hgrant
    by (vm_compute; reflexivity).
  split; [exact Hgrant|].
  apply (isAllowed_never_exceeds_window tightLimit burst "session_1" 61500);
    [vm_compute; reflexivity | exact Hgrant].
Defined.

(** X3. [getRemaining] tells what [isAllowed] will answer at the same clock
    reading: a call is granted exactly when something remains; and a refused
    call leaves the limiter as it was. *)
Theorem isAllowed_agrees_with_getRemaining (now : Z) (key : string) (rl : RateLimiter) :
  fst (isAllowed now key rl) = (0 <? getRemaining now key rl) /\
  (fst (isAllowed now key rl) = false -> snd (isAllowed now key rl) = rl) /\
  0 <= getRemaining now key rl.
Proof.
  unfold isAllowed, getRemaining.
  destruct (_ >=? _) eqn:Hge; rewrite Z.geb_leb in Hge; simpl.
  - apply Z.leb_le in Hge. split; [symmetry; apply Z.ltb_ge; lia|].
    split; [reflexivity | lia].
  - apply Z.leb_gt in Hge. split; [symmetry; apply Z.ltb_lt; lia|].
    split; [discriminate | lia].
Qed.

(** *** Confidence *)

Lemma leb_nan_r (x : float) : PrimFloat.leb x PrimFloat.nan = false.
Proof.
  rewrite FloatAxioms.leb_spec. change (Prim2SF PrimFloat.nan) with S754_nan.
  unfold SFleb, SFcompare. destruct (Prim2SF x) as [[]| | |[] ? ?]; reflexivity.
Qed.

(** A confidence that is not a number is escalated, whatever the
    thresholds are. *)
Theorem evaluateConfidence_nan_escalates (cfg : ConfidenceConfig) :
  action (evaluateConfidence PrimFloat.nan cfg) = escalate.
Proof. unfold evaluateConfidence. now rewrite !leb_nan_r. Qed.

(** *** Fallback chain *)

Section Chain.
Context {S T : Type}.

Lemma fallbackLoop_success (handlers : list (Handler S T)) :
  forall lastError st result name st',
    fallbackLoop handlers lastError st = (Ok (result, name), st') ->
    exists before handler after lastBefore stBefore e,
      handlers = before ++ handler :: after /\
      fallbackLoop before lastError st = (Throw e, stBefore) /\
      shouldTry handler lastBefore = true /\
      run handler stBefore = (Ok result, st') /\
      handlerName handler = name.
Proof.
  induction handlers as [|h handlers IH]; intros lastError st result name st' Hrun;
    [discriminate|].
  simpl in Hrun. destruct (shouldTry h lastError) eqn:Htry; simpl in Hrun.
  - destruct (run h st) as [[r|err] st1] eqn:Hh.
    + injection Hrun as <- <- <-.
      exists [], h, handlers, lastError, st. eexists.
      split; [reflexivity|]. split; [reflexivity|]. auto.
    + destruct (IH _ _ _ _ _ Hrun)
        as (before & handler & after & lastBefore & stBefore & e & -> & Hb & Ht & Hr & Hn).
      exists (h :: before), handler, after, lastBefore, stBefore, e.
      split; [reflexivity|]. split; [|auto]. simpl. now rewrite Htry, Hh.
  - destruct (IH _ _ _ _ _ Hrun)
      as (before & handler & after & lastBefore & stBefore & e & -> & Hb & Ht & Hr & Hn).
    exists (h :: before), handler, after, lastBefore, stBefore, e.
    split; [reflexivity|]. split; [|auto]. simpl. now rewrite Htry.
Qed.

Lemma fallbackLoop_failure (handlers : list (Handler S T)) :
  forall lastError st e st',
    fallbackLoop handlers lastError st = (Throw e, st') ->
    e = allHandlersFailed \/
    lastError = Some e \/
    exists handler stBefore stAfter,
      In handler handlers /\ run handler stBefore = (Throw e, stAfter).
Proof.
  induction handlers as [|h handlers IH]; intros lastError st e st' Hrun.
  - simpl in Hrun. destruct lastError as [last|]; [|injection Hrun as <- _; now left].
    destruct (truthyExn last); injection Hrun as <- _; [right; now left | now left].
  - simpl in Hrun. destruct (shouldTry h lastError); simpl in Hrun.
    + destruct (run h st) as [[r|err] st1] eqn:Hh; [discriminate|].
      destruct (IH _ _ _ _ Hrun) as [He|[[= ->]|(handler & sb & sa & Hin & Hr)]].
      * now left.
      * right. right. exists h, st, st1. split; [now left | exact Hh].
      * right. right. exists handler, sb, sa. split; [now right | exact Hr].
    + destruct (IH _ _ _ _ Hrun) as [He|[Hl|(handler & sb & sa & Hin & Hr)]]; auto.
      right. right. exists handler, sb, sa. split; [now right | exact Hr].
Qed.

(** X4. [withFallbackChain] returns the result of the first handler, in the
    order of the list, that is tried and succeeds, with its name: the
    handlers before it, run as a chain of their own, all fail or are
    skipped. When it throws, it throws what one of the handlers threw, or
    the error "All fallback handlers failed", which is what an empty chain
    throws. *)
Theorem withFallbackChain_first_success (handlers : list (Handler S T)) (st : S) :
  (forall result name st',
      withFallbackChain handlers st = (Ok (result, name), st') ->
      exists before handler after lastBefore stBefore e,
        handlers = before ++ handler :: after /\
        withFallbackChain before st = (Throw e, stBefore) /\
        shouldTry handler lastBefore = true /\
        run handler stBefore = (Ok result, st') /\
        handlerName handler = name) /\
  (forall e st',
      withFallbackChain handlers st = (Throw e, st') ->
      e = allHandlersFailed \/
      exists handler stBefore stAfter,
        In handler handlers /\ run handler stBefore = (Throw e, stAfter)) /\
  withFallbackChain (@nil (Handler S T)) st = (Throw allHandlersFailed, st).
Proof.
  split; [|split; [|reflexivity]].
  - intros result name st'. apply fallbackLoop_success.
  - intros e st' Hrun. apply fallbackLoop_failure in Hrun as [He|[Hl|Hh]]; auto.
    discriminate.
Qed.

End Chain.

(** A chain of three handlers over a counter of runs: the first fails, the
    second declines to be tried after an error, the third answers. *)
Definition sampleChain : list (Handler nat string) := [
  {| handlerName := "primary";
     run := fun n => (Throw (JsError "Error" "network unreachable"), Datatypes.S n);
     shouldTry := fun _ => true |};
  {| handlerName := "secondary";
     run := fun n => (Ok "fresh answer", Datatypes.S n);
     shouldTry := fun lastError => match lastError with Some _ => false | None => true end |};
  {| handlerName := "cache";
     run := fun n => (Ok "cached answer", Datatypes.S n);
     shouldTry := fun _ => true |}
].

Lemma withFallbackChain_first_success_witness :
  withFallbackChain sampleChain 0%nat = (Ok ("cached answer", "cache"), 2%nat) /\
  exists before handler after lastBefore stBefore e,
    sampleChain = before ++ handler :: after /\
    withFallbackChain before 0%nat = (Throw e, stBefore) /\
    shouldTry handler lastBefore = true /\
    run handler stBefore = (Ok "cached answer", 2%nat) /\
    handlerName handler = "cache".
Proof.
  assert (withFallbackChain sampleChain 0%nat = (Ok ("cached answer", "cache"), 2%nat))
    as Hrun by reflexivity.
  split; [exact Hrun|].
  exact (proj1 (withFallbackChain_first_success sampleChain 0%nat) _ _ _ Hrun).
Defined.

(** *** More on the circuit breaker *)

(** X5. The circuits of two services never influence each other: consulting,
    recording on, or resetting the circuit of one service leaves the circuit
    of every other service as it was. *)
Theorem circuits_are_independent (now : Z) (serviceId other : string)
    (cb : CircuitBreaker) :
  serviceId <> other ->
  circuitOf other (snd (canExecute now serviceId cb)) = circuitOf other cb /\
  circuitOf other (recordSuccess now serviceId cb) = circuitOf other cb /\
  circuitOf other (recordFailure now serviceId cb) = circuitOf other cb /\
  circuitOf other (reset serviceId cb) = circuitOf other cb.
Proof.
  intros Hne. unfold circuitOf, canExecute, recordSuccess, recordFailure, reset, getCircuit.
  destruct (circuits cb !! serviceId) as [c|]; simpl;
    repeat match goal with
           | |- context [match state ?c with _ => _ end] => destruct (state c); simpl
           | |- context [if ?b then _ else _] => destruct b; simpl
           end;
    rewrite ?lookup_insert_ne, ?lookup_delete_ne by exact Hne; auto.
Qed.

Lemma circuits_are_independent_witness :
  circuitOf "shopify_get_order_details"
    (snd (canExecute 18000 "skio_get_subscription_status" CircuitFacts.trippedToolBreaker))
    = circuitOf "shopify_get_order_details" CircuitFacts.trippedToolBreaker /\
  circuitOf "shopify_get_order_details"
    (recordSuccess 18000 "skio_get_subscription_status" CircuitFacts.trippedToolBreaker)
    = circuitOf "shopify_get_order_details" CircuitFacts.trippedToolBreaker /\
  circuitOf "shopify_get_order_details"
    (recordFailure 18000 "skio_get_subscription_status" CircuitFacts.trippedToolBreaker)
    = circuitOf "shopify_get_order_details" CircuitFacts.trippedToolBreaker /\
  circuitOf "shopify_get_order_details"
    (reset "skio_get_subscription_status" CircuitFacts.trippedToolBreaker)
    = circuitOf "shopify_get_order_details" CircuitFacts.trippedToolBreaker.
Proof.
  apply (circuits_are_independent 18000 "skio_get_subscription_status"
           "shopify_get_order_details" CircuitFacts.trippedToolBreaker).
  discriminate.
Defined.

(** X6. Closing a circuit does not forget its recent failures: when the success
    that closes a half-open circuit is followed by a failure, and
    [failureThreshold - 1] of the failures recorded before are still inside
    the monitoring window, that one failure opens the circuit again. *)
Theorem closing_keeps_failure_window (now later : Z) (serviceId : string)
    (cb : CircuitBreaker) (c : CircuitStats) :
  circuitOf serviceId cb = Some c ->
  state c = HALF_OPEN ->
  successThreshold (config cb) <= successes c + 1 ->
  failureThreshold (config cb)
    <= Z.of_nat (length (List.filter
                           (fun t => later - t <? monitoringWindowMs (config cb))
                           (recentFailures c))) + 1 ->
  (exists closed,
      circuitOf serviceId (recordSuccess now serviceId cb) = Some closed /\
      state closed = CLOSED /\
      recentFailures closed = recentFailures c) /\
  (exists reopened,
      circuitOf serviceId
        (recordFailure later serviceId (recordSuccess now serviceId cb)) = Some reopened /\
      state reopened = OPEN).
Proof.
  unfold circuitOf. intros Hc Hst Hsucc Hfail.
  destruct (CircuitFacts.recordSuccess_circuit now serviceId cb) as [H1 Hcfg].
  unfold CircuitFacts.circuitAt in H1. rewrite Hc in H1. simpl in H1.
  unfold CircuitFacts.succeedStep in H1. rewrite Hst in H1.
  assert ((successes c + 1 >=? successThreshold (config cb)) = true) as Hge
    by (rewrite Z.geb_leb; apply Z.leb_le; lia).
  rewrite Hge in H1. split.
  - eexists. split; [exact H1|]. split; reflexivity.
  - destruct (CircuitFacts.recordFailure_circuit later serviceId
                (recordSuccess now serviceId cb)) as [H2 _].
    unfold CircuitFacts.circuitAt in H2. rewrite H1 in H2. simpl in H2.
    eexists. split; [exact H2|]. unfold CircuitFacts.failStep. simpl.
    rewrite Hcfg, length_app. simpl.
    assert ((Z.of_nat
               (length (List.filter
                          (fun t => later - t <? monitoringWindowMs (config cb))
                          (recentFailures c)) + 1)
             >=? failureThreshold (config cb)) = true) as ->
      by (rewrite Z.geb_leb; apply Z.leb_le; lia).
    reflexivity.
Qed.

(** A breaker with the default thresholds: five failures in five seconds,
    a probe after the reset timeout, and one success. *)
Definition almostClosedBreaker : CircuitBreaker :=
  recordSuccess 35100 "anthropic"
    (snd (canExecute 35000 "anthropic"
            (CircuitFacts.recordFailures [0; 1000; 2000; 3000; 4000] "anthropic"
               (newCircuitBreaker DEFAULT_CIRCUIT_CONFIG)))).

Lemma closing_keeps_failure_window_witness :
  (exists closed,
      circuitOf "anthropic" (recordSuccess 35200 "anthropic" almostClosedBreaker)
        = Some closed /\
      state closed = CLOSED /\
      recentFailures closed = [0; 1000; 2000; 3000; 4000]) /\
  (exists reopened,
      circuitOf "anthropic"
        (recordFailure 36000 "anthropic"
           (recordSuccess 35200 "anthropic" almostClosedBreaker)) = Some reopened /\
      state reopened = OPEN).
Proof.
  destruct (circuitOf "anthropic" almostClosedBreaker) as [c|] eqn:Hc;
    [|vm_compute in Hc; discriminate].
  assert (c = {| state := HALF_OPEN; failures := 5; successes := 1;
                 lastFailure := 4000; lastStateChange := 35000;
                 recentFailures := [0; 1000; 2000; 3000; 4000] |}) as Heq
    by (vm_compute in Hc; now injection Hc as <-).
  destruct (closing_keeps_failure_window 35200 36000 "anthropic" almostClosedBreaker c Hc)
    as [(closed & H1 & H2 & H3) Hreopen].
  - now rewrite Heq.
  - rewrite Heq. vm_compute. discriminate.
  - rewrite Heq. vm_compute. discriminate.
  - split; [|exact Hreopen]. exists closed. rewrite H3, Heq. auto.
Defined.

End ResilienceFacts.

(** ** The store over any sequence of mutations *)

Module StoreFacts.

Import Memory.

(** The mutators of the store, reified. *)
Inductive Mutation : Type :=
| AddMessage (sessionId : string) (role : Role) (content : string)
    (metadata : option Value) (now : Z)
| RecordToolCall (sessionId toolHandle : string) (params : Value)
    (result : ToolResult) (now : Z)
| Escalate (sessionId reason : string) (summary : Value) (now : Z)
| SetCurrentAgent (sessionId agentId : string)
| RecordIntent (sessionId intentId : string).

Definition mutate (m : Mutation) (store : MemoryStore) : Result Exn MemoryStore :=
  match m with
  | AddMessage sessionId role content metadata now =>
      addMessage sessionId role content metadata now store
  | RecordToolCall sessionId toolHandle params result now =>
      recordToolCall sessionId toolHandle params result now store
  | Escalate sessionId reason summary now => escalate sessionId reason summary now store
  | SetCurrentAgent sessionId agentId => setCurrentAgent sessionId agentId store
  | RecordIntent sessionId intentId => recordIntent sessionId intentId store
  end.

(** A sequence of mutations; one that throws leaves the store as it was,
    and the sequence goes on, as when the caller catches the error. *)
Definition mutateAll (ms : list Mutation) (store : MemoryStore) : MemoryStore :=
  fold_left (fun store m => match mutate m store with
                            | Ok store' => store'
                            | Throw _ => store
                            end) ms store.

(** What a session may become: its identity is kept, its logs only grow at
    the end, and its escalation is never undone. *)
Record grows (s s' : Session) : Prop := {
  grows_id : id s' = id s;
  grows_email : customerEmail s' = customerEmail s;
  grows_startedAt : startedAt s' = startedAt s;
  grows_messages : messages s `prefix_of` messages s';
  grows_toolCalls : toolCalls s `prefix_of` toolCalls s';
  grows_orders :
    mentionedOrderNumbers (context s) `prefix_of` mentionedOrderNumbers (context s');
  grows_intents : intentHistory (context s) `prefix_of` intentHistory (context s');
  grows_agents : previousAgents (context s) `prefix_of` previousAgents (context s');
  grows_flag : escalated (context s) = true -> escalated (context s') = true;
  grows_status : status s = Escalated -> status s' = Escalated
}.

Lemma grows_refl s : grows s s.
Proof. split; auto; reflexivity. Qed.

Lemma grows_trans s1 s2 s3 : grows s1 s2 -> grows s2 s3 -> grows s1 s3.
Proof.
  intros [] []. split; try congruence; try (etransitivity; eassumption); auto.
Qed.

Lemma prefix_snoc {A} (l : list A) (x : A) : l `prefix_of` l ++ [x].
Proof. now exists [x]. Qed.

Lemma cacheToolResult_grows s toolHandle result :
  grows s (cacheToolResult s toolHandle result).
Proof.
  unfold cacheToolResult. destruct (_ || _); [apply grows_refl|].
  split; simpl; auto; reflexivity.
Qed.

(** One mutation: the session it names grows, the others are untouched. *)
Lemma mutate_grows m (store store' : MemoryStore) sessionId s :
  mutate m store = Ok store' ->
  store !! sessionId = Some s ->
  exists s', store' !! sessionId = Some s' /\ grows s s'.
Proof.
  intros Hm Hs.
  assert (forall target (t : Session),
             store !! target = Some t -> grows t (if decide (target = sessionId) then t else t)
             -> True) as _ by auto.
  destruct m as [target role content metadata now
                |target toolHandle params result now
                |target reason summary now
                |target agentId
                |target intentId]; simpl in Hm.
  - unfold addMessage in Hm. destruct (store !! target) as [t|] eqn:Ht; [|discriminate].
    injection Hm as <-. destruct (decide (target = sessionId)) as [->|Hne].
    + rewrite Hs in Ht. injection Ht as <-. rewrite lookup_insert_eq.
      eexists. split; [reflexivity|]. destruct role.
      * split; simpl; auto; try reflexivity; [apply prefix_snoc|].
        destruct (MemoryFacts.extract_appends (orderMatches content)
                    (mentionedOrderNumbers (context s))) as (added & -> & _).
        now exists added.
      * split; simpl; auto; try reflexivity. apply prefix_snoc.
      * split; simpl; auto; try reflexivity. apply prefix_snoc.
    + rewrite lookup_insert_ne by exact Hne. exists s. split; [exact Hs | apply grows_refl].
  - unfold recordToolCall in Hm. destruct (store !! target) as [t|] eqn:Ht; [|discriminate].
    injection Hm as <-. destruct (decide (target = sessionId)) as [->|Hne].
    + rewrite Hs in Ht. injection Ht as <-. rewrite lookup_insert_eq.
      eexists. split; [reflexivity|].
      eapply grows_trans; [|apply cacheToolResult_grows].
      split; simpl; auto; try reflexivity. apply prefix_snoc.
    + rewrite lookup_insert_ne by exact Hne. exists s. split; [exact Hs | apply grows_refl].
  - unfold escalate in Hm. destruct (store !! target) as [t|] eqn:Ht; [|discriminate].
    injection Hm as <-. destruct (decide (target = sessionId)) as [->|Hne].
    + rewrite Hs in Ht. injection Ht as <-. rewrite lookup_insert_eq.
      eexists. split; [reflexivity|]. split; simpl; auto; reflexivity.
    + rewrite lookup_insert_ne by exact Hne. exists s. split; [exact Hs | apply grows_refl].
  - unfold setCurrentAgent in Hm. destruct (store !! target) as [t|] eqn:Ht.
    + injection Hm as <-. destruct (decide (target = sessionId)) as [->|Hne].
      * rewrite Hs in Ht. injection Ht as <-. rewrite lookup_insert_eq.
        eexists. split; [reflexivity|]. split; simpl; auto; try reflexivity.
        destruct (_ && _); [apply prefix_snoc | reflexivity].
      * rewrite lookup_insert_ne by exact Hne. exists s.
        split; [exact Hs | apply grows_refl].
    + injection Hm as <-. exists s. split; [exact Hs | apply grows_refl].
  - unfold recordIntent in Hm. destruct (store !! target) as [t|] eqn:Ht.
    + injection Hm as <-. destruct (decide (target = sessionId)) as [->|Hne].
      * rewrite Hs in Ht. injection Ht as <-. rewrite lookup_insert_eq.
        eexists. split; [reflexivity|]. split; simpl; auto; try reflexivity.
        apply prefix_snoc.
      * rewrite lookup_insert_ne by exact Hne. exists s.
        split; [exact Hs | apply grows_refl].
    + injection Hm as <-. exists s. split; [exact Hs | apply grows_refl].
Qed.

(** X7. Whatever mutators are called on the store, in whatever order and on
    whatever sessions, a session that is in the store stays in it with the
    same identity; its messages, tool calls, mentioned order numbers, intent
    history and previous agents are only ever extended at the end; and once
    it is escalated it stays escalated. *)
Theorem sessions_only_grow (ms : list Mutation) (store : MemoryStore)
    (sessionId : string) (s : Session) :
  store !! sessionId = Some s ->
  exists s', mutateAll ms store !! sessionId = Some s' /\ grows s s'.
Proof.
  revert store s. induction ms as [|m ms IH]; intros store s Hs.
  - exists s. split; [exact Hs | apply grows_refl].
  - simpl. destruct (mutate m store) as [store1|e] eqn:Hm.
    + destruct (mutate_grows m store store1 sessionId s Hm Hs) as (s1 & Hs1 & Hg1).
      destruct (IH store1 s1 Hs1) as (s' & Hs' & Hg). exists s'.
      split; [exact Hs' | eapply grows_trans; eassumption].
    + now apply IH.
Qed.

(** The escalated sample session, through an attempt to go on as before. *)
Definition afterEscalation : list Mutation := [
  AddMessage "session_1" Customer "Hello? My order is #7654321" None 60;
  SetCurrentAgent "session_1" "order-tracking-agent";
  RecordIntent "session_1" "ORDER_STATUS";
  AddMessage "session_9" Customer "Hi" None 61;
  SetCurrentAgent "session_1" "general-support-agent"
].

Lemma sessions_only_grow_witness :
  exists s s',
    MemoryFacts.escalatedStore !! "session_1" = Some s /\
    mutateAll afterEscalation MemoryFacts.escalatedStore !! "session_1" = Some s' /\
    grows s s' /\
    escalated (context s') = true /\
    mentionedOrderNumbers (context s') = ["#1234567"; "#7654321"] /\
    previousAgents (context s') = ["order-tracking-agent"].
Proof.
  destruct (MemoryFacts.escalatedStore !! "session_1") as [s|] eqn:Hs;
    [|vm_compute in Hs; discriminate].
  destruct (sessions_only_grow afterEscalation MemoryFacts.escalatedStore "session_1" s Hs)
    as (s' & Hs' & Hg).
  exists s, s'. split; [reflexivity|]. split; [exact Hs'|]. split; [exact Hg|].
  vm_compute in Hs'. injection Hs' as <-. repeat split.
Defined.

End StoreFacts.

(** ** One turn: routing and requests for a person *)

Module TurnFacts.

Import Orchestrator Runtime.

(** The name [route] gives the agent a session comes from. *)
Definition previousAgentName (s : Memory.Session) : string :=
  if String.eqb (Memory.currentAgent (Memory.context s)) "" then "none"
  else Memory.currentAgent (Memory.context s).

(** The session after [route] chose the agent [target] for a message of
    primary intent [intentId]. *)
Definition routedSession (s : Memory.Session) (target intentId : string)
    : Memory.Session :=
  let c := Memory.context s in
  let previous :=
    if negb (String.eqb (Memory.currentAgent c) "") &&
       negb (String.eqb (Memory.currentAgent c) target)
    then Memory.previousAgents c ++ [Memory.currentAgent c]
    else Memory.previousAgents c in
  let c1 := Memory.setAgents target previous c in
  Memory.setContext
    (Memory.setIntentHistory (Memory.intentHistory c1 ++ [intentId]) c1)
    (Memory.setContext c1 s).

Lemma route_world config sessionId message now w r w' s :
  route config sessionId message now w = Ok (r, w') ->
  Memory.getSession sessionId (store w) = Some s ->
  rr_intent r = Intent.classifyMessage message /\
  store w' = <[sessionId := routedSession s (id (rr_targetAgent r))
                              (Intent.primary (Intent.classifyMessage message))]> (store w) /\
  tracer w'
    = (if String.eqb (previousAgentName s) (id (rr_targetAgent r)) then tracer w
       else Tracing.traceRouting sessionId (previousAgentName s) (id (rr_targetAgent r))
              (Intent.primary (Intent.classifyMessage message)) now (tracer w)).
Proof.
  intros Hroute Hs. revert Hroute. unfold route. rewrite Hs.
  generalize (Intent.classifyMessage message). intros intent.
  destruct (selectByRules config message intent) as [selected highest].
  destruct (continuity _ _ _ selected) as [agent|]; [|discriminate].
  generalize (orNumber highest (Intent.confidence intent)). intros confidence.
  fold (previousAgentName s).
  unfold Memory.setCurrentAgent. unfold Memory.getSession in Hs. rewrite Hs.
  unfold bind at 2. unfold Memory.recordIntent. rewrite lookup_insert_eq.
  unfold bind. intros H. injection H as <- <-. simpl.
  split; [reflexivity|]. split; [apply insert_insert_eq | reflexivity].
Qed.

(** X8. What [route] leaves behind on a session it knows: the agent it returns
    is the session's current agent, the primary intent is appended to the
    intent history, the agent left (if there was one and it differs) is
    appended to the previous agents, nothing else of the session changes,
    and a routing event is traced exactly when the agent changes. *)
Theorem route_records_choice (config : OrchestratorConfig) (sessionId message : string)
    (now : Z) (w w' : World) (r : RoutingResult) (s : Memory.Session) :
  route config sessionId message now w = Ok (r, w') ->
  Memory.getSession sessionId (store w) = Some s ->
  let intent := Intent.classifyMessage message in
  let target := id (rr_targetAgent r) in
  let current := Memory.currentAgent (Memory.context s) in
  rr_intent r = intent /\
  (exists s',
      store w' = <[sessionId := s']> (store w) /\
      Memory.currentAgent (Memory.context s') = target /\
      Memory.intentHistory (Memory.context s')
        = Memory.intentHistory (Memory.context s) ++ [Intent.primary intent] /\
      Memory.previousAgents (Memory.context s')
        = (if negb (String.eqb current "") && negb (String.eqb current target)
           then Memory.previousAgents (Memory.context s) ++ [current]
           else Memory.previousAgents (Memory.context s)) /\
      Memory.messages s' = Memory.messages s /\
      Memory.toolCalls s' = Memory.toolCalls s /\
      Memory.status s' = Memory.status s /\
      Memory.escalated (Memory.context s') = Memory.escalated (Memory.context s) /\
      Memory.mentionedOrderNumbers (Memory.context s')
        = Memory.mentionedOrderNumbers (Memory.context s)) /\
  tracer w'
    = (if String.eqb (previousAgentName s) target then tracer w
       else Tracing.traceRouting sessionId (previousAgentName s) target
              (Intent.primary intent) now (tracer w)).
Proof.
  intros Hroute Hs. cbv zeta.
  destruct (route_world _ _ _ _ _ _ _ _ Hroute Hs) as (Hintent & Hstore & Htracer).
  revert Hintent Hstore Htracer. generalize (Intent.classifyMessage message).
  intros intent Hintent Hstore Htracer.
  split; [exact Hintent|]. split; [|exact Htracer].
  eexists. split; [exact Hstore|]. simpl. repeat split.
Qed.

(** *** [route] is total on a configuration with an agent *)

Lemma rules_keep_target config message intent rules : forall acc,
  is_Some (fst acc) ->
  is_Some (fst (fold_left (ruleStep config message intent) rules acc)).
Proof.
  induction rules as [|rule rules IH]; intros acc Hacc; [exact Hacc|].
  simpl. apply IH. unfold ruleStep.
  destruct (_ && _); [|exact Hacc]. simpl.
  destruct (indexAgents (agents config) !! targetAgent rule); [eauto | exact Hacc].
Qed.

Lemma continuity_keeps_target config intent session selected :
  is_Some selected -> is_Some (continuity config intent session selected).
Proof.
  intros Hsel. unfold continuity. destruct session as [s|]; [|exact Hsel].
  destruct (String.eqb _ ""); [exact Hsel|].
  destruct (indexAgents (agents config) !! _) as [agent|]; [|exact Hsel].
  destruct (isRelatedToCurrentAgent intent agent); [eauto | exact Hsel].
Qed.

Lemma route_returns config sessionId message now w :
  agents config <> [] ->
  exists r w', route config sessionId message now w = Ok (r, w').
Proof.
  intros Hagents.
  assert (is_Some (theFallbackAgent config)) as Hfb.
  { unfold theFallbackAgent. destruct (indexAgents _ !! _); [eauto|].
    destruct (agents config); [contradiction | simpl; eauto]. }
  unfold route. generalize (Intent.classifyMessage message). intros intent.
  pose proof (rules_keep_target config message intent (routing config)
                (theFallbackAgent config, 0%float) Hfb) as Hsel.
  fold (selectByRules config message intent) in Hsel.
  destruct (selectByRules config message intent) as [selected highest].
  simpl in Hsel.
  destruct (continuity_keeps_target config intent
              (Memory.getSession sessionId (store w)) selected Hsel) as [agent ->].
  destruct (Memory.getSession sessionId (store w)) as [s|]; [|simpl; eauto].
  destruct (OrchestratorFacts.setCurrentAgent_returns sessionId (id agent) (store w))
    as [store1 ->].
  unfold bind at 2.
  destruct (OrchestratorFacts.recordIntent_returns sessionId (Intent.primary intent)
              store1) as [store2 ->].
  simpl. eauto.
Qed.

(** X9. [route] returns a routing result for every message, session id and
    store when the configuration has at least one agent, and throws when it
    has none (the fallback agent is then [undefined]). *)
Theorem route_total_iff_agents (config : OrchestratorConfig) (sessionId message : string)
    (now : Z) (w : World) :
  (agents config <> [] ->
   exists r w', route config sessionId message now w = Ok (r, w')) /\
  (agents config = [] ->
   exists e, route config sessionId message now w = Throw e).
Proof.
  split; [apply route_returns|].
  intros Hagents. unfold route. generalize (Intent.classifyMessage message).
  intros intent.
  assert (forall rules acc, fst acc = None ->
            fst (fold_left (ruleStep config message intent) rules acc) = None) as Hnone.
  { induction rules as [|rule rules IH]; intros acc Hacc; [exact Hacc|].
    simpl. apply IH. unfold ruleStep. destruct (_ && _); [|exact Hacc]. simpl.
    unfold indexAgents. rewrite Hagents. simpl. rewrite lookup_empty. exact Hacc. }
  pose proof (Hnone (routing config) (theFallbackAgent config, 0%float)) as Hsel.
  fold (selectByRules config message intent) in Hsel.
  destruct (selectByRules config message intent) as [selected highest].
  simpl in Hsel. rewrite Hsel.
  2:{ unfold theFallbackAgent, indexAgents. rewrite Hagents. reflexivity. }
  assert (continuity config intent (Memory.getSession sessionId (store w)) None = None)
    as ->; [|eauto].
  unfold continuity. destruct (Memory.getSession sessionId (store w)); [|reflexivity].
  destruct (String.eqb _ ""); [reflexivity|].
  unfold indexAgents. rewrite Hagents. simpl. now rewrite lookup_empty.
Qed.

(** *** A request for a person *)

Section Request.
Variable config : OrchestratorConfig.
Variable execute :
  AgentConfig -> string -> string -> World -> Result Exn AgentResponse * World.

(** X10. A message with an escalation keyword or trigger phrase, on a session
    that is not yet escalated: [handleMessage] answers with the configured
    acknowledgment and [escalated = true], the escalation check is the only
    component invoked (no routing, no agent), and the session is left
    escalated with the reason and the summary of the reply, its current
    agent and intent history untouched. *)
Theorem handleMessage_escalates_on_request (sessionId message : string) (now later : Z)
    (st : State) (s : Memory.Session) :
  Memory.getSession sessionId (store (world st)) = Some s ->
  Memory.escalated (Memory.context s) = false ->
  hasEscalationKeyword message || hasEscalationTrigger message = true ->
  exists reply st' s',
    handleMessage config execute sessionId message now later st = (Ok reply, st') /\
    Runtime.escalated reply = true /\
    Runtime.message reply
      = (if String.eqb (customerMessage (escalationHandler config)) ""
         then "Escalating to our team."
         else customerMessage (escalationHandler config)) /\
    is_Some (escalationSummary reply) /\
    invoked st' = invoked st ++ [InvokedCheckEscalation] /\
    store (world st') !! sessionId = Some s' /\
    Memory.escalated (Memory.context s') = true /\
    Memory.status s' = Memory.Escalated /\
    Memory.escalationReason (Memory.context s')
      = Some (determineEscalationReason message s) /\
    Memory.escalationSummary (Memory.context s') = escalationSummary reply /\
    Memory.currentAgent (Memory.context s') = Memory.currentAgent (Memory.context s) /\
    Memory.intentHistory (Memory.context s') = Memory.intentHistory (Memory.context s).
Proof.
  intros Hs Hflag Hreq. unfold handleMessage, Memory.isEscalated.
  rewrite Hs. unfold Memory.getSession in Hs. rewrite Hs, Hflag.
  unfold Memory.addMessage. rewrite Hs.
  set (s1 := Memory.extractEntities _ message).
  set (w1 := {| store := <[sessionId := s1]> (store (world st)); tracer := _ |}).
  assert (Memory.getSession sessionId (store w1) = Some s1) as Hs1
    by apply lookup_insert_eq.
  assert (Memory.escalated (Memory.context s1) = false) as Hflag1 by exact Hflag.
  rewrite (OrchestratorFacts.checkEscalation_unfold config sessionId message None now
             w1 s1 Hs1 Hflag1).
  unfold shouldEscalate. rewrite Hreq. simpl orb. cbv iota.
  unfold Memory.escalate. unfold Memory.getSession in Hs1. rewrite Hs1.
  unfold bind. cbv beta iota. simpl er_escalated. cbv iota.
  eexists _, _, _. split; [reflexivity|]. simpl.
  split; [reflexivity|]. split; [reflexivity|]. split; [eauto|].
  split; [reflexivity|]. split; [apply lookup_insert_eq|]. simpl.
  repeat split.
Qed.

End Request.


Lemma route_records_choice_witness :
  exists r w' s,
    route OrchestratorFacts.sampleConfig "session_1" "I would like a refund please" 10
      (OrchestratorFacts.worldOf MemoryFacts.sampleStore) = Ok (r, w') /\
    Memory.getSession "session_1" MemoryFacts.sampleStore = Some s /\
    id (rr_targetAgent r) = "refund-processing-agent" /\
    (exists s',
        store w' = <[ "session_1" := s' ]> MemoryFacts.sampleStore /\
        Memory.currentAgent (Memory.context s') = id (rr_targetAgent r) /\
        Memory.intentHistory (Memory.context s')
          = Memory.intentHistory (Memory.context s) ++ ["REFUND_REQUEST"]).
Proof.
  destruct (route OrchestratorFacts.sampleConfig "session_1" "I would like a refund please"
              10 (OrchestratorFacts.worldOf MemoryFacts.sampleStore))
    as [[r w']|e] eqn:Hroute; [|vm_compute in Hroute; discriminate].
  destruct (Memory.getSession "session_1" MemoryFacts.sampleStore) as [s|] eqn:Hs;
    [|vm_compute in Hs; discriminate].
  exists r, w', s. split; [reflexivity|]. split; [reflexivity|].
  split; [vm_compute in Hroute; injection Hroute as <- _; reflexivity|].
  destruct (route_records_choice _ _ _ _ _ _ _ s Hroute Hs)
    as (_ & (s' & Hstore & Hagent & Hintents & _) & _).
  exists s'. split; [exact Hstore|]. split; [exact Hagent|]. exact Hintents.
Defined.

Lemma handleMessage_escalates_on_request_witness :
  exists reply st',
    handleMessage OrchestratorFacts.sampleConfig RuntimeFacts.politeExecutor "session_1"
      "Can I talk to your manager?" 10 11 RuntimeFacts.sampleState = (Ok reply, st') /\
    Runtime.escalated reply = true /\
    invoked st' = [InvokedCheckEscalation] /\
    Memory.isEscalated "session_1" (store (world st')) = true.
Proof.
  destruct (Memory.getSession "session_1" (store (world RuntimeFacts.sampleState)))
    as [s|] eqn:Hs; [|vm_compute in Hs; discriminate].
  assert (Memory.escalated (Memory.context s) = false) as Hflag
    by (vm_compute in Hs; injection Hs as <-; reflexivity).
  assert (hasEscalationKeyword "Can I talk to your manager?"
          || hasEscalationTrigger "Can I talk to your manager?" = true) as Hreq
    by (vm_compute; reflexivity).
  destruct (handleMessage_escalates_on_request OrchestratorFacts.sampleConfig
              RuntimeFacts.politeExecutor "session_1" "Can I talk to your manager?" 10 11
              RuntimeFacts.sampleState s Hs Hflag Hreq)
    as (reply & st' & s' & Hrun & Hesc & _ & _ & Hinvoked & Hs' & Hflag' & _).
  exists reply, st'. split; [exact Hrun|]. split; [exact Hesc|].
  split; [exact Hinvoked|]. unfold Memory.isEscalated. now rewrite Hs'.
Defined.

End TurnFacts.

(** ** The tracer: summary against timeline *)

Module TracingFacts.

Import Tracing.

(** The operations of the tracer, reified. *)
Inductive TraceOp : Type :=
| OpInit (sessionId : string)
| OpMessage (sessionId : string) (role : Memory.Role) (content : string) (now : Z)
| OpToolCall (sessionId toolHandle : string) (params : Value)
    (result : Memory.ToolResult) (now : Z)
| OpRouting (sessionId fromAgent toAgent reason : string) (now : Z)
| OpEscalation (sessionId reason : string) (summary : Value) (now : Z)
| OpError (sessionId errorText : string) (context : option Value) (now : Z)
| OpGetTrace (sessionId : string).

Definition applyOp (tracer : Tracer) (op : TraceOp) : Tracer :=
  match op with
  | OpInit sessionId => initSession sessionId tracer
  | OpMessage sessionId role content now => traceMessage sessionId role content now tracer
  | OpToolCall sessionId toolHandle params result now =>
      traceToolCall sessionId toolHandle params result now tracer
  | OpRouting sessionId fromAgent toAgent reason now =>
      traceRouting sessionId fromAgent toAgent reason now tracer
  | OpEscalation sessionId reason summary now =>
      traceEscalation sessionId reason summary now tracer
  | OpError sessionId errorText context now => traceError sessionId errorText context now tracer
  | OpGetTrace sessionId => snd (getTrace sessionId tracer)
  end.

Definition runOps (ops : list TraceOp) (tracer : Tracer) : Tracer :=
  fold_left applyOp ops tracer.

(** Reading the timeline. *)
Definition isMessage (ev : TraceEvent) : bool :=
  match type ev with message => true | _ => false end.

Definition isToolCall (ev : TraceEvent) : bool :=
  match type ev with tool_call => true | _ => false end.

Definition isRouting (ev : TraceEvent) : bool :=
  match type ev with routing => true | _ => false end.

Definition isEscalation (ev : TraceEvent) : bool :=
  match type ev with escalation => true | _ => false end.

Definition succeeded (ev : TraceEvent) : bool :=
  match getField "success" (data ev) with
  | VBool b => b
  | _ => false
  end.

Definition count (p : TraceEvent -> bool) (events : list TraceEvent) : Z :=
  Z.of_nat (length (List.filter p events)).

Definition routedTo (events : list TraceEvent) : list Value :=
  map (fun ev => getField "to" (data ev)) (List.filter isRouting events).

(** The summary of a trace says what its timeline holds. *)
Record consistent (sessionId : string) (trace : SessionTrace) : Prop := {
  own_events : Forall (fun ev => Tracing.sessionId ev = sessionId) (timeline trace);
  messages_counted : messageCount (summary trace) = count isMessage (timeline trace);
  toolCalls_counted : toolCallCount (summary trace) = count isToolCall (timeline trace);
  successes_counted :
    successfulToolCalls (summary trace)
      = count (fun ev => isToolCall ev && succeeded ev) (timeline trace);
  failures_counted :
    failedToolCalls (summary trace)
      = count (fun ev => isToolCall ev && negb (succeeded ev)) (timeline trace);
  escalation_flagged :
    escalated (summary trace) = existsb isEscalation (timeline trace);
  agents_distinct : NoDup (agents (summary trace));
  agents_routed :
    forall agent, agent ∈ agents (summary trace) <-> VString agent ∈ routedTo (timeline trace)
}.

Definition allConsistent (tracer : Tracer) : Prop :=
  forall sessionId trace, tracer !! sessionId = Some trace -> consistent sessionId trace.

Lemma count_snoc p events ev :
  count p (events ++ [ev]) = count p events + (if p ev then 1 else 0).
Proof.
  unfold count. rewrite List.filter_app, length_app. simpl.
  destruct (p ev); simpl; lia.
Qed.

(** An event and a change of the summary, on a session that has a trace. *)
Lemma traced sessionId ev updater (tracer : Tracer) :
  updateSummary sessionId updater (addEvent sessionId ev tracer)
  = match tracer !! sessionId with
    | Some trace =>
        <[sessionId := {| timeline := timeline trace ++ [ev];
                          summary := updater (summary trace) |}]> tracer
    | None => tracer
    end.
Proof.
  unfold updateSummary, addEvent. destruct (tracer !! sessionId) as [trace|] eqn:Ht.
  - rewrite lookup_insert_eq. simpl. apply insert_insert_eq.
  - now rewrite Ht.
Qed.

Lemma allConsistent_insert sessionId trace (tracer : Tracer) :
  allConsistent tracer -> consistent sessionId trace ->
  allConsistent (<[sessionId := trace]> tracer).
Proof.
  intros Hall Hc other t. destruct (decide (sessionId = other)) as [<-|Hne].
  - rewrite lookup_insert_eq. now intros [= <-].
  - rewrite lookup_insert_ne by exact Hne. apply Hall.
Qed.

Lemma arrayIncludes_elem_of (l : list string) (x : string) :
  arrayIncludes l x = true <-> x ∈ l.
Proof. rewrite list_elem_of_In. apply MemoryFacts.arrayIncludes_In. Qed.

Lemma applyOp_consistent tracer op : allConsistent tracer -> allConsistent (applyOp tracer op).
Proof.
  intros Hall.
  destruct op as [sid|sid role content now|sid toolHandle params result now
                 |sid fromAgent toAgent reason now|sid reason smry now
                 |sid errorText context now|sid]; simpl.
  - apply allConsistent_insert; [exact Hall|].
    split; simpl; try reflexivity; [constructor | constructor |].
    intros agent. unfold routedTo. simpl. split; intros H; inversion H.
  - unfold traceMessage. rewrite traced.
    destruct (tracer !! sid) as [trace|] eqn:Ht; [|exact Hall].
    destruct (Hall sid trace Ht) as [Hown Hm Htc Hsucc Hfail Hesc Hnd Hag].
    apply allConsistent_insert; [exact Hall|].
    split; simpl.
    + apply Forall_app. split; [exact Hown|]. repeat constructor.
    + rewrite count_snoc, Hm. simpl. lia.
    + rewrite count_snoc, Htc. simpl. lia.
    + rewrite count_snoc, Hsucc. simpl. lia.
    + rewrite count_snoc, Hfail. simpl. lia.
    + rewrite existsb_app. simpl. rewrite Hesc. now rewrite !orb_false_r.
    + exact Hnd.
    + intros agent. rewrite Hag. unfold routedTo. simpl.
      rewrite List.filter_app. simpl. now rewrite app_nil_r.
  - unfold traceToolCall. rewrite traced.
    destruct (tracer !! sid) as [trace|] eqn:Ht; [|exact Hall].
    destruct (Hall sid trace Ht) as [Hown Hm Htc Hsucc Hfail Hesc Hnd Hag].
    apply allConsistent_insert; [exact Hall|].
    split; simpl.
    + apply Forall_app. split; [exact Hown|]. repeat constructor.
    + rewrite count_snoc, Hm. simpl. lia.
    + rewrite count_snoc, Htc. simpl. lia.
    + rewrite count_snoc, Hsucc.
      unfold succeeded. simpl. destruct (Memory.success result); simpl; lia.
    + rewrite count_snoc, Hfail.
      unfold succeeded. simpl. destruct (Memory.success result); simpl; lia.
    + rewrite existsb_app. simpl. rewrite Hesc. now rewrite !orb_false_r.
    + exact Hnd.
    + intros agent. rewrite Hag. unfold routedTo. simpl.
      rewrite List.filter_app. simpl. now rewrite app_nil_r.
  - unfold traceRouting. rewrite traced.
    destruct (tracer !! sid) as [trace|] eqn:Ht; [|exact Hall].
    destruct (Hall sid trace Ht) as [Hown Hm Htc Hsucc Hfail Hesc Hnd Hag].
    apply allConsistent_insert; [exact Hall|].
    split; simpl.
    + apply Forall_app. split; [exact Hown|]. repeat constructor.
    + rewrite count_snoc, Hm. simpl. lia.
    + rewrite count_snoc, Htc. simpl. lia.
    + rewrite count_snoc, Hsucc. simpl. lia.
    + rewrite count_snoc, Hfail. simpl. lia.
    + rewrite existsb_app. simpl. rewrite Hesc. now rewrite !orb_false_r.
    + destruct (arrayIncludes (agents (summary trace)) toAgent) eqn:Hin; [exact Hnd|].
      apply NoDup_app. split; [exact Hnd|]. split; [|apply NoDup_singleton].
      intros x Hx Hx'. apply list_elem_of_singleton in Hx' as ->.
      apply arrayIncludes_elem_of in Hx. congruence.
    + intros agent. unfold routedTo. simpl. rewrite List.filter_app, map_app. simpl.
      rewrite elem_of_app, list_elem_of_singleton.
      destruct (arrayIncludes (agents (summary trace)) toAgent) eqn:Hin.
      * rewrite Hag. split; [tauto|]. intros [H|H]; [exact H|].
        injection H as ->. apply Hag. now apply arrayIncludes_elem_of.
      * rewrite elem_of_app, list_elem_of_singleton, Hag.
        split; (intros [H|H]; [now left | right; congruence]).
  - unfold traceEscalation. rewrite traced.
    destruct (tracer !! sid) as [trace|] eqn:Ht; [|exact Hall].
    destruct (Hall sid trace Ht) as [Hown Hm Htc Hsucc Hfail Hesc Hnd Hag].
    apply allConsistent_insert; [exact Hall|].
    split; simpl.
    + apply Forall_app. split; [exact Hown|]. repeat constructor.
    + rewrite count_snoc, Hm. simpl. lia.
    + rewrite count_snoc, Htc. simpl. lia.
    + rewrite count_snoc, Hsucc. simpl. lia.
    + rewrite count_snoc, Hfail. simpl. lia.
    + rewrite existsb_app. simpl. now rewrite orb_true_r.
    + exact Hnd.
    + intros agent. rewrite Hag. unfold routedTo. simpl.
      rewrite List.filter_app. simpl. now rewrite app_nil_r.
  - unfold traceError, addEvent.
    destruct (tracer !! sid) as [trace|] eqn:Ht; [|exact Hall].
    destruct (Hall sid trace Ht) as [Hown Hm Htc Hsucc Hfail Hesc Hnd Hag].
    apply allConsistent_insert; [exact Hall|].
    split; simpl.
    + apply Forall_app. split; [exact Hown|]. repeat constructor.
    + rewrite count_snoc, Hm. simpl. lia.
    + rewrite count_snoc, Htc. simpl. lia.
    + rewrite count_snoc, Hsucc. simpl. lia.
    + rewrite count_snoc, Hfail. simpl. lia.
    + rewrite existsb_app. simpl. rewrite Hesc. now rewrite !orb_false_r.
    + exact Hnd.
    + intros agent. rewrite Hag. unfold routedTo. simpl.
      rewrite List.filter_app. simpl. now rewrite app_nil_r.
  - unfold getTrace. destruct (tracer !! sid) as [trace|] eqn:Ht; [|exact Hall].
    destruct (timeline trace) as [|first [|second rest]] eqn:Htl; try exact Hall.
    destruct (last (first :: second :: rest)) as [final|] eqn:Hlast; [|exact Hall].
    simpl. apply allConsistent_insert; [exact Hall|].
    destruct (Hall sid trace Ht) as [Hown Hm Htc Hsucc Hfail Hesc Hnd Hag].
    rewrite <- Htl.
    split; simpl; try assumption.
Qed.

Lemma count_split p q events :
  count p events
  = count (fun ev => p ev && q ev) events + count (fun ev => p ev && negb (q ev)) events.
Proof.
  unfold count. induction events as [|ev events IH]; [reflexivity|].
  simpl. destruct (p ev), (q ev); simpl in *; lia.
Qed.

(** X11. From the empty tracer the process starts with, whatever is traced, in
    whatever order and on whatever sessions (initialised or not, initialised
    again, read with [getTrace]): the summary of every trace agrees with its
    timeline. The message and tool-call counters count the events of their
    type, the tool calls split into the successful and the failed ones, the
    [escalated] flag is set exactly when an escalation event was traced, the
    agents are without repetition the targets of the routing events, and
    every event carries the id of the session of its trace. *)
Theorem summary_matches_timeline (ops : list TraceOp) (sessionId : string)
    (trace : SessionTrace) :
  runOps ops ∅ !! sessionId = Some trace ->
  consistent sessionId trace /\
  toolCallCount (summary trace)
    = successfulToolCalls (summary trace) + failedToolCalls (summary trace).
Proof.
  assert (forall tracer, allConsistent tracer -> allConsistent (runOps ops tracer)) as Hrun.
  { induction ops as [|op ops IH]; intros tracer Hall; [exact Hall|].
    simpl. apply IH. now apply applyOp_consistent. }
  intros Ht.
  assert (consistent sessionId trace) as Hc.
  { apply (Hrun ∅); [|exact Ht].
    intros other t Hother. rewrite lookup_empty in Hother. discriminate. }
  split; [exact Hc|]. destruct Hc as [_ _ Htc Hsucc Hfail _ _ _].
  rewrite Htc, Hsucc, Hfail. apply count_split.
Qed.

Definition sampleOps : list TraceOp := [
  OpMessage "session_0" Memory.Customer "dropped: no trace yet" 1;
  OpInit "session_1";
  OpMessage "session_1" Memory.Customer "Where is my order #1234567?" 10;
  OpRouting "session_1" "none" "order-tracking-agent" "ORDER_STATUS" 11;
  OpToolCall "session_1" "shopify_get_order_details"
    (VObject [("orderId", VString "#1234567")]) OrchestratorFacts.failedResult 12;
  OpToolCall "session_1" "shopify_get_order_details"
    (VObject [("orderId", VString "#1234567")])
    {| Memory.success := true; Memory.data := VObject [("status", VString "shipped")];
       Memory.error := None |} 13;
  OpError "session_1" "timeout" None 14;
  OpRouting "session_1" "order-tracking-agent" "order-tracking-agent" "ORDER_STATUS" 15;
  OpGetTrace "session_1";
  OpEscalation "session_1" "customer explicitly requested human agent" (VObject []) 16
].

Lemma summary_matches_timeline_witness :
  exists trace,
    runOps sampleOps ∅ !! "session_1" = Some trace /\
    runOps sampleOps ∅ !! "session_0" = None /\
    length (timeline trace) = 7%nat /\
    consistent "session_1" trace /\
    toolCallCount (summary trace) = 2 /\
    agents (summary trace) = ["order-tracking-agent"].
Proof.
  destruct (runOps sampleOps ∅ !! "session_1") as [trace|] eqn:Ht;
    [|vm_compute in Ht; discriminate].
  exists trace. split; [reflexivity|]. split; [vm_compute; reflexivity|].
  pose proof (summary_matches_timeline sampleOps "session_1" trace Ht) as [Hc Hsum].
  vm_compute in Ht. injection Ht as <-.
  split; [reflexivity|]. split; [exact Hc|]. split; reflexivity.
Defined.

End TracingFacts.

(** ** The intent classifier *)

Module IntentFacts.

Import Intent.

(** The entry of the score table for a category. *)
Definition scored (text : string) (entry : string * IntentConfig) : Scored :=
  {| category := fst entry;
     score := categoryScore text (keywords (snd entry));
     scoredPriority := priority (snd entry) |}.

(** [a] may stand before [b] in the sorted table: a higher score, or the same
    score and a priority that is not lower. *)
Definition before (a b : Scored) : Prop :=
  score b < score a \/ (score b = score a /\ scoredPriority b <= scoredPriority a).

Lemma compareScored_before a b : compareScored a b <= 0 <-> before a b.
Proof.
  unfold compareScored, before. destruct (score b =? score a) eqn:Heq; simpl.
  - apply Z.eqb_eq in Heq. lia.
  - apply Z.eqb_neq in Heq. lia.
Qed.

Lemma before_total a b : before a b \/ before b a.
Proof. unfold before. lia. Qed.

Lemma before_trans a b c : before a b -> before b c -> before a c.
Proof. unfold before. lia. Qed.

Lemma insertScored_perm x l : insertScored x l ≡ₚ x :: l.
Proof.
  induction l as [|y l IH]; [reflexivity|]. simpl.
  destruct (compareScored x y <=? 0); [reflexivity|].
  rewrite IH. apply Permutation_swap.
Qed.

Lemma sortScored_perm l : sortScored l ≡ₚ l.
Proof.
  induction l as [|x l IH]; [reflexivity|]. simpl.
  rewrite insertScored_perm. now rewrite IH.
Qed.

(** Every element may stand before all those after it. *)
Fixpoint descending (l : list Scored) : Prop :=
  match l with
  | [] => True
  | x :: rest => Forall (before x) rest /\ descending rest
  end.

Lemma insertScored_descending x l : descending l -> descending (insertScored x l).
Proof.
  induction l as [|y l IH]; simpl.
  - intros _. split; [constructor | exact I].
  - intros [Hy Hsorted]. destruct (compareScored x y <=? 0) eqn:Hcmp.
    + apply Z.leb_le, compareScored_before in Hcmp. simpl.
      split; [|now split]. constructor; [exact Hcmp|].
      eapply Forall_impl; [exact Hy|]. intros z Hz. eapply before_trans; eassumption.
    + apply Z.leb_gt in Hcmp.
      assert (before y x) as Hyx.
      { destruct (before_total x y) as [H|H]; [|exact H].
        apply compareScored_before in H. lia. }
      simpl. split; [|now apply IH]. rewrite insertScored_perm. now constructor.
Qed.

Lemma sortScored_descending l : descending (sortScored l).
Proof.
  induction l as [|x l IH]; simpl; [exact I | now apply insertScored_descending].
Qed.

Lemma weight_nonneg k : 0 <= weight k.
Proof. unfold weight. lia. Qed.

Lemma categoryScore_bounds text kws :
  0 <= categoryScore text kws <= maxScore kws.
Proof.
  unfold categoryScore, maxScore.
  assert (forall a b, 0 <= a <= b ->
            0 <= fold_left (fun score keyword =>
                              if includes text (toLowerCase keyword)
                              then score + weight keyword else score) kws a
              <= fold_left (fun sum k => sum + weight k) kws b) as H.
  { induction kws as [|k kws IH]; intros a b Hab; [exact Hab|].
    simpl. apply IH. pose proof (weight_nonneg k).
    destruct (includes text (toLowerCase k)); lia. }
  apply H. lia.
Qed.

Lemma lookupCategory_entry entry :
  In entry INTENT_CATEGORIES -> lookupCategory (fst entry) = Some (snd entry).
Proof.
  intros H. simpl in H.
  repeat (destruct H as [<-|H]; [reflexivity|]). contradiction.
Qed.

Lemma categories_distinct : NoDup (map fst INTENT_CATEGORIES).
Proof. apply (bool_decide_unpack _). vm_compute. exact I. Qed.


Lemma filter_sublist {A} (p : A -> bool) (l : list A) : List.filter p l `sublist_of` l.
Proof.
  induction l as [|x l IH]; simpl; [constructor|].
  destruct (p x); now constructor.
Qed.

Lemma map_sublist {A B} (f : A -> B) (l1 l2 : list A) :
  l1 `sublist_of` l2 -> map f l1 `sublist_of` map f l2.
Proof. induction 1; simpl; now constructor. Qed.

Lemma scores_categories text :
  map category (map (scored text) INTENT_CATEGORIES) = map fst INTENT_CATEGORIES.
Proof. rewrite map_map. reflexivity. Qed.

(** The sorted score table: its first row and the rest. *)
Lemma sorted_table text :
  exists entry rest,
    In entry INTENT_CATEGORIES /\
    sortScored (map (scored text) INTENT_CATEGORIES) = scored text entry :: rest /\
    Forall (before (scored text entry)) rest /\
    (forall s, In s rest -> exists e, In e INTENT_CATEGORIES /\ s = scored text e) /\
    (forall e, In e INTENT_CATEGORIES -> In (scored text e) (scored text entry :: rest)) /\
    NoDup (fst entry :: map category rest).
Proof.
  pose proof (sortScored_perm (map (scored text) INTENT_CATEGORIES)) as Hperm.
  pose proof (sortScored_descending (map (scored text) INTENT_CATEGORIES)) as Hdesc.
  destruct (sortScored (map (scored text) INTENT_CATEGORIES)) as [|first rest].
  { apply Permutation_length in Hperm. discriminate. }
  assert (forall s, In s (first :: rest) ->
            exists e, In e INTENT_CATEGORIES /\ s = scored text e) as Hfrom.
  { intros s Hs. apply list_elem_of_In in Hs. rewrite Hperm in Hs.
    apply list_elem_of_In, in_map_iff in Hs. destruct Hs as (e & <- & He). eauto. }
  destruct (Hfrom first (or_introl eq_refl)) as (entry & Hentry & ->).
  exists entry, rest. split; [exact Hentry|]. split; [reflexivity|].
  split; [exact (proj1 Hdesc)|]. split; [intros s Hs; apply Hfrom; now right|].
  split.
  { intros e He. apply list_elem_of_In. rewrite Hperm.
    apply list_elem_of_In, in_map. exact He. }
  change (NoDup (map category (scored text entry :: rest))).
  assert (map category (scored text entry :: rest) ≡ₚ map fst INTENT_CATEGORIES) as ->.
  { rewrite <- (scores_categories text). apply Permutation_map. exact Hperm. }
  apply categories_distinct.
Qed.

(** X12. The classifier ranks by score, then by priority. For every message, the
    primary intent is a category of the table whose score (the summed
    weights of its keywords found in the lower-cased message) no other
    category exceeds, and whose priority no category of the same score
    exceeds; there are at most three secondary intents, each a category with
    a positive score, all different from one another and from the primary
    intent. *)
Theorem classifyMessage_ranks_by_score_then_priority (message : string) :
  let text := toLowerCase message in
  let c := classifyMessage message in
  exists cfg,
    lookupCategory (primary c) = Some cfg /\
    (forall name other, In (name, other) INTENT_CATEGORIES ->
       categoryScore text (keywords other) < categoryScore text (keywords cfg) \/
       (categoryScore text (keywords other) = categoryScore text (keywords cfg) /\
        priority other <= priority cfg)) /\
    (length (secondary c) <= 3)%nat /\
    NoDup (primary c :: secondary c) /\
    (forall name, In name (secondary c) ->
       exists other,
         lookupCategory name = Some other /\ 0 < categoryScore text (keywords other)).
Proof.
  cbv zeta. unfold classifyMessage, classifyText.
  change (map _ INTENT_CATEGORIES)
    with (map (scored (toLowerCase message)) INTENT_CATEGORIES).
  generalize (toLowerCase message). intros text.
  destruct (sorted_table text)
    as (entry & rest & Hentry & -> & Hfirst & Hrest & Hall & Hnd).
  cbn [head default category scored primary secondary drop].
  exists (snd entry). split; [now apply lookupCategory_entry|]. split; [|split; [|split]].
  - intros name other Hother. destruct (Hall _ Hother) as [Heq|Hin].
    + right. apply (f_equal score) in Heq as Hscore.
      apply (f_equal scoredPriority) in Heq as Hprio. simpl in Hscore, Hprio. lia.
    + rewrite Forall_forall in Hfirst. apply list_elem_of_In, Hfirst in Hin.
      exact Hin.
  - rewrite length_map. etransitivity; [apply filter_length_le|].
    rewrite length_take. lia.
  - eapply sublist_NoDup; [exact Hnd|]. apply sublist_skip.
    apply map_sublist. etransitivity; [apply filter_sublist | apply sublist_take].
  - intros name Hname. apply in_map_iff in Hname as (s & <- & Hs).
    apply filter_In in Hs as [Hs Hpos]. apply Z.ltb_lt in Hpos.
    assert (In s rest) as Hin.
    { apply list_elem_of_In. eapply elem_of_sublist; [|apply (sublist_take _ 3)].
      now apply list_elem_of_In. }
    destruct (Hrest s Hin) as (e & He & ->). exists (snd e).
    split; [now apply lookupCategory_entry | exact Hpos].
Qed.


(** No keyword of any category occurs in the lower-cased message. *)
Definition matchesNothing (message : string) : bool :=
  forallb
    (fun entry =>
       forallb (fun k => negb (includes (toLowerCase message) (toLowerCase k)))
         (keywords (snd entry)))
    INTENT_CATEGORIES.

Lemma categoryScore_nothing text kws :
  forallb (fun k => negb (includes text (toLowerCase k))) kws = true ->
  categoryScore text kws = 0.
Proof.
  unfold categoryScore. generalize 0. induction kws as [|k kws IH]; intros acc H.
  - reflexivity.
  - simpl in *. apply andb_prop in H as [Hk H]. apply negb_true_iff in Hk.
    rewrite Hk. now apply IH.
Qed.

(** X13. A message in which no keyword of the table occurs is classified as
    [ESCALATION_REQUEST], the category of highest priority, with no
    secondary intent and confidence 0. *)
Theorem classifyMessage_without_keyword (message : string) :
  matchesNothing message = true ->
  classifyMessage message
  = {| primary := "ESCALATION_REQUEST"; secondary := []; confidence := 0%float |}.
Proof.
  intros Hnothing. unfold classifyMessage, classifyText.
  assert (map (fun entry =>
                 {| category := fst entry;
                    score := categoryScore (toLowerCase message) (keywords (snd entry));
                    scoredPriority := priority (snd entry) |}) INTENT_CATEGORIES
          = map (fun entry =>
                   {| category := fst entry; score := 0;
                      scoredPriority := priority (snd entry) |}) INTENT_CATEGORIES) as ->.
  { apply map_ext_in. intros entry Hentry. f_equal.
    apply categoryScore_nothing. unfold matchesNothing in Hnothing.
    rewrite forallb_forall in Hnothing. now apply Hnothing. }
  vm_compute. reflexivity.
Qed.

Lemma classifyMessage_without_keyword_witness :
  matchesNothing "Good morning!" = true /\
  Intent.primary (classifyMessage "Good morning!") = "ESCALATION_REQUEST".
Proof.
  assert (matchesNothing "Good morning!" = true) as Hnothing by (vm_compute; reflexivity).
  split; [exact Hnothing|].
  now rewrite (classifyMessage_without_keyword "Good morning!" Hnothing).
Defined.

(** *** The confidence is a ratio *)

Definition inUnitInterval (x : float) : bool :=
  PrimFloat.leb 0 x && PrimFloat.leb x 1.

Lemma ratios_in_range (max : Z) :
  forallb (fun n => inUnitInterval (ofZ (Z.of_nat n) / ofZ max))
    (seq 0 (Datatypes.S (Z.to_nat max))) = true ->
  forall sc, 0 <= sc <= max -> inUnitInterval (ofZ sc / ofZ max) = true.
Proof.
  intros Hall sc Hsc. rewrite forallb_forall in Hall.
  specialize (Hall (Z.to_nat sc)). rewrite Z2Nat.id in Hall by lia.
  apply Hall, in_seq. lia.
Qed.

(** X14. For every message, the confidence of the classification is a number
    between 0 and 1 (never NaN): the score of the primary intent over the
    summed weights of all its keywords, in binary64. *)
Theorem classifyMessage_confidence_range (message : string) :
  inUnitInterval (confidence (classifyMessage message)) = true.
Proof.
  unfold classifyMessage, classifyText.
  change (map _ INTENT_CATEGORIES)
    with (map (scored (toLowerCase message)) INTENT_CATEGORIES).
  generalize (toLowerCase message). intros text.
  destruct (sorted_table text) as (entry & rest & Hentry & -> & _).
  cbn [head default from_option category scored confidence score]. unfold id.
  cbn [category scored score].
  rewrite (lookupCategory_entry entry Hentry). cbn [from_option].
  pose proof (categoryScore_bounds text (keywords (snd entry))) as Hbounds.
  revert Hbounds. generalize (categoryScore text (keywords (snd entry))). intros sc.
  simpl in Hentry.
  repeat (destruct Hentry as [<-|Hentry];
          [intros Hbounds; apply ratios_in_range;
           [vm_compute; reflexivity | exact Hbounds]|]).
  contradiction.
Qed.

End IntentFacts.


(** ** Tool calls: validation, catalogue, effects *)

Module ToolCallFacts.

Import Resilience ToolClient.

(** *** Validation *)

Lemma checkParam_violates param given message :
  checkParam param given = Some message -> ToolClientFacts.violates param given.
Proof.
  unfold checkParam, ToolClientFacts.violates.
  destruct (given !! name param) as [value|] eqn:Hv.
  - destruct (typeMismatch (type param) value) as [what|] eqn:Hty.
    + intros _. right. left. eauto.
    + destruct (enum param) as [allowed|] eqn:Hen; [|discriminate].
      destruct (enumIncludes allowed value) eqn:Hinc; [discriminate|].
      intros _. right. right. eauto.
  - destruct (required param) eqn:Hreq; [|discriminate]. intros _. now left.
Qed.

Lemma validateLoop_valid l given :
  valid (validateLoop l given) = true <->
  forall param, In param l -> ~ ToolClientFacts.violates param given.
Proof.
  induction l as [|p l IH]; simpl.
  - split; [intros _ param [] | reflexivity].
  - destruct (checkParam p given) as [message|] eqn:Hp; simpl.
    + split; [discriminate|]. intros H. exfalso.
      apply (H p (or_introl eq_refl)). eapply checkParam_violates. exact Hp.
    + rewrite IH. split.
      * intros H param [<-|Hin]; [|now apply H].
        intros Hviol. apply ToolClientFacts.violates_checkParam in Hviol as [m Hm].
        congruence.
      * intros H param Hin. apply H. now right.
Qed.

Lemma checkParam_agree param given given' :
  given !! name param = given' !! name param ->
  checkParam param given = checkParam param given'.
Proof. unfold checkParam. now intros ->. Qed.

(** X15. Validation accepts the parameters exactly when no parameter the schema
    of the tool declares is violated (a required one missing, a wrong
    primitive type, a value outside the enumeration); and it reads nothing
    but the declared parameters: two objects that agree on them get the same
    verdict, so that undeclared keys are never rejected. *)
Theorem validateParams_characterised (tool : ToolDefinition)
    (given : gmap string Value) :
  (valid (validateParams tool given) = true <->
   forall param, In param (params tool) -> ~ ToolClientFacts.violates param given) /\
  (forall given' : gmap string Value,
     (forall param, In param (params tool) -> given !! name param = given' !! name param) ->
     validateParams tool given' = validateParams tool given).
Proof.
  split; [apply validateLoop_valid|].
  unfold validateParams. induction (params tool) as [|p l IH]; intros given' Hagree.
  - reflexivity.
  - simpl. rewrite <- (checkParam_agree p given given') by (apply Hagree; now left).
    destruct (checkParam p given); [reflexivity|].
    apply IH. intros param Hin. apply Hagree. now right.
Qed.

(** *** The catalogue *)

Lemma find_handle l : forall toolHandle tool,
  List.find (fun t => String.eqb (handle t) toolHandle) l = Some tool ->
  handle tool = toolHandle /\ In tool l.
Proof.
  intros toolHandle tool H. apply find_some in H as [Hin Heq].
  apply String.eqb_eq in Heq. now split.
Qed.

(** X16. Looking a tool up by its handle: whatever [getToolByHandle] finds is a
    tool of the catalogue with that handle, and every tool of the catalogue
    is found by its own handle (no handle is used twice). *)
Theorem getToolByHandle_round_trip :
  (forall toolHandle tool,
     getToolByHandle toolHandle = Some tool ->
     handle tool = toolHandle /\ In tool ALL_TOOLS) /\
  (forall tool, In tool ALL_TOOLS -> getToolByHandle (handle tool) = Some tool).
Proof.
  split; [intros toolHandle tool; apply find_handle|].
  intros tool Hin. unfold ALL_TOOLS, SHOPIFY_TOOLS, SKIO_TOOLS in Hin. simpl in Hin.
  repeat (destruct Hin as [<-|Hin]; [vm_compute; reflexivity|]). contradiction.
Qed.

(** *** What a call does to the outside *)

Section Call.
Variable makeRequest :
  string -> string -> gmap string Value -> nat -> Result Exn ToolCallResult.



End Call.

End ToolCallFacts.


(** ** Where a turn can fail *)

Module FailureFacts.

Import Orchestrator Runtime.

Lemma checkEscalation_returns config sessionId message agentResponse now w :
  exists result w',
    checkEscalation config sessionId message agentResponse now w = Ok (result, w').
Proof.
  unfold checkEscalation, Memory.getSession, Memory.escalate.
  destruct (store w !! sessionId) as [s|] eqn:Hs; [|eauto].
  destruct (Memory.escalated (Memory.context s)); [eauto|].
  destruct (shouldEscalate config message s); [|eauto].
  simpl. eauto.
Qed.

(** The index of the agents: an agent is filed under its own id, and every
    agent of the list has its id in the index. *)
Lemma indexAgents_key l : forall key agent,
  indexAgents l !! key = Some agent -> id agent = key /\ In agent l.
Proof.
  unfold indexAgents.
  assert (forall (m : gmap string AgentConfig),
            (forall key agent, m !! key = Some agent -> id agent = key /\ In agent l) ->
            forall l', (forall a, In a l' -> In a l) ->
            forall key agent,
              fold_left (fun m agent => <[id agent := agent]> m) l' m !! key = Some agent ->
              id agent = key /\ In agent l) as H.
  { intros m Hm l'. revert m Hm. induction l' as [|a l' IH]; intros m Hm Hsub; [exact Hm|].
    simpl. apply IH; [|intros b Hb; apply Hsub; now right].
    intros key agent. destruct (decide (id a = key)) as [<-|Hne].
    - rewrite lookup_insert_eq. intros [= <-]. split; [reflexivity|]. apply Hsub. now left.
    - rewrite lookup_insert_ne by exact Hne. apply Hm. }
  apply (H ∅); [|auto]. intros key agent Hk. rewrite lookup_empty in Hk. discriminate.
Qed.

Lemma indexAgents_member l agent :
  In agent l -> is_Some (indexAgents l !! id agent).
Proof.
  unfold indexAgents.
  assert (forall l' (m : gmap string AgentConfig),
            In agent l' \/ is_Some (m !! id agent) ->
            is_Some (fold_left (fun m agent => <[id agent := agent]> m) l' m !! id agent))
    as H.
  { induction l' as [|a l' IH]; intros m Hm.
    - destruct Hm as [[]|Hm]. exact Hm.
    - simpl. apply IH. destruct Hm as [[->|Hin]|Hm].
      + right. rewrite lookup_insert_eq. eauto.
      + now left.
      + right. destruct (decide (id a = id agent)) as [Heq|Hne].
        * rewrite Heq, lookup_insert_eq. eauto.
        * now rewrite lookup_insert_ne. }
  intros Hin. apply H. now left.
Qed.

(** The agent [route] returns has an executor. *)
Lemma route_target_indexed config sessionId message now w r w' :
  route config sessionId message now w = Ok (r, w') ->
  exists agent,
    indexAgents (agents config) !! id (rr_targetAgent r) = Some agent /\
    In agent (agents config).
Proof.
  intros Hroute.
  assert (forall a : AgentConfig, is_Some (indexAgents (agents config) !! id a) ->
            exists agent, indexAgents (agents config) !! id a = Some agent /\
                          In agent (agents config)) as Hsome.
  { intros a [agent Ha]. exists agent. split; [exact Ha|].
    now apply (indexAgents_key _ _ _ Ha). }
  apply Hsome. apply OrchestratorFacts.route_target in Hroute.
  set (intent := Intent.classifyMessage message) in *.
  assert (forall a, theFallbackAgent config = Some a ->
            is_Some (indexAgents (agents config) !! id a)) as Hfb.
  { unfold theFallbackAgent. intros a.
    destruct (indexAgents (agents config) !! fallbackAgent config) as [b|] eqn:Hb.
    - intros [= <-]. destruct (indexAgents_key _ _ _ Hb) as [-> _]. eauto.
    - destruct (agents config) as [|h rest] eqn:Hl; [discriminate|].
      simpl. intros [= <-]. rewrite <- Hl. apply indexAgents_member. rewrite Hl. now left. }
  assert (forall rules acc,
            (forall a, fst acc = Some a -> is_Some (indexAgents (agents config) !! id a)) ->
            forall a, fst (fold_left (ruleStep config message intent) rules acc) = Some a ->
                      is_Some (indexAgents (agents config) !! id a)) as Hrules.
  { induction rules as [|rule rules IH]; intros acc Hacc; [exact Hacc|].
    simpl. apply IH. unfold ruleStep. destruct (_ && _); [|exact Hacc]. simpl.
    destruct (indexAgents (agents config) !! targetAgent rule) as [b|] eqn:Hb; [|exact Hacc].
    intros a [= <-]. destruct (indexAgents_key _ _ _ Hb) as [-> _]. eauto. }
  specialize (Hrules (routing config) (theFallbackAgent config, 0%float) Hfb).
  fold (selectByRules config message intent) in Hrules.
  revert Hroute. unfold continuity.
  destruct (Memory.getSession sessionId (store w)) as [s|]; [|apply Hrules].
  destruct (String.eqb _ ""); [apply Hrules|].
  destruct (indexAgents (agents config) !! Memory.currentAgent (Memory.context s))
    as [current|] eqn:Hcur; [|apply Hrules].
  destruct (isRelatedToCurrentAgent intent current); [|apply Hrules].
  intros [= <-]. destruct (indexAgents_key _ _ _ Hcur) as [-> _]. eauto.
Qed.

Section Failure.
Variable config : OrchestratorConfig.
Variable execute :
  AgentConfig -> string -> string -> World -> Result Exn AgentResponse * World.

(** X18. On a session of the store, with a configuration that has an agent,
    [handleMessage] fails only when the agent executor does: whatever it
    throws was thrown by the executor of an agent of the configuration, run
    for this session and message. Recording the message, the two escalation
    checks, routing and finding the executor of the routed agent never
    throw. *)
Theorem handleMessage_fails_only_with_agent (sessionId message : string)
    (now later : Z) (st st' : State) (s : Memory.Session) (e : Exn) :
  agents config <> [] ->
  Memory.getSession sessionId (store (world st)) = Some s ->
  handleMessage config execute sessionId message now later st = (Throw e, st') ->
  exists agent w w',
    In agent (agents config) /\
    execute agent sessionId message w = (Throw e, w') /\
    invoked st' = invoked st ++ [InvokedCheckEscalation; InvokedRoute;
                                 InvokedExecute (id agent)].
Proof.
  intros Hagents Hs. unfold handleMessage. rewrite Hs.
  destruct (Memory.isEscalated sessionId (store (world st))); [discriminate|].
  unfold Memory.addMessage. unfold Memory.getSession in Hs. rewrite Hs.
  set (w1 := {| store := _; tracer := _ |}).
  destruct (checkEscalation_returns config sessionId message None now w1)
    as (check & w2 & ->).
  destruct (er_escalated check); [discriminate|].
  destruct (TurnFacts.route_returns config sessionId message now w2 Hagents)
    as (routing & w3 & Hroute).
  rewrite Hroute.
  destruct (route_target_indexed _ _ _ _ _ _ _ Hroute) as (agent & Hagent & Hin).
  rewrite Hagent.
  destruct (execute agent sessionId message w3) as [[response|err] w4] eqn:Hexec.
  - destruct (checkEscalation_returns config sessionId message
                (Some (ar_message response)) later w4) as (post & w5 & ->).
    destruct (er_escalated post); discriminate.
  - intros [= <- <-]. exists agent, w3, w4. split; [exact Hin|]. split; [exact Hexec|].
    destruct (indexAgents_key _ _ _ Hagent) as [Hid _].
    simpl. rewrite Hid, <- !app_assoc. reflexivity.
Qed.

End Failure.

(** An executor whose language model cannot be reached. *)
Definition failingExecutor (agent : AgentConfig) (sessionId message : string) (w : World)
    : Result Exn AgentResponse * World :=
  (Throw (JsError "Error" "LLM API error: 503"), w).

Lemma handleMessage_fails_only_with_agent_witness :
  exists st' agent w w',
    handleMessage OrchestratorFacts.sampleConfig failingExecutor "session_1"
      "Where is my order #1234567?" 10 11 RuntimeFacts.sampleState
      = (Throw (JsError "Error" "LLM API error: 503"), st') /\
    In agent (agents OrchestratorFacts.sampleConfig) /\
    failingExecutor agent "session_1" "Where is my order #1234567?" w
      = (Throw (JsError "Error" "LLM API error: 503"), w').
Proof.
  destruct (handleMessage OrchestratorFacts.sampleConfig failingExecutor "session_1"
              "Where is my order #1234567?" 10 11 RuntimeFacts.sampleState)
    as [[reply|e] st'] eqn:Hrun; [vm_compute in Hrun; discriminate|].
  assert (e = JsError "Error" "LLM API error: 503") as He
    by (vm_compute in Hrun; injection Hrun as <- _; reflexivity).
  destruct (Memory.getSession "session_1" (store (world RuntimeFacts.sampleState)))
    as [s|] eqn:Hs; [|vm_compute in Hs; discriminate].
  assert (agents OrchestratorFacts.sampleConfig <> []) as Hagents by discriminate.
  destruct (handleMessage_fails_only_with_agent OrchestratorFacts.sampleConfig
              failingExecutor "session_1" "Where is my order #1234567?" 10 11
              RuntimeFacts.sampleState st' s e Hagents Hs Hrun)
    as (agent & w & w' & Hin & Hexec & _).
  exists st', agent, w, w'. rewrite <- He. split; [reflexivity|]. split; [exact Hin|].
  exact Hexec.
Defined.

End FailureFacts.


(** ** The agent executor *)

Module ExecutorFacts.

Import Orchestrator AgentExecutor.

Section Executor.
Variable L : Type.
Variable chat :
  list LLMMessage -> list ToolClient.ToolDefinition -> L -> Result Exn LLMResponse * L.
Variable parse : string -> Result Exn Value.
Variable stringify : ToolClient.ToolCallResult -> string.
Variable show : Value -> string.
Variable makeRequest :
  string -> string -> gmap string Value -> nat -> Result Exn ToolClient.ToolCallResult.
Variable clock : nat -> Z.
Variable buildSystemPrompt : AgentConfig -> Memory.Session -> string.
Variable agent : AgentConfig.
Variable maxToolCalls : Z.

Abbreviation State := (ExecState L).
Abbreviation runToolCall := (runToolCall L parse stringify show makeRequest clock).
Abbreviation runToolCalls := (runToolCalls L parse stringify show makeRequest clock).
Abbreviation toolLoop := (toolLoop L chat parse stringify show makeRequest clock).
Abbreviation execute :=
  (execute L chat parse stringify show makeRequest clock buildSystemPrompt agent
     maxToolCalls).

(** What the store and an [AgentResponse] keep of a tool call. *)
Definition storedCall (t : Memory.ToolCall) : string * Value * Memory.ToolResult :=
  (Memory.toolHandle t, Memory.params t, Memory.result t).

Definition returnedCall (c : ExecutedCall) : string * Value * Memory.ToolResult :=
  (executedTool c, executedParams c, toolResult (executedResult c)).

(** The session [sessionId] of the state holds the tool calls [before]
    followed by the calls [executed], and the messages [history]. *)
Definition logged (sessionId : string)
    (before : list (string * Value * Memory.ToolResult))
    (history : list Memory.Message) (executed : list ExecutedCall) (st : State) : Prop :=
  exists s,
    store (world st) !! sessionId = Some s /\
    map storedCall (Memory.toolCalls s) = before ++ map returnedCall executed /\
    Memory.messages s = history.

Lemma cacheToolResult_keeps s toolHandle result :
  Memory.toolCalls (Memory.cacheToolResult s toolHandle result) = Memory.toolCalls s /\
  Memory.messages (Memory.cacheToolResult s toolHandle result) = Memory.messages s.
Proof. unfold Memory.cacheToolResult. destruct (_ || _); split; reflexivity. Qed.

(** Where the executor can fail: the model; the arguments of a tool call
    that do not parse; and the arguments of a tool call that parse to a
    value that is no object, on which [in] or [Object.keys] throw a
    [TypeError]. *)
Inductive thrownBy (e : Exn) : Prop :=
| by_chat messages tools l l' : chat messages tools l = (Throw e, l') -> thrownBy e
| by_parse text : parse text = Throw e -> thrownBy e
| by_arguments text params message :
    parse text = Ok params ->
    properties params = None ->
    e = JsError "TypeError" message ->
    thrownBy e.

Lemma validateParamsThrows_spec toolHandle params e :
  validateParamsThrows show toolHandle params = Some e ->
  properties params = None /\ exists message, e = JsError "TypeError" message.
Proof.
  unfold validateParamsThrows.
  destruct (properties params); [discriminate|].
  destruct (firstParam toolHandle); [|discriminate].
  intros [= <-]. split; [reflexivity|]. eexists. reflexivity.
Qed.

Lemma runToolCall_spec sessionId toolCall messages executed st r st' :
  runToolCall sessionId toolCall messages executed st = (r, st') ->
  chats st' = chats st /\ llm st' = llm st /\
  forall before history,
    logged sessionId before history executed st ->
    (exists e, r = Throw e /\ thrownBy e) \/
    (exists messages' executed',
        r = Ok (messages', executed') /\
        logged sessionId before history executed' st' /\
        length executed' = Datatypes.S (length executed)).
Proof.
  unfold AgentExecutor.runToolCall, bindM, parseM, callTool, now, onStore, ret.
  destruct (parse (arguments toolCall)) as [params|e] eqn:Hparse.
  2:{ intros [= <- <-]. split; [reflexivity|]. split; [reflexivity|].
      intros before history _. left. exists e. split; [reflexivity|].
      eapply by_parse. exact Hparse. }
  destruct (validateParamsThrows show (functionName toolCall) params) as [error|] eqn:Hin.
  { intros [= <- <-]. split; [reflexivity|]. split; [reflexivity|].
    intros before history _. left. exists error. split; [reflexivity|].
    destruct (validateParamsThrows_spec _ _ _ Hin) as (Hnone & message & ->).
    eapply by_arguments; [exact Hparse | exact Hnone | reflexivity]. }
  destruct (ToolClient.execute makeRequest (functionName toolCall)
              (default ∅ (properties params))
              (clock (readings st)) (clock (Datatypes.S (readings st))) (env st))
    as [result env'] eqn:Hcall.
  cbn [world env llm readings chats store tracer].
  unfold Memory.recordToolCall.
  destruct (store (world st) !! sessionId) as [s|] eqn:Hs.
  2:{ intros [= <- <-]. cbn [chats llm]. split; [reflexivity|]. split; [reflexivity|].
      intros before history (s0 & Hs0 & _). cbn [world store] in *. congruence. }
  unfold traceToolCallM.
  destruct params as [| |b|x|text|items|fields];
    try (unfold onTracer; cbn [world store tracer env llm readings chats];
         intros [= <- <-]; cbn [chats llm];
         split; [reflexivity|]; split; [reflexivity|];
         intros before history (s0 & Hs0 & Hcalls & Hmsgs); right;
         rewrite Hs in Hs0; injection Hs0 as <-;
         eexists _, _; split; [reflexivity|]; split;
         [ eexists; cbn [world store]; split; [apply lookup_insert_eq|];
           match goal with
           | |- context [Memory.cacheToolResult ?session ?h ?res] =>
               destruct (cacheToolResult_keeps session h res) as [-> ->]
           end;
           cbn [Memory.toolCalls Memory.messages Memory.setLastActivity
                Memory.setToolCalls];
           rewrite !map_app, Hcalls, <- app_assoc; split; [reflexivity | exact Hmsgs]
         | rewrite length_app; simpl; lia ]);
    (intros [= <- <-]; cbn [chats llm]; split; [reflexivity|]; split; [reflexivity|];
     intros before history _; left; eexists; split; [reflexivity|];
     eapply by_arguments; [exact Hparse | reflexivity | reflexivity]).
Qed.

Lemma runToolCalls_spec sessionId calls : forall messages executed st r st',
  runToolCalls sessionId calls messages executed st = (r, st') ->
  chats st' = chats st /\ llm st' = llm st /\
  forall before history,
    logged sessionId before history executed st ->
    (exists e, r = Throw e /\ thrownBy e) \/
    (exists messages' executed',
        r = Ok (messages', executed') /\
        logged sessionId before history executed' st').
Proof.
  induction calls as [|toolCall calls IH]; intros messages executed st r st'.
  - intros [= <- <-]. split; [reflexivity|]. split; [reflexivity|].
    intros before history Hlog. right. eauto.
  - cbn [AgentExecutor.runToolCalls]. unfold bindM at 1.
    destruct (runToolCall sessionId toolCall messages executed st) as [r1 st1] eqn:Hone.
    destruct (runToolCall_spec _ _ _ _ _ _ _ Hone) as (Hchats1 & Hllm1 & Hlog1).
    destruct r1 as [[messages1 executed1]|e].
    + intros Hrest. destruct (IH _ _ _ _ _ Hrest) as (Hchats & Hllm & Hlog).
      split; [congruence|]. split; [congruence|].
      intros before history Hbefore.
      destruct (Hlog1 before history Hbefore)
        as [(e & He & _)|(m' & ex' & [= <- <-] & Hlogged & _)]; [discriminate|].
      now apply Hlog.
    + intros [= <- <-]. split; [exact Hchats1|]. split; [exact Hllm1|].
      intros before history Hbefore.
      destruct (Hlog1 before history Hbefore)
        as [(e' & [= <-] & Hthrown)|(m' & ex' & He & _)]; [|discriminate].
      left. exists e. split; [reflexivity | exact Hthrown].
Qed.

Lemma chatM_spec messages tools (st : State) :
  exists r l',
    chat messages tools (llm st) = (r, l') /\
    chatM L chat messages tools st
    = (r, {| world := world st; env := env st; llm := l'; readings := readings st;
             chats := chats st ++ [messages] |}).
Proof. unfold chatM. destruct (chat messages tools (llm st)) as [r l']. eauto. Qed.

Lemma logged_world sessionId before history executed (st st' : State) :
  world st' = world st ->
  logged sessionId before history executed st ->
  logged sessionId before history executed st'.
Proof. unfold logged. now intros ->. Qed.

Lemma toolLoop_spec sessionId tools fuel : forall response messages executed st r st',
  toolLoop fuel sessionId tools response messages executed st = (r, st') ->
  (length (chats st') <= length (chats st) + fuel)%nat /\
  (exists later, chats st' = chats st ++ later) /\
  forall before history,
    logged sessionId before history executed st ->
    (exists e, r = Throw e /\ thrownBy e) \/
    (exists response' executed',
        r = Ok (response', executed') /\
        logged sessionId before history executed' st').
Proof.
  induction fuel as [|fuel IH]; intros response messages executed st r st'.
  - cbn [AgentExecutor.toolLoop].
    assert (forall x : Result Exn (LLMResponse * list ExecutedCall) * State,
              x = (Ok (response, executed), st) -> x = (r, st') ->
              (length (chats st') <= length (chats st) + 0)%nat /\
              (exists later, chats st' = chats st ++ later) /\
              forall before history,
                logged sessionId before history executed st ->
                (exists e, r = Throw e /\ thrownBy e) \/
                (exists response' executed',
                    r = Ok (response', executed') /\
                    logged sessionId before history executed' st')) as Hdone.
    { intros x -> [= <- <-]. split; [lia|]. split; [exists []; now rewrite app_nil_r|].
      intros before history Hlog. right. eauto. }
    destruct (requested response) as [[|toolCall rest]|]; now apply Hdone.
  - cbn [AgentExecutor.toolLoop].
    assert (forall x : Result Exn (LLMResponse * list ExecutedCall) * State,
              x = (Ok (response, executed), st) -> x = (r, st') ->
              (length (chats st') <= length (chats st) + Datatypes.S fuel)%nat /\
              (exists later, chats st' = chats st ++ later) /\
              forall before history,
                logged sessionId before history executed st ->
                (exists e, r = Throw e /\ thrownBy e) \/
                (exists response' executed',
                    r = Ok (response', executed') /\
                    logged sessionId before history executed' st')) as Hdone.
    { intros x -> [= <- <-]. split; [lia|]. split; [exists []; now rewrite app_nil_r|].
      intros before history Hlog. right. eauto. }
    destruct (requested response) as [[|toolCall rest]|]; try now apply Hdone.
    clear Hdone. unfold bindM at 1.
    destruct (runToolCalls sessionId (toolCall :: rest) messages executed st)
      as [r1 st1] eqn:Hcalls.
    destruct (runToolCalls_spec _ _ _ _ _ _ _ Hcalls) as (Hchats1 & Hllm1 & Hlog1).
    destruct r1 as [[messages1 executed1]|e].
    + unfold bindM at 1.
      destruct (chatM_spec messages1 tools st1) as (r2 & l2 & Hchat & ->).
      destruct r2 as [response2|e].
      * intros Hrest. destruct (IH _ _ _ _ _ _ Hrest) as (Hlen & [later Hlater] & Hlog).
        cbn [chats] in Hlen, Hlater. rewrite length_app in Hlen. simpl in Hlen.
        split; [rewrite <- Hchats1; lia|].
        split; [exists ([messages1] ++ later); now rewrite Hlater, Hchats1, app_assoc|].
        intros before history Hbefore.
        destruct (Hlog1 before history Hbefore)
          as [(e & He & _)|(m' & ex' & [= <- <-] & Hlogged)]; [discriminate|].
        apply Hlog. eapply logged_world; [|exact Hlogged]. reflexivity.
      * intros [= <- <-]. cbn [chats]. rewrite length_app, Hchats1. simpl.
        split; [lia|]. split; [eauto|].
        intros before history Hbefore. left. exists e. split; [reflexivity|].
        eapply by_chat. exact Hchat.
    + intros [= <- <-]. split; [rewrite Hchats1; lia|].
      split; [exists []; now rewrite app_nil_r|].
      intros before history Hbefore.
      destruct (Hlog1 before history Hbefore)
        as [(e' & [= <-] & Hthrown)|(m' & ex' & He & _)]; [|discriminate].
      left. eauto.
Qed.

Lemma finalMessageOf_nonempty response : finalMessageOf response <> "".
Proof.
  unfold finalMessageOf. destruct (content response) as [text|]; [|discriminate].
  destruct (String.eqb text "") eqn:Heq; [discriminate|].
  now apply String.eqb_neq in Heq.
Qed.

(** The whole of [execute], on a session of the store. *)
Lemma execute_spec sessionId customerMessage (st : State) s r st' :
  Memory.getSession sessionId (store (world st)) = Some s ->
  execute sessionId customerMessage st = (r, st') ->
  (length (chats st') <= length (chats st) + 1 + Z.to_nat maxToolCalls)%nat /\
  (exists later,
      chats st' = chats st ++ buildMessages buildSystemPrompt agent s customerMessage
                              :: later) /\
  ((exists e, r = Throw e /\ thrownBy e) \/
   (exists response s' t,
       r = Ok response /\
       message response <> "" /\
       store (world st') !! sessionId = Some s' /\
       map storedCall (Memory.toolCalls s')
         = map storedCall (Memory.toolCalls s) ++ map returnedCall (toolCalls response) /\
       Memory.messages s'
         = Memory.messages s ++
           [{| Memory.role := Memory.Agent; Memory.content := message response;
               Memory.timestamp := t; Memory.metadata := None |}])).
Proof.
  intros Hs. unfold AgentExecutor.execute. rewrite Hs. unfold bindM at 1.
  destruct (chatM_spec (buildMessages buildSystemPrompt agent s customerMessage)
              (ToolClient.getAgentToolSchemas (tools agent)) st)
    as (r1 & l1 & Hchat & ->).
  destruct r1 as [response1|e].
  2:{ intros [= <- <-]. cbn [chats]. rewrite length_app. simpl.
      split; [lia|]. split; [eauto|]. left. exists e. split; [reflexivity|].
      eapply by_chat. exact Hchat. }
  unfold bindM at 1.
  destruct (toolLoop (Z.to_nat maxToolCalls) sessionId
              (ToolClient.getAgentToolSchemas (tools agent)) response1
              (buildMessages buildSystemPrompt agent s customerMessage) []
              {| world := world st; env := env st; llm := l1; readings := readings st;
                 chats := chats st ++
                          [buildMessages buildSystemPrompt agent s customerMessage] |})
    as [r2 st2] eqn:Hloop.
  destruct (toolLoop_spec _ _ _ _ _ _ _ _ _ Hloop) as (Hlen & [later Hlater] & Hlog).
  cbn [chats] in Hlen, Hlater. rewrite length_app in Hlen. simpl in Hlen.
  assert (logged sessionId (map storedCall (Memory.toolCalls s)) (Memory.messages s) []
            {| world := world st; env := env st; llm := l1; readings := readings st;
               chats := chats st ++
                        [buildMessages buildSystemPrompt agent s customerMessage] |})
    as Hinit.
  { exists s. cbn [world]. unfold Memory.getSession in Hs.
    split; [exact Hs|]. simpl. now rewrite app_nil_r. }
  destruct (Hlog _ _ Hinit) as [(e & -> & Hthrown)|(response2 & executed & -> & Hlogged)].
  { intros [= <- <-]. split; [lia|].
    split; [exists later; now rewrite Hlater, <- app_assoc|]. left. eauto. }
  destruct Hlogged as (s2 & Hs2 & Hcalls & Hmsgs).
  unfold bindM, now, onStore, onTracer, ret. cbn [world store tracer readings].
  unfold Memory.addMessage. rewrite Hs2.
  intros [= <- <-]. cbn [chats world store].
  split; [lia|]. split; [exists later; now rewrite Hlater, <- app_assoc|].
  right. eexists _, _, _. split; [reflexivity|]. cbn [message toolCalls].
  split; [apply finalMessageOf_nonempty|]. split; [apply lookup_insert_eq|].
  cbn [Memory.toolCalls Memory.messages Memory.setLastActivity Memory.setMessages].
  split; [exact Hcalls|]. now rewrite Hmsgs.
Qed.


(** X19. For a session of the store, one run of [execute], whether it returns or
    throws, calls the model at least once and at most [maxToolCalls] + 1
    times, first with the system prompt, the messages of the session and
    the customer message. *)
Theorem execute_calls_model_boundedly (sessionId customerMessage : string)
    (st : State) (s : Memory.Session) :
  Memory.getSession sessionId (store (world st)) = Some s ->
  exists later,
    chats (snd (execute sessionId customerMessage st))
      = chats st ++ buildMessages buildSystemPrompt agent s customerMessage :: later /\
    (length later <= Z.to_nat maxToolCalls)%nat.
Proof.
  intros Hs. destruct (execute sessionId customerMessage st) as [r st'] eqn:Hrun.
  destruct (execute_spec _ _ _ _ _ _ Hs Hrun) as (Hlen & [later Hlater] & _).
  exists later. split; [exact Hlater|]. simpl snd in *.
  rewrite Hlater, length_app in Hlen. simpl in Hlen. lia.
Qed.

(** X20. When [execute] returns, the reply is not empty and is the last message
    of the session, as an agent message; and the tool calls it returns are
    the ones it added to the session, in the same order, with the same
    tools, parameters and results. *)
Theorem execute_records_what_it_returns (sessionId customerMessage : string)
    (st st' : State) (s : Memory.Session) (response : AgentResponse) :
  Memory.getSession sessionId (store (world st)) = Some s ->
  execute sessionId customerMessage st = (Ok response, st') ->
  message response <> "" /\
  exists s' t,
    store (world st') !! sessionId = Some s' /\
    map storedCall (Memory.toolCalls s')
      = map storedCall (Memory.toolCalls s) ++ map returnedCall (toolCalls response) /\
    Memory.messages s'
      = Memory.messages s ++
        [{| Memory.role := Memory.Agent; Memory.content := message response;
            Memory.timestamp := t; Memory.metadata := None |}].
Proof.
  intros Hs Hrun.
  destruct (execute_spec _ _ _ _ _ _ Hs Hrun)
    as (_ & _ & [(e & He & _)|(r & s' & t & [= <-] & Hne & Hs' & Hcalls & Hmsgs)]);
    [discriminate|].
  split; [exact Hne|]. exists s', t. now repeat split.
Qed.

(** X21. On a session of the store, [execute] throws only what the model
    threw, what parsing the arguments of a tool call threw, or a [TypeError]
    on arguments that parsed to a value that is no object ([null], a number,
    a string, a boolean): a tool that fails, an unknown tool, invalid
    parameters in an object or an open circuit never make it throw. *)
Theorem execute_fails_only_by_model_or_arguments (sessionId customerMessage : string)
    (st st' : State) (s : Memory.Session) (e : Exn) :
  Memory.getSession sessionId (store (world st)) = Some s ->
  execute sessionId customerMessage st = (Throw e, st') ->
  thrownBy e.
Proof.
  intros Hs Hrun.
  destruct (execute_spec _ _ _ _ _ _ Hs Hrun)
    as (_ & _ & [(e' & [= <-] & Hthrown)|(r & s' & t & He & _)]);
    [exact Hthrown | discriminate].
Qed.

Definition userMessage (text : string) : LLMMessage :=
  {| llmRole := user; llmContent := Some text; tool_call_id := None;
     tool_calls := None |}.

(** X22. When the last message of the session is already the customer message
    [execute] is run for (as [handleMessage] leaves it), the conversation
    the model is first called with ends with that message twice. *)
Theorem execute_repeats_current_message (sessionId customerMessage : string)
    (st : State) (s : Memory.Session) (history : list Memory.Message)
    (heard : Memory.Message) :
  Memory.getSession sessionId (store (world st)) = Some s ->
  Memory.messages s = history ++ [heard] ->
  Memory.role heard = Memory.Customer ->
  Memory.content heard = customerMessage ->
  exists before later,
    chats (snd (execute sessionId customerMessage st))
      = chats st ++
        (before ++ [userMessage customerMessage; userMessage customerMessage]) :: later.
Proof.
  intros Hs Hmsgs Hrole Hcontent.
  destruct (execute sessionId customerMessage st) as [r st'] eqn:Hrun.
  destruct (execute_spec _ _ _ _ _ _ Hs Hrun) as (_ & [later Hlater] & _).
  pose (toLLM := fun msg : Memory.Message =>
                   {| llmRole := match Memory.role msg with
                                 | Memory.Customer => user
                                 | _ => assistant
                                 end;
                      llmContent := Some (Memory.content msg);
                      tool_call_id := None; tool_calls := None |}).
  exists ({| llmRole := system; llmContent := Some (buildSystemPrompt agent s);
             tool_call_id := None; tool_calls := None |} :: map toLLM history), later.
  cbn [snd]. rewrite Hlater. f_equal. f_equal.
  unfold buildMessages. fold toLLM. rewrite Hmsgs, map_app.
  cbn [map app]. unfold toLLM at 2. rewrite Hrole, Hcontent.
  unfold userMessage. rewrite <- app_assoc. reflexivity.
Qed.

End Executor.

(** Every tool of the catalogue has a parameter: for a tool that exists,
    arguments that are no object never get past [validateParams]. *)
Lemma known_tool_has_parameter toolHandle definition :
  ToolClient.getToolByHandle toolHandle = Some definition ->
  exists param, firstParam toolHandle = Some param.
Proof.
  intros H. unfold firstParam. rewrite H.
  apply find_some in H as [Hin _].
  unfold ToolClient.ALL_TOOLS, ToolClient.SHOPIFY_TOOLS, ToolClient.SKIO_TOOLS in Hin.
  simpl in Hin.
  repeat (destruct Hin as [<-|Hin]; [simpl; eauto|]). destruct Hin.
Qed.

Lemma callTool_on_no_object {L} show makeRequest clock toolHandle definition params
    (st : ExecState L) :
  ToolClient.getToolByHandle toolHandle = Some definition ->
  properties params = None ->
  exists message,
    callTool L show makeRequest clock toolHandle params st
      = (Throw (JsError "TypeError" message), st).
Proof.
  intros Hknown Hnone. destruct (known_tool_has_parameter _ _ Hknown) as [param Hparam].
  unfold callTool, validateParamsThrows. rewrite Hnone, Hparam. eexists. reflexivity.
Qed.

(** A scripted model: asked first, it wants the order looked up; asked
    again, it answers. Its state counts the calls. *)
Definition lookupCall : LLMToolCall :=
  {| callId := "call_0"; functionName := "shopify_get_order_details";
     arguments := "{orderId: #1234567}" |}.

Definition scriptedChat (messages : list LLMMessage)
    (tools : list ToolClient.ToolDefinition) (asked : nat)
    : Result Exn LLMResponse * nat :=
  (match asked with
   | O => Ok {| content := None; requested := Some [lookupCall] |}
   | _ => Ok {| content := Some "Your order has shipped."; requested := None |}
   end, Datatypes.S asked).

(** A model that cannot be reached. *)
Definition unreachableChat (messages : list LLMMessage)
    (tools : list ToolClient.ToolDefinition) (asked : nat)
    : Result Exn LLMResponse * nat :=
  (Throw (JsError "Error" "LLM API error: 503"), Datatypes.S asked).

(** A model that asks for the same look-up with arguments that are JSON,
    but no object. *)
Definition nullCall : LLMToolCall :=
  {| callId := "call_0"; functionName := "shopify_get_order_details";
     arguments := "null" |}.

Definition carelessChat (messages : list LLMMessage)
    (tools : list ToolClient.ToolDefinition) (asked : nat)
    : Result Exn LLMResponse * nat :=
  (match asked with
   | O => Ok {| content := None; requested := Some [nullCall] |}
   | _ => Ok {| content := Some "Your order has shipped."; requested := None |}
   end, Datatypes.S asked).

Definition sampleParse (text : string) : Result Exn Value :=
  if String.eqb text "null" then Ok VNull
  else Ok (VObject [("orderId", VString "#1234567")]).

(** The text of the values printed in these runs. *)
Definition sampleShow (v : Value) : string :=
  match v with
  | VNull => "null"
  | VBool true => "true"
  | VBool false => "false"
  | VString s => s
  | _ => "undefined"
  end.

Definition sampleStringify (r : ToolClient.ToolCallResult) : string :=
  if ToolClient.success r then "{success: true}" else "{success: false}".

Definition sampleClock (k : nat) : Z := 100 + Z.of_nat k.

Definition samplePrompt (agent : AgentConfig) (s : Memory.Session) : string :=
  systemPrompt agent.

(** The sample session after [handleMessage] recorded the customer message. *)
Definition heardState : ExecState nat :=
  {| world :=
       {| store := OrchestratorFacts.unwrap
                     (Memory.addMessage "session_1" Memory.Customer
                        "Where is my order #1234567?" None 10
                        (store (Runtime.world RuntimeFacts.sampleState)));
          tracer := Tracing.initSession "session_1" ∅ |};
     env := {| ToolClient.breaker := CircuitFacts.freshToolBreaker;
               ToolClient.effects := [] |};
     llm := 0%nat; readings := 0%nat; chats := [] |}.

Definition sampleExecute (chat : list LLMMessage -> list ToolClient.ToolDefinition ->
                                 nat -> Result Exn LLMResponse * nat)
    : ExecState nat -> Result Exn AgentResponse * ExecState nat :=
  execute nat chat sampleParse sampleStringify sampleShow ToolClientFacts.alwaysAnswers
    sampleClock samplePrompt OrchestratorFacts.orderAgent 5 "session_1"
    "Where is my order #1234567?".

Lemma execute_calls_model_boundedly_witness :
  exists s later,
    Memory.getSession "session_1" (store (world heardState)) = Some s /\
    chats (snd (sampleExecute scriptedChat heardState))
      = buildMessages samplePrompt OrchestratorFacts.orderAgent s
          "Where is my order #1234567?" :: later /\
    (length later <= 5)%nat.
Proof.
  destruct (Memory.getSession "session_1" (store (world heardState))) as [s|] eqn:Hs;
    [|vm_compute in Hs; discriminate].
  destruct (execute_calls_model_boundedly nat scriptedChat sampleParse sampleStringify
              sampleShow ToolClientFacts.alwaysAnswers sampleClock samplePrompt
              OrchestratorFacts.orderAgent 5 "session_1" "Where is my order #1234567?"
              heardState s Hs) as (later & Hchats & Hlen).
  exists s, later. split; [reflexivity|]. split; [exact Hchats | exact Hlen].
Defined.

Lemma execute_records_what_it_returns_witness :
  exists response st' s',
    sampleExecute scriptedChat heardState = (Ok response, st') /\
    message response = "Your order has shipped." /\
    map executedTool (toolCalls response) = ["shopify_get_order_details"] /\
    store (world st') !! "session_1" = Some s' /\
    map Memory.toolHandle (Memory.toolCalls s') = ["shopify_get_order_details"] /\
    length (Memory.messages s') = 2%nat.
Proof.
  destruct (sampleExecute scriptedChat heardState) as [[response|e] st'] eqn:Hrun;
    [|vm_compute in Hrun; discriminate].
  destruct (Memory.getSession "session_1" (store (world heardState))) as [s|] eqn:Hs;
    [|vm_compute in Hs; discriminate].
  destruct (execute_records_what_it_returns _ _ _ _ _ _ _ _ _ _ _ _ _ _ _ _ Hs Hrun)
    as (_ & s' & t & Hs' & Hcalls & Hmsgs).
  assert (message response = "Your order has shipped." /\
          map executedTool (toolCalls response) = ["shopify_get_order_details"]) as [Hm Ht].
  { vm_compute in Hrun. injection Hrun as <- _. split; reflexivity. }
  assert (length (Memory.toolCalls s) = 0%nat /\ length (Memory.messages s) = 1%nat)
    as [Hnone Hone].
  { vm_compute in Hs. injection Hs as <-. split; reflexivity. }
  exists response, st', s'. split; [reflexivity|]. split; [exact Hm|]. split; [exact Ht|].
  split; [exact Hs'|]. split.
  - apply (f_equal (map (fun c => fst (fst c)))) in Hcalls.
    rewrite map_app, !map_map in Hcalls. simpl in Hcalls.
    destruct (Memory.toolCalls s); [|discriminate Hnone]. simpl in Hcalls.
    etransitivity; [exact Hcalls | exact Ht].
  - rewrite Hmsgs, length_app, Hone. reflexivity.
Defined.

Lemma execute_fails_only_by_model_or_arguments_witness :
  (exists st',
      sampleExecute unreachableChat heardState
        = (Throw (JsError "Error" "LLM API error: 503"), st') /\
      thrownBy nat unreachableChat sampleParse (JsError "Error" "LLM API error: 503")) /\
  (exists st',
      sampleExecute carelessChat heardState
        = (Throw (JsError "TypeError"
                    "Cannot use 'in' operator to search for 'orderId' in null"), st') /\
      thrownBy nat carelessChat sampleParse
        (JsError "TypeError"
           "Cannot use 'in' operator to search for 'orderId' in null")).
Proof.
  destruct (Memory.getSession "session_1" (store (world heardState))) as [s|] eqn:Hs;
    [|vm_compute in Hs; discriminate].
  split.
  - destruct (sampleExecute unreachableChat heardState) as [[response|e] st'] eqn:Hrun;
      [vm_compute in Hrun; discriminate|].
    assert (e = JsError "Error" "LLM API error: 503") as He
      by (vm_compute in Hrun; injection Hrun as <- _; reflexivity).
    exists st'. rewrite <- He. split; [reflexivity|].
    exact (execute_fails_only_by_model_or_arguments _ _ _ _ _ _ _ _ _ _ _ _ _ _ _ _
             Hs Hrun).
  - destruct (sampleExecute carelessChat heardState) as [[response|e] st'] eqn:Hrun;
      [vm_compute in Hrun; discriminate|].
    assert (e = JsError "TypeError"
                  "Cannot use 'in' operator to search for 'orderId' in null") as He
      by (vm_compute in Hrun; injection Hrun as <- _; reflexivity).
    exists st'. rewrite <- He. split; [reflexivity|].
    exact (execute_fails_only_by_model_or_arguments _ _ _ _ _ _ _ _ _ _ _ _ _ _ _ _
             Hs Hrun).
Defined.

Lemma execute_repeats_current_message_witness :
  exists before later,
    chats (snd (sampleExecute scriptedChat heardState))
      = (before ++ [userMessage "Where is my order #1234567?";
                    userMessage "Where is my order #1234567?"]) :: later.
Proof.
  destruct (Memory.getSession "session_1" (store (world heardState))) as [s|] eqn:Hs;
    [|vm_compute in Hs; discriminate].
  assert (exists heard,
             Memory.messages s = [] ++ [heard] /\ Memory.role heard = Memory.Customer /\
             Memory.content heard = "Where is my order #1234567?") as (heard & Hm & Hr & Hc).
  { vm_compute in Hs. injection Hs as <-. eexists. split; [reflexivity|].
    split; reflexivity. }
  exact (execute_repeats_current_message nat scriptedChat sampleParse sampleStringify
           sampleShow ToolClientFacts.alwaysAnswers sampleClock samplePrompt
           OrchestratorFacts.orderAgent 5 "session_1" "Where is my order #1234567?"
           heardState s [] heard Hs Hm Hr Hc).
Defined.

End ExecutorFacts.


(** ** From the runtime to the executor *)

Module HandoverFacts.

Import Orchestrator Runtime.

(** The last message of the session is the customer message [text]. *)
Definition heard (sessionId text : string) (w : World) : Prop :=
  exists s history t,
    store w !! sessionId = Some s /\
    Memory.messages s
      = history ++ [{| Memory.role := Memory.Customer; Memory.content := text;
                       Memory.timestamp := t; Memory.metadata := None |}].

Lemma checkEscalation_declines config sessionId message agentResponse now w result w' :
  checkEscalation config sessionId message agentResponse now w = Ok (result, w') ->
  er_escalated result = false ->
  w' = w.
Proof.
  unfold checkEscalation.
  destruct (Memory.getSession sessionId (store w)) as [s|]; [|now intros [= <- <-]].
  destruct (Memory.escalated (Memory.context s)); [intros [= <- <-]; discriminate|].
  destruct (shouldEscalate config message s); [|now intros [= <- <-]].
  destruct (Memory.escalate _ _ _ _ _); simpl; [|discriminate].
  intros [= <- <-]. discriminate.
Qed.

Section Handover.
Variable config : OrchestratorConfig.

(** X23. [handleMessage] runs the executor only on a world in which the session
    ends with the customer message of the turn: two executors that agree on
    such worlds give the same turn. *)
Theorem handleMessage_hands_over_heard_message
    (execute execute' :
       AgentConfig -> string -> string -> World -> Result Exn AgentResponse * World)
    (sessionId message : string) (now later : Z) (st : State) :
  (forall agent w,
     heard sessionId message w ->
     execute agent sessionId message w = execute' agent sessionId message w) ->
  handleMessage config execute sessionId message now later st
  = handleMessage config execute' sessionId message now later st.
Proof.
  intros Hagree. unfold handleMessage.
  destruct (Memory.getSession sessionId (store (world st))) as [s|] eqn:Hs; [|reflexivity].
  destruct (Memory.isEscalated sessionId (store (world st))); [reflexivity|].
  unfold Memory.addMessage. unfold Memory.getSession in Hs. rewrite Hs.
  set (s1 := Memory.extractEntities _ message).
  set (w1 := {| store := <[sessionId := s1]> (store (world st)); tracer := _ |}).
  destruct (checkEscalation config sessionId message None now w1)
    as [[check w2]|e] eqn:Hcheck; [|reflexivity].
  destruct (er_escalated check) eqn:Hesc; [reflexivity|].
  pose proof (checkEscalation_declines _ _ _ _ _ _ _ _ Hcheck Hesc) as ->.
  destruct (route config sessionId message now w1) as [[routing w3]|e] eqn:Hroute;
    [|reflexivity].
  destruct (indexAgents (agents config) !! id (rr_targetAgent routing)) as [agent|];
    [|reflexivity].
  rewrite Hagree; [reflexivity|].
  assert (Memory.getSession sessionId (store w1) = Some s1) as Hs1
    by apply lookup_insert_eq.
  destruct (TurnFacts.route_world _ _ _ _ _ _ _ _ Hroute Hs1) as (_ & Hstore & _).
  eexists _, (Memory.messages s), now. rewrite Hstore.
  split; [apply lookup_insert_eq|]. reflexivity.
Qed.

End Handover.

(** An executor that insists on having heard the message. *)
Definition heardb (sessionId text : string) (w : World) : bool :=
  match store w !! sessionId with
  | Some s =>
      match last (Memory.messages s) with
      | Some msg =>
          match Memory.role msg with
          | Memory.Customer => String.eqb (Memory.content msg) text
          | _ => false
          end
      | None => false
      end
  | None => false
  end.

Definition strictExecutor (agent : AgentConfig) (sessionId message : string) (w : World)
    : Result Exn AgentResponse * World :=
  if heardb sessionId message w then RuntimeFacts.politeExecutor agent sessionId message w
  else (Throw (JsError "Error" "message not recorded"), w).

Lemma handleMessage_hands_over_heard_message_witness :
  handleMessage OrchestratorFacts.sampleConfig strictExecutor "session_1"
    "Where is my order #1234567?" 10 11 RuntimeFacts.sampleState
  = handleMessage OrchestratorFacts.sampleConfig RuntimeFacts.politeExecutor "session_1"
      "Where is my order #1234567?" 10 11 RuntimeFacts.sampleState.
Proof.
  apply handleMessage_hands_over_heard_message.
  intros agent w (s & history & t & Hs & Hmsgs). unfold strictExecutor, heardb.
  rewrite Hs, Hmsgs, last_snoc. reflexivity.
Defined.

End HandoverFacts.


(** ** Retry verdicts, reset time, cut-off *)

Module ProtectionFacts.

Import Resilience.

(** *** Retry: the first verdict ends it *)

Section Verdict.
Context {S T : Type}.
Variable fn : S -> Result Exn T * S.
Variable cfg : RetryConfig.

(** A result [withRetry] does not retry after: a value, or an error the
    retry predicate refuses. *)
Definition decisive (r : Result Exn T) : Prop :=
  match r with
  | Ok _ => True
  | Throw e => retryOn cfg e = false
  end.

Lemma retryLoop_verdict (k : nat) :
  forall fuel attempt delay lastError trace st,
    (k <= fuel)%nat ->
    attempt + Z.of_nat fuel = maxAttempts cfg ->
    (forall j, (j < k)%nat ->
       exists e, fst (fn (RetryFacts.after fn j st)) = Throw e /\ retryOn cfg e = true) ->
    decisive (fst (fn (RetryFacts.after fn k st))) ->
    exists trace',
      retryLoop fn cfg (Datatypes.S fuel) attempt delay lastError trace st
        = (fst (fn (RetryFacts.after fn k st)), trace',
           RetryFacts.after fn (Datatypes.S k) st) /\
      calls trace' = (calls trace + Datatypes.S k)%nat /\
      sleeps trace' = sleeps trace ++ RetryFacts.backoff cfg k delay.
Proof.
  induction k as [|k IH]; intros fuel attempt delay lastError trace st Hk Hn Hfail Hlast.
  - simpl in *. destruct (fn st) as [[v|e] st'] eqn:Hfn; simpl in *.
    + eexists. split; [reflexivity|].
      rewrite RetryFacts.calls_app, RetryFacts.sleeps_app. simpl. now rewrite app_nil_r.
    + rewrite Hlast. simpl. eexists. split; [reflexivity|].
      rewrite RetryFacts.calls_app, RetryFacts.sleeps_app. simpl. now rewrite app_nil_r.
  - destruct fuel as [|fuel]; [lia|].
    destruct (Hfail 0%nat) as (e & He & Hr); [lia|]. simpl in He.
    change (retryLoop fn cfg (Datatypes.S (Datatypes.S fuel)) attempt delay lastError trace st)
      with (match fn st with
            | (Ok v, st') => (Ok v, trace ++ [Called], st')
            | (Throw error, st') =>
                if negb (retryOn cfg error) || (attempt =? maxAttempts cfg)
                then (Throw error, trace ++ [Called], st')
                else retryLoop fn cfg (Datatypes.S fuel) (attempt + 1)
                       (Math_min (delay * backoffMultiplier cfg) (maxDelayMs cfg))
                       error (trace ++ [Called; Slept delay]) st'
            end).
    change (RetryFacts.after fn (Datatypes.S (Datatypes.S k)) st)
      with (RetryFacts.after fn (Datatypes.S k) (snd (fn st))).
    change (RetryFacts.after fn (Datatypes.S k) st)
      with (RetryFacts.after fn k (snd (fn st))) in *.
    assert (forall j, (j < k)%nat ->
              exists e', fst (fn (RetryFacts.after fn j (snd (fn st)))) = Throw e' /\
                         retryOn cfg e' = true) as Hfail'.
    { intros j Hj. apply (Hfail (Datatypes.S j)). lia. }
    destruct (fn st) as [r st'] eqn:Hfn. simpl in He. subst r. simpl snd in *.
    rewrite Hr. simpl negb.
    assert ((attempt =? maxAttempts cfg) = false) as -> by (apply Z.eqb_neq; lia).
    simpl orb.
    destruct (IH fuel (attempt + 1)
                (Math_min (delay * backoffMultiplier cfg) (maxDelayMs cfg))
                e (trace ++ [Called; Slept delay]) st') as (trace' & Hrun & Hc & Hs);
      [lia | lia | exact Hfail' | exact Hlast |].
    exists trace'. split; [exact Hrun|]. split.
    + rewrite Hc, RetryFacts.calls_app. change (calls [Called; Slept delay]) with 1%nat. lia.
    + rewrite Hs, RetryFacts.sleeps_app. simpl. now rewrite <- app_assoc.
Qed.

End Verdict.

(** X24. [withRetry] stops at the first call that returns a value or throws an
    error the retry predicate refuses: when the first [k] calls throw
    retryable errors and call [k + 1] (still within [maxAttempts]) does not,
    the result is the result of that call, [fn] was called [k + 1] times and
    [withRetry] slept [k] times, with the back-off delays: the caller's
    [initialDelayMs] (or 100) first, then each time the delay before times
    the caller's [backoffMultiplier] (or 2), capped at the caller's
    [maxDelayMs] (or 5000). In particular a first success, or a first error
    that is not retryable, costs one call and no sleep. *)
Theorem withRetry_stops_at_first_verdict {S T : Type}
    (fn : S -> Result Exn T * S) (config : PartialRetryConfig) (st : S) (k : nat) :
  let cfg := mergeRetryConfig config in
  Z.of_nat k < maxAttempts cfg ->
  (forall j, (j < k)%nat ->
     exists e, fst (fn (RetryFacts.after fn j st)) = Throw e /\ retryOn cfg e = true) ->
  decisive cfg (fst (fn (RetryFacts.after fn k st))) ->
  exists trace,
    withRetry fn config st
      = (fst (fn (RetryFacts.after fn k st)), trace,
         RetryFacts.after fn (Datatypes.S k) st) /\
    calls trace = Datatypes.S k /\
    sleeps trace = RetryFacts.backoff cfg k (initialDelayMs cfg) /\
    length (sleeps trace) = k /\
    ((1 <= k)%nat ->
     sleeps trace !! 0%nat = Some (default 100%float (initialDelayMs' config))) /\
    (forall i d d',
        sleeps trace !! i = Some d ->
        sleeps trace !! (Datatypes.S i) = Some d' ->
        let factor := default 2%float (backoffMultiplier' config) in
        let cap := default 5000%float (maxDelayMs' config) in
        (PrimFloat.ltb (d * factor) cap = true -> d' = (d * factor)%float) /\
        (PrimFloat.ltb cap (d * factor) = true -> d' = cap) /\
        (PrimFloat.is_nan d' = false -> PrimFloat.leb d' cap = true)).
Proof.
  intros cfg Hk Hfail Hlast. unfold withRetry, withRetryCfg. fold cfg.
  destruct (Z.to_nat (maxAttempts cfg)) as [|fuel] eqn:Hfuel; [lia|].
  destruct (retryLoop_verdict fn cfg k fuel 1 (initialDelayMs cfg) (Thrown VUndefined) []
              st) as (trace & Hrun & Hc & Hs); [lia | lia | exact Hfail | exact Hlast |].
  exists trace. split; [exact Hrun|]. split; [exact Hc|]. simpl app in Hs.
  split; [exact Hs|]. rewrite Hs.
  split; [apply RetryFacts.backoff_length|]. split.
  - intros Hpos. destruct k; [lia|]. reflexivity.
  - intros i d d' H1 H2. cbv zeta.
    exact (RetryFacts.backoff_capped cfg k _ i d d' H1 H2).
Qed.

(** A function that fails twice with a network error and then answers, and
    one that fails three times: long enough for the delay to reach a cap of
    two and a half seconds. *)
Definition recovers (n : nat) : Result Exn string * nat :=
  (if (n <? 2)%nat
   then Throw (MASError "E2006" "Network error: socket hang up" true true)
   else Ok "done",
   Datatypes.S n).

Definition recoversLate (n : nat) : Result Exn string * nat :=
  (if (n <? 3)%nat
   then Throw (MASError "E2006" "Network error: socket hang up" true true)
   else Ok "done",
   Datatypes.S n).

Lemma withRetry_stops_at_first_verdict_witness :
  (exists trace,
      withRetry recovers noRetryOverrides 0%nat = (Ok "done", trace, 3%nat) /\
      calls trace = 3%nat /\
      sleeps trace = [100%float; 200%float]) /\
  (exists trace,
      withRetry recoversLate RetryFacts.patientRetry 0%nat = (Ok "done", trace, 4%nat) /\
      calls trace = 4%nat /\
      sleeps trace = [1000%float; 2000%float; 2500%float]).
Proof.
  split.
  - destruct (withRetry_stops_at_first_verdict recovers noRetryOverrides 0%nat 2)
      as (trace & Hrun & Hc & Hs & _).
    + simpl. lia.
    + intros j Hj. destruct j as [|[|j]]; [| |lia]; eexists; split; reflexivity.
    + exact I.
    + exists trace. split; [exact Hrun|]. split; [exact Hc|].
      rewrite Hs. vm_compute. reflexivity.
  - destruct (withRetry_stops_at_first_verdict recoversLate RetryFacts.patientRetry
                0%nat 3) as (trace & Hrun & Hc & Hs & _).
    + simpl. lia.
    + intros j Hj. destruct j as [|[|[|j]]]; [| | |lia]; eexists; split; reflexivity.
    + exact I.
    + exists trace. split; [exact Hrun|]. split; [exact Hc|].
      rewrite Hs. vm_compute. reflexivity.
Defined.

(** With [maxAttempts] below 1 the loop is not entered: [fn] is never
    called, and what is thrown is the initial [lastError], [undefined]. *)
Theorem withRetry_without_attempts {S T : Type}
    (fn : S -> Result Exn T * S) (config : PartialRetryConfig) (st : S) :
  maxAttempts (mergeRetryConfig config) <= 0 ->
  withRetry fn config st = (Throw (Thrown VUndefined), [], st).
Proof.
  intros Hmax. unfold withRetry, withRetryCfg.
  replace (Z.to_nat (maxAttempts (mergeRetryConfig config))) with 0%nat by lia.
  reflexivity.
Qed.

Definition noAttempts : PartialRetryConfig :=
  {| maxAttempts' := Some 0; initialDelayMs' := None; maxDelayMs' := None;
     backoffMultiplier' := None; retryOn' := None |}.

Lemma withRetry_without_attempts_witness :
  withRetry recovers noAttempts 0%nat = (Throw (Thrown VUndefined), [], 0%nat).
Proof. apply withRetry_without_attempts. simpl. lia. Defined.

(** *** Rate limiter: the reset time is enough *)

Lemma oldest_spec others : forall first,
  (oldest first others = first \/ In (oldest first others) others) /\
  oldest first others <= first /\
  (forall t, In t others -> oldest first others <= t).
Proof.
  unfold oldest. induction others as [|x others IH]; intros first; simpl.
  - split; [now left|]. split; [lia | intros t []].
  - destruct (IH (Z.min first x)) as (Hin & Hle & Hall).
    split; [|split].
    + destruct Hin as [Heq|Hin]; [|right; now right].
      rewrite Heq. destruct (Z.min_spec first x) as [[_ ->]|[_ ->]]; [now left|].
      right. now left.
    + lia.
    + intros t [<-|Ht]; [lia | now apply Hall].
Qed.

Lemma filter_drops {A} (f : A -> bool) (l : list A) (x : A) :
  In x l -> f x = false -> (length (List.filter f l) < length l)%nat.
Proof.
  induction l as [|y l IH]; intros Hin Hf; [destruct Hin|]. simpl.
  destruct Hin as [->|Hin].
  - rewrite Hf. pose proof (filter_length_le f l). lia.
  - specialize (IH Hin Hf). destruct (f y); simpl; lia.
Qed.

Lemma filter_all {A} (f : A -> bool) (l : list A) :
  length (List.filter f l) = length l -> forall x, In x l -> f x = true.
Proof.
  intros Hlen x Hin. destruct (f x) eqn:Hf; [reflexivity|].
  pose proof (filter_drops f l x Hin Hf). lia.
Qed.

(** A limiter reached from a new one never holds more than [maxRequests]
    timestamps for a key. *)
Lemma limiterRun_bounded cfg calls :
  1 <= maxRequests cfg ->
  forall key,
    Z.of_nat (length (default [] (requests (fst (ResilienceFacts.limiterRun calls
                                                   (newRateLimiter cfg))) !! key)))
      <= maxRequests cfg.
Proof.
  intros Hmax. induction calls as [|[k t] calls IH] using rev_ind; intros key.
  - simpl. rewrite lookup_empty. simpl. lia.
  - rewrite ResilienceFacts.limiterRun_snoc.
    pose proof (ResilienceFacts.limiterRun_config calls (newRateLimiter cfg)) as Hcfg.
    destruct (ResilienceFacts.limiterRun calls (newRateLimiter cfg)) as [rl log].
    simpl in IH, Hcfg. unfold ResilienceFacts.limiterStep, isAllowed. simpl fst. simpl snd.
    rewrite Hcfg. simpl limiterConfig.
    destruct (_ >=? _) eqn:Hge; simpl; [apply IH|].
    rewrite Z.geb_leb in Hge. apply Z.leb_gt in Hge.
    destruct (decide (k = key)) as [->|Hne].
    + rewrite lookup_insert_eq. simpl. rewrite length_app. simpl. lia.
    + rewrite lookup_insert_ne by exact Hne. apply IH.
Qed.

(** X25. A call refused at [now] has a positive reset time, and the same call
    made that much later is granted: for every limiter reached from a new
    one by calls of [isAllowed], with [maxRequests] at least 1. *)
Theorem refused_call_is_granted_after_reset_time (cfg : RateLimiterConfig)
    (calls : list (string * Z)) (key : string) (now : Z) :
  1 <= maxRequests cfg ->
  let rl := fst (ResilienceFacts.limiterRun calls (newRateLimiter cfg)) in
  fst (isAllowed now key rl) = false ->
  0 < getResetTime now key rl /\
  fst (isAllowed (now + getResetTime now key rl) key rl) = true.
Proof.
  intros Hmax rl Hrefused.
  pose proof (limiterRun_bounded cfg calls Hmax key) as Hbound. fold rl in Hbound.
  pose proof (ResilienceFacts.limiterRun_config calls (newRateLimiter cfg)) as Hcfg.
  fold rl in Hcfg. simpl in Hcfg.
  unfold isAllowed, inWindow in Hrefused. rewrite Hcfg in Hrefused.
  destruct (_ >=? _) eqn:Hge in Hrefused; [|discriminate].
  rewrite Z.geb_leb in Hge. apply Z.leb_le in Hge.
  unfold getResetTime, isAllowed, inWindow. rewrite Hcfg.
  set (stored := default [] (requests rl !! key)) in *.
  pose proof (filter_length_le (fun t => now - windowMs cfg <? t) stored) as Hle.
  assert (length (List.filter (fun t => now - windowMs cfg <? t) stored) = length stored)
    as Hall by lia.
  destruct stored as [|first others] eqn:Hstored; [simpl in Hge; lia|].
  destruct (oldest_spec others first) as (Hin & Hfirst & Hothers).
  assert (In (oldest first others) (first :: others)) as Hmember
    by (destruct Hin as [->|Hin]; [now left | now right]).
  pose proof (filter_all _ _ Hall _ Hmember) as Hinside. apply Z.ltb_lt in Hinside.
  rewrite Z.max_r by lia. split; [lia|].
  replace (now + (oldest first others + windowMs cfg - now) - windowMs cfg)
    with (oldest first others) by lia.
  assert ((oldest first others <? oldest first others) = false) as Hout
    by (apply Z.ltb_ge; lia).
  pose proof (filter_drops (fun t => oldest first others <? t) (first :: others)
                (oldest first others) Hmember Hout) as Hless.
  destruct (_ >=? _) eqn:Hge' ; [|reflexivity].
  rewrite Z.geb_leb in Hge'. apply Z.leb_le in Hge'. lia.
Qed.

Lemma refused_call_is_granted_after_reset_time_witness :
  let rl := fst (ResilienceFacts.limiterRun ResilienceFacts.burst
                   (newRateLimiter ResilienceFacts.tightLimit)) in
  fst (isAllowed 3000 "session_1" rl) = false /\
  getResetTime 3000 "session_1" rl = 58000 /\
  fst (isAllowed 61000 "session_1" rl) = true.
Proof.
  intros rl.
  assert (fst (isAllowed 3000 "session_1" rl) = false) as Hrefused
    by (vm_compute; reflexivity).
  assert (getResetTime 3000 "session_1" rl = 58000) as Hreset by (vm_compute; reflexivity).
  split; [exact Hrefused|]. split; [exact Hreset|].
  destruct (refused_call_is_granted_after_reset_time ResilienceFacts.tightLimit
              ResilienceFacts.burst "session_1" 3000) as [_ Hgranted].
  - simpl. lia.
  - exact Hrefused.
  - fold rl in Hgranted. rewrite Hreset in Hgranted. exact Hgranted.
Defined.

(** *** Circuit breaker: a failing service is cut off *)

Section CutOff.
Context {S T : Type}.
Variable fn : S -> Result Exn T * S.








End CutOff.



End ProtectionFacts.


(** ** Generated and validated configurations *)

Module GeneratorFacts.

Import Orchestrator Generator.

Lemma existsb_find {A} (f : A -> bool) (l : list A) :
  existsb f l = true <-> is_Some (List.find f l).
Proof.
  induction l as [|x l IH]; simpl.
  - split; [discriminate | intros [y Hy]; discriminate].
  - destruct (f x); simpl; [split; eauto | exact IH].
Qed.

Lemma flat_map_nil {A B} (f : A -> list B) (l : list A) :
  flat_map f l = [] <-> forall x, In x l -> f x = [].
Proof.
  induction l as [|x l IH]; simpl.
  - split; [intros _ y [] | reflexivity].
  - split.
    + intros H. apply app_eq_nil in H as [Hx Hl]. intros y [<-|Hy]; [exact Hx|].
      now apply IH.
    + intros H. rewrite (H x (or_introl eq_refl)). simpl. apply IH.
      intros y Hy. apply H. now right.
Qed.

(** X27. [validateMASConfig] accepts a configuration exactly when it has an
    agent, a routing rule and an escalation condition, and every tool of
    every agent is a tool of the catalogue (so that the tool client finds
    it). A configuration it accepts can be routed with: [route] returns for
    every message. *)
Theorem validateMASConfig_characterised (config : MASConfig) :
  let o := orchestrator config in
  (fst (validateMASConfig config) = true <->
   agents o <> [] /\
   (forall agent toolHandle,
      In agent (agents o) -> In toolHandle (tools agent) ->
      is_Some (ToolClient.getToolByHandle toolHandle)) /\
   routing o <> [] /\
   conditions (escalationHandler o) <> []) /\
  (fst (validateMASConfig config) = true ->
   forall sessionId message now w,
     exists r w', route o sessionId message now w = Ok (r, w')).
Proof.
  cbv zeta.
  assert (fst (validateMASConfig config) = true <->
          agents (orchestrator config) <> [] /\
          (forall agent toolHandle,
             In agent (agents (orchestrator config)) -> In toolHandle (tools agent) ->
             is_Some (ToolClient.getToolByHandle toolHandle)) /\
          routing (orchestrator config) <> [] /\
          conditions (escalationHandler (orchestrator config)) <> []) as Hiff.
  { unfold validateMASConfig. cbn [fst].
    set (unknown := flat_map _ (agents (orchestrator config))).
    assert (unknown = [] <->
            forall agent toolHandle,
              In agent (agents (orchestrator config)) -> In toolHandle (tools agent) ->
              is_Some (ToolClient.getToolByHandle toolHandle)) as Hunknown.
    { unfold unknown. rewrite flat_map_nil. split.
      - intros H agent toolHandle Hagent Htool. specialize (H agent Hagent).
        rewrite flat_map_nil in H. specialize (H toolHandle Htool).
        apply existsb_find. destruct (existsb _ _); [reflexivity | discriminate].
      - intros H agent Hagent. apply flat_map_nil. intros toolHandle Htool.
        specialize (H agent toolHandle Hagent Htool). apply existsb_find in H.
        now rewrite H. }
    destruct (agents (orchestrator config)) as [|a rest] eqn:Hagents.
    - simpl. split; [discriminate | intros [H _]; congruence].
    - cbn [app]. rewrite <- Hagents in *. clearbody unknown.
      destruct unknown as [|issue issues].
      + destruct (routing (orchestrator config)) as [|rule rules].
        * simpl. split; [discriminate | intros (_ & _ & H & _); congruence].
        * destruct (conditions (escalationHandler (orchestrator config))) as [|c cs].
          -- simpl. split; [discriminate | intros (_ & _ & _ & H); congruence].
          -- simpl. split; [|reflexivity]. intros _.
             split; [congruence|]. split; [now apply Hunknown|]. split; discriminate.
      + simpl. split; [discriminate|]. intros (_ & H & _).
        apply Hunknown in H. discriminate. }
  split; [exact Hiff|]. intros Hvalid. apply Hiff in Hvalid as (Hagents & _).
  intros sessionId message now w. now apply TurnFacts.route_returns.
Qed.

Section Generated.
Variable generateSystemPrompt : WorkflowStep -> WorkflowConfig -> string.
Variable generateGeneralAgentPrompt : WorkflowConfig -> string.

Lemma generateAgents_general workflow :
  exists general,
    In general (generateAgents generateSystemPrompt generateGeneralAgentPrompt workflow) /\
    includes (id general) "general" = true.
Proof.
  unfold generateAgents. set (agents := map _ (workflows workflow)).
  destruct (existsb (fun a => includes (id a) "general") agents) eqn:Hex; simpl.
  - apply existsb_exists in Hex as (a & Ha & Hgen). eauto.
  - eexists. split; [apply in_or_app; right; now left|]. vm_compute. reflexivity.
Qed.

(** X28. Every generated configuration can be routed with. Whatever the
    workflow and the intent patterns, the configuration has an agent whose
    id contains "general"; every routing rule asks for a confidence of 0.3
    and targets an agent of the configuration or "general-support-agent";
    [validateMASConfig] never reports "No agents defined"; and [route]
    returns for every message an agent that has an executor. *)
Theorem generated_configuration_routes (workflow : WorkflowConfig)
    (patterns : list IntentPattern) :
  let config := generateMASConfig generateSystemPrompt generateGeneralAgentPrompt
                  workflow patterns in
  let o := orchestrator config in
  (exists general, In general (agents o) /\ includes (id general) "general" = true) /\
  Forall (fun rule =>
            minConfidence rule = 0.3%float /\
            (targetAgent rule = "general-support-agent" \/
             exists a, In a (agents o) /\ id a = targetAgent rule))
    (routing o) /\
  ~ In "No agents defined" (snd (validateMASConfig config)) /\
  (forall sessionId message now w,
     exists r w' agent,
       route o sessionId message now w = Ok (r, w') /\
       indexAgents (agents o) !! id (rr_targetAgent r) = Some agent /\
       In agent (agents o)).
Proof.
  cbv zeta. cbn [orchestrator generateMASConfig agents routing].
  destruct (generateAgents_general workflow) as (general & Hin & Hgen).
  assert (generateAgents generateSystemPrompt generateGeneralAgentPrompt workflow <> [])
    as Hagents by (intros Hnil; rewrite Hnil in Hin; destruct Hin).
  split; [eauto|]. split; [|split].
  - unfold generateRouting. apply Forall_forall. intros rule Hrule.
    apply list_elem_of_In, in_map_iff in Hrule as (pattern & <- & _). simpl.
    split; [reflexivity|].
    destruct (List.find _ _) as [a|] eqn:Hfind; [|now left].
    destruct (String.eqb (id a) ""); [now left|]. right.
    apply find_some in Hfind as [Ha _]. eauto.
  - unfold validateMASConfig. cbn [snd orchestrator generateMASConfig agents].
    destruct (generateAgents generateSystemPrompt generateGeneralAgentPrompt workflow)
      as [|a rest] eqn:Hgenerated; [congruence|].
    cbn [app]. rewrite !in_app_iff. intros [Hunknown|[Hrouting|Hconditions]].
    + apply in_flat_map in Hunknown as (agent & _ & Hunknown).
      apply in_flat_map in Hunknown as (toolHandle & _ & Hunknown).
      destruct (negb _); [|destruct Hunknown].
      destruct Hunknown as [Heq|[]]. discriminate Heq.
    + destruct (generateRouting _ _); [|destruct Hrouting].
      destruct Hrouting as [Heq|[]]. discriminate Heq.
    + destruct (ruleConditions _); [|destruct Hconditions].
      destruct Hconditions as [Heq|[]]. discriminate Heq.
  - intros sessionId message now w.
    destruct (TurnFacts.route_returns
                {| agents := generateAgents generateSystemPrompt
                               generateGeneralAgentPrompt workflow;
                   routing := generateRouting patterns
                                (generateAgents generateSystemPrompt
                                   generateGeneralAgentPrompt workflow);
                   fallbackAgent := "general-support-agent";
                   escalationHandler :=
                     {| conditions := ruleConditions (escalationRules workflow);
                        customerMessage := ruleMessage (escalationRules workflow);
                        summaryFields := ruleSummary (escalationRules workflow) |} |}
                sessionId message now w Hagents) as (r & w' & Hroute).
    destruct (FailureFacts.route_target_indexed _ _ _ _ _ _ _ Hroute)
      as (agent & Hagent & Hmember).
    exists r, w', agent. split; [exact Hroute|]. split; [exact Hagent | exact Hmember].
Qed.

End Generated.

End GeneratorFacts.


(** ** The order of a turn *)

Module OrderFacts.

Import Orchestrator Runtime.

Section Order.
Variable config : OrchestratorConfig.
Variable execute :
  AgentConfig -> string -> string -> World -> Result Exn AgentResponse * World.

(** X29. What one turn invokes, and in which order: nothing (unknown or
    escalated session); the escalation check alone (the message escalates);
    the check and [route] ([route] threw or found no executor); the check,
    [route] and one agent (the agent threw); or the check, [route], one
    agent and the check again. No turn routes before the first check, routes
    twice or runs two agents; and a reply that is not an escalation comes
    only from the last, complete sequence, with the text of the agent. *)
Theorem handleMessage_invokes_in_order (sessionId message : string) (now later : Z)
    (st : State) :
  let r := fst (handleMessage config execute sessionId message now later st) in
  let st' := snd (handleMessage config execute sessionId message now later st) in
  exists new,
    invoked st' = invoked st ++ new /\
    (new = [] \/
     new = [InvokedCheckEscalation] \/
     new = [InvokedCheckEscalation; InvokedRoute] \/
     exists agentId,
       new = [InvokedCheckEscalation; InvokedRoute; InvokedExecute agentId] \/
       new = [InvokedCheckEscalation; InvokedRoute; InvokedExecute agentId;
              InvokedCheckEscalation]) /\
    (forall reply,
       r = Ok reply -> escalated reply = false ->
       exists agent w w' response,
         new = [InvokedCheckEscalation; InvokedRoute; InvokedExecute (id agent);
                InvokedCheckEscalation] /\
         In agent (agents config) /\
         execute agent sessionId message w = (Ok response, w') /\
         Runtime.message reply = ar_message response).
Proof.
  cbv zeta. unfold handleMessage.
  destruct (Memory.getSession sessionId (store (world st))) as [s|].
  2:{ exists []. rewrite app_nil_r. split; [reflexivity|]. split; [now left|].
      intros reply Hr. discriminate. }
  destruct (Memory.isEscalated sessionId (store (world st))).
  { exists []. rewrite app_nil_r. split; [reflexivity|]. split; [now left|].
    intros reply [= <-]. discriminate. }
  destruct (Memory.addMessage _ _ _ _ _ _) as [store1|e].
  2:{ exists []. rewrite app_nil_r. split; [reflexivity|]. split; [now left|].
      intros reply Hr. discriminate. }
  destruct (checkEscalation config sessionId message None now _) as [[check w2]|e].
  2:{ exists [InvokedCheckEscalation]. split; [reflexivity|]. split; [right; now left|].
      intros reply Hr. discriminate. }
  destruct (er_escalated check).
  { exists [InvokedCheckEscalation]. split; [reflexivity|]. split; [right; now left|].
    intros reply [= <-]. discriminate. }
  destruct (route config sessionId message now w2) as [[routing w3]|e] eqn:Hroute.
  2:{ exists [InvokedCheckEscalation; InvokedRoute]. simpl. rewrite <- app_assoc.
      split; [reflexivity|]. split; [right; right; now left|].
      intros reply Hr. discriminate. }
  destruct (indexAgents (agents config) !! id (rr_targetAgent routing)) as [agent|] eqn:Hagent.
  2:{ exists [InvokedCheckEscalation; InvokedRoute]. simpl. rewrite <- app_assoc.
      split; [reflexivity|]. split; [right; right; now left|].
      intros reply Hr. discriminate. }
  destruct (FailureFacts.indexAgents_key _ _ _ Hagent) as [Hid Hmember].
  destruct (execute agent sessionId message w3) as [[response|e] w4] eqn:Hexec.
  2:{ exists [InvokedCheckEscalation; InvokedRoute;
              InvokedExecute (id (rr_targetAgent routing))].
      simpl. rewrite <- !app_assoc. split; [reflexivity|].
      split; [right; right; right; eexists; now left|].
      intros reply Hr. discriminate. }
  destruct (FailureFacts.checkEscalation_returns config sessionId message
              (Some (ar_message response)) later w4) as (post & w5 & ->).
  exists [InvokedCheckEscalation; InvokedRoute;
          InvokedExecute (id (rr_targetAgent routing)); InvokedCheckEscalation].
  destruct (er_escalated post); simpl; rewrite <- !app_assoc.
  - split; [reflexivity|]. split; [right; right; right; eexists; now right|].
    intros reply [= <-]. discriminate.
  - split; [reflexivity|]. split; [right; right; right; eexists; now right|].
    intros reply [= <-] _. exists agent, w3, w4, response. rewrite Hid.
    split; [reflexivity|]. split; [exact Hmember|]. split; [exact Hexec | reflexivity].
Qed.

End Order.

End OrderFacts.


(** ** Order numbers: from the customer's words to the store *)

Module ExtractionFacts.

Import Memory.

(** The texts the order-number pattern describes: ["#"], ["#NP"] or ["NP"]
    (in either case), then four to ten digits. *)
Definition orderPrefix (p : list ascii) : Prop :=
  (exists h, p = [h] /\ isHash h = true) \/
  (exists h n q, p = [h; n; q] /\ isHash h = true /\ isN n = true /\ isP q = true) \/
  (exists n q, p = [n; q] /\ isN n = true /\ isP q = true).

Definition orderShaped (m : list ascii) : Prop :=
  exists p ds,
    m = p ++ ds /\ orderPrefix p /\
    Forall (fun c => isDigit c = true) ds /\ (4 <= length ds <= 10)%nat.

Lemma takeDigits_spec max : forall l,
  exists rest,
    l = takeDigits max l ++ rest /\
    Forall (fun c => isDigit c = true) (takeDigits max l) /\
    (length (takeDigits max l) <= max)%nat.
Proof.
  induction max as [|max IH]; intros l.
  - exists l. destruct l; simpl; repeat split; try constructor; lia.
  - destruct l as [|c l]; simpl.
    + exists []. repeat split; try constructor; lia.
    + destruct (isDigit c) eqn:Hc.
      * destruct (IH l) as (rest & Hl & Hds & Hlen). exists rest.
        split; [simpl; now rewrite <- Hl|]. split; [now constructor | simpl; lia].
      * exists (c :: l). repeat split; try constructor; simpl; lia.
Qed.

Lemma digits4to10_spec l ds :
  digits4to10 l = Some ds ->
  exists rest,
    l = ds ++ rest /\ Forall (fun c => isDigit c = true) ds /\
    (4 <= length ds <= 10)%nat.
Proof.
  unfold digits4to10. destruct (takeDigits_spec 10 l) as (rest & Hl & Hds & Hlen).
  destruct (4 <=? length (takeDigits 10 l))%nat eqn:Hmin; [|discriminate].
  intros [= <-]. apply Nat.leb_le in Hmin. exists rest. now repeat split.
Qed.

Lemma npDigits_spec l m :
  npDigits l = Some m ->
  exists n q ds rest,
    m = [n; q] ++ ds /\ l = m ++ rest /\ isN n = true /\ isP q = true /\
    Forall (fun c => isDigit c = true) ds /\ (4 <= length ds <= 10)%nat.
Proof.
  unfold npDigits. destruct l as [|n [|q l]]; try discriminate.
  destruct (isN n && isP q) eqn:Hnp; [|discriminate].
  apply andb_prop in Hnp as [Hn Hq].
  destruct (digits4to10 l) as [ds|] eqn:Hds; [|discriminate].
  intros [= <-]. destruct (digits4to10_spec _ _ Hds) as (rest & -> & Hall & Hlen).
  exists n, q, ds, rest. now repeat split.
Qed.

Lemma matchOrderAt_spec l m :
  matchOrderAt l = Some m -> orderShaped m /\ exists rest, l = m ++ rest.
Proof.
  unfold matchOrderAt. destruct l as [|c l]; [discriminate|].
  destruct (isHash c) eqn:Hc.
  - destruct (digits4to10 l) as [ds|] eqn:Hds.
    + intros [= <-]. destruct (digits4to10_spec _ _ Hds) as (rest & -> & Hall & Hlen).
      split; [|now exists rest]. exists [c], ds. repeat split; try assumption; try lia.
      left. eauto.
    + destruct (npDigits l) as [np|] eqn:Hnp; [|discriminate].
      intros [= <-].
      destruct (npDigits_spec _ _ Hnp) as (n & q & ds & rest & -> & -> & Hn & Hq & Hall & Hlen).
      split; [|now exists rest]. exists [c; n; q], ds.
      repeat split; try assumption; try lia. right. left. exists c, n, q. auto.
  - intros Hnp.
    destruct (npDigits_spec _ _ Hnp) as (n & q & ds & rest & -> & -> & Hn & Hq & Hall & Hlen).
    split; [|now exists rest]. exists [n; q], ds.
    repeat split; try assumption; try lia. right. right. exists n, q. auto.
Qed.

Lemma scanOrders_spec l : forall skip x,
  In x (scanOrders skip l) ->
  exists m before after,
    x = string_of_list_ascii m /\ orderShaped m /\ l = before ++ m ++ after.
Proof.
  induction l as [|c l IH]; intros skip x Hx; [destruct Hx|].
  assert (forall k, In x (scanOrders k l) ->
            exists m before after,
              x = string_of_list_ascii m /\ orderShaped m /\
              c :: l = before ++ m ++ after) as Hlater.
  { intros k Hk. destruct (IH k x Hk) as (m & before & after & Hm & Hshape & ->).
    exists m, (c :: before), after. now repeat split. }
  cbn [scanOrders] in Hx. destruct skip as [|k]; [|now apply (Hlater k)].
  destruct (matchOrderAt (c :: l)) as [m|] eqn:Hmatch; [|now apply (Hlater 0%nat)].
  destruct Hx as [<-|Hx]; [|now apply (Hlater (length m - 1)%nat)].
  destruct (matchOrderAt_spec _ _ Hmatch) as (Hshape & rest & Hl).
  exists m, [], rest. now repeat split.
Qed.

Lemma string_of_list_ascii_app a b :
  string_of_list_ascii (a ++ b) = string_of_list_ascii a +:+ string_of_list_ascii b.
Proof. induction a as [|c a IH]; simpl; [reflexivity | now rewrite IH]. Qed.

(** [m] is an order number that occurs in [text]. *)
Definition orderNumberOf (text m : string) : Prop :=
  orderShaped (list_ascii_of_string m) /\
  exists before after, text = before +:+ m +:+ after.

Lemma orderMatches_sound content m :
  In m (orderMatches content) -> orderNumberOf content m.
Proof.
  unfold orderMatches. intros Hin.
  destruct (scanOrders_spec _ _ _ Hin) as (l & before & after & -> & Hshape & Hl).
  split; [now rewrite list_ascii_of_string_of_list_ascii|].
  exists (string_of_list_ascii before), (string_of_list_ascii after).
  rewrite <- !string_of_list_ascii_app, <- Hl.
  now rewrite string_of_list_ascii_of_string.
Qed.

(** *** In the store *)

(** What is done to the store: sessions are started, and the mutators are
    called. *)
Inductive StoreOp : Type :=
| Start (sessionId : string) (params : SessionStartParams) (now : Z)
| Mutate (m : StoreFacts.Mutation).

Definition applyStoreOp (store : MemoryStore) (op : StoreOp) : MemoryStore :=
  match op with
  | Start sessionId params now => snd (startSession sessionId params now store)
  | Mutate m =>
      match StoreFacts.mutate m store with
      | Ok store' => store'
      | Throw _ => store
      end
  end.

Definition runStoreOps (ops : list StoreOp) : MemoryStore :=
  fold_left applyStoreOp ops ∅.

(** Every mentioned order number of the session is an order number that
    occurs in a customer message of the session. *)
Definition ordersHeard (s : Session) : Prop :=
  forall m, In m (mentionedOrderNumbers (context s)) ->
    exists msg,
      In msg (messages s) /\ role msg = Customer /\ orderNumberOf (content msg) m.

Lemma ordersHeard_grows s s' :
  ordersHeard s ->
  mentionedOrderNumbers (context s') = mentionedOrderNumbers (context s) ->
  (forall msg, In msg (messages s) -> In msg (messages s')) ->
  ordersHeard s'.
Proof.
  intros Hs Hsame Hmsgs m Hm. rewrite Hsame in Hm.
  destruct (Hs m Hm) as (msg & Hin & Hrole & Hnum). eauto.
Qed.

Lemma applyOp_ordersHeard store op :
  (forall sessionId s, store !! sessionId = Some s -> ordersHeard s) ->
  forall sessionId s, applyStoreOp store op !! sessionId = Some s -> ordersHeard s.
Proof.
  intros Hall sessionId s.
  assert (forall target (t : Session),
            ordersHeard t ->
            <[target := t]> store !! sessionId = Some s -> ordersHeard s) as Hins.
  { intros target t Ht. destruct (decide (target = sessionId)) as [->|Hne].
    - rewrite lookup_insert_eq. now intros [= <-].
    - rewrite lookup_insert_ne by exact Hne. apply Hall. }
  destruct op as [target params now|m]; simpl.
  - apply Hins. intros m [].
  - destruct m as [target role content metadata now
                  |target toolHandle params result now
                  |target reason summary now
                  |target agentId
                  |target intentId]; simpl.
    + unfold addMessage. destruct (store !! target) as [t|] eqn:Ht; [|apply Hall].
      apply Hins. pose proof (Hall target t Ht) as Hheard.
      destruct role.
      * intros m Hm. simpl in Hm.
        destruct (MemoryFacts.extract_appends (orderMatches content)
                    (mentionedOrderNumbers (context t))) as (added & Heq & Hsub).
        rewrite Heq in Hm. apply in_app_or in Hm as [Hold|Hnew].
        -- destruct (Hheard m Hold) as (msg & Hin & Hrole & Hnum).
           exists msg. split; [simpl; apply in_or_app; now left|]. now split.
        -- eexists. split; [simpl; apply in_or_app; right; now left|].
           split; [reflexivity|]. simpl. apply orderMatches_sound.
           apply list_elem_of_In. eapply elem_of_sublist; [|exact Hsub].
           now apply list_elem_of_In.
      * eapply ordersHeard_grows; [exact Hheard | reflexivity|].
        intros msg Hmsg. simpl. apply in_or_app. now left.
      * eapply ordersHeard_grows; [exact Hheard | reflexivity|].
        intros msg Hmsg. simpl. apply in_or_app. now left.
    + unfold recordToolCall. destruct (store !! target) as [t|] eqn:Ht; [|apply Hall].
      apply Hins. eapply ordersHeard_grows; [exact (Hall target t Ht) | |].
      * unfold cacheToolResult. destruct (_ || _); reflexivity.
      * intros msg Hmsg. unfold cacheToolResult. destruct (_ || _); exact Hmsg.
    + unfold escalate. destruct (store !! target) as [t|] eqn:Ht; [|apply Hall].
      apply Hins. eapply ordersHeard_grows; [exact (Hall target t Ht) | reflexivity | auto].
    + unfold setCurrentAgent. destruct (store !! target) as [t|] eqn:Ht; [|apply Hall].
      apply Hins. eapply ordersHeard_grows; [exact (Hall target t Ht) | reflexivity | auto].
    + unfold recordIntent. destruct (store !! target) as [t|] eqn:Ht; [|apply Hall].
      apply Hins. eapply ordersHeard_grows; [exact (Hall target t Ht) | reflexivity | auto].
Qed.

(** X30. Whatever sessions are started and whatever mutators are called, from
    the empty store: every order number a session holds as mentioned was
    said by the customer. It occurs literally in a customer message of that
    session, and it is ["#"], ["#NP"] or ["NP"] (in either case) followed by
    four to ten digits. *)
Theorem mentioned_orders_were_said (ops : list StoreOp) (sessionId : string)
    (s : Session) (m : string) :
  runStoreOps ops !! sessionId = Some s ->
  In m (mentionedOrderNumbers (context s)) ->
  exists msg,
    In msg (messages s) /\ role msg = Customer /\
    orderShaped (list_ascii_of_string m) /\
    exists before after, content msg = before +:+ m +:+ after.
Proof.
  intros Hs Hm. unfold runStoreOps in Hs. revert Hs.
  assert (forall store,
            (forall sid t, store !! sid = Some t -> ordersHeard t) ->
            forall sid t, fold_left applyStoreOp ops store !! sid = Some t -> ordersHeard t)
    as Hrun.
  { clear Hm. induction ops as [|op ops IH]; intros store Hall; [exact Hall|].
    simpl. apply IH. now apply applyOp_ordersHeard. }
  intros Hs.
  assert (ordersHeard s) as Hheard.
  { apply (Hrun ∅) with (sid := sessionId); [|exact Hs].
    intros sid t H. rewrite lookup_empty in H. discriminate. }
  destruct (Hheard m Hm) as (msg & Hin & Hrole & Hshape & Hocc). eauto.
Qed.

Definition sampleStoreOps : list StoreOp := [
  Start "session_1" MemoryFacts.sampleParams 0;
  Mutate (StoreFacts.AddMessage "session_1" Customer
            "Orders #1234567 and np7654321 never arrived" None 10);
  Mutate (StoreFacts.AddMessage "session_1" Agent
            "Let me check order #9999999 for you" None 11);
  Mutate (StoreFacts.SetCurrentAgent "session_1" "order-tracking-agent")
].

Lemma mentioned_orders_were_said_witness :
  exists s msg,
    runStoreOps sampleStoreOps !! "session_1" = Some s /\
    mentionedOrderNumbers (context s) = ["#1234567"; "np7654321"] /\
    In msg (messages s) /\ role msg = Customer /\
    exists before after, content msg = before +:+ "np7654321" +:+ after.
Proof.
  destruct (runStoreOps sampleStoreOps !! "session_1") as [s|] eqn:Hs;
    [|vm_compute in Hs; discriminate].
  assert (mentionedOrderNumbers (context s) = ["#1234567"; "np7654321"]) as Hm
    by (vm_compute in Hs; injection Hs as <-; reflexivity).
  destruct (mentioned_orders_were_said sampleStoreOps "session_1" s "np7654321" Hs)
    as (msg & Hin & Hrole & _ & Hocc).
  { rewrite Hm. right. now left. }
  exists s, msg. split; [reflexivity|]. split; [exact Hm|]. split; [exact Hin|].
  split; [exact Hrole | exact Hocc].
Defined.

End ExtractionFacts.

